(** * Zero-configuration builder and route detection (detect-builders)

    A shallow embedding of the detector: path and segment utilities,
    the function-configuration validator, the conflict detector, the
    route compiler, the builder classifier and the route assembler,
    followed by the properties established about them.

    JavaScript strings are modelled as [string]; one character stands
    for one UTF-16 code unit below 256. *)

From Stdlib Require Import ZArith QArith_base Qreduction List Bool Ascii String Lia.
From Stdlib Require Import Numbers.DecimalString.
From stdpp Require Import base gmap strings.

Close Scope Q_scope.
Open Scope string_scope.
Open Scope list_scope.

(** ** JavaScript string primitives *)

Module JsString.

Definition slash : ascii := "/"%char.
Definition dot : ascii := "."%char.

(** [s.charCodeAt(i)]; [None] stands for NaN (index out of range). *)
Definition charCodeAt (s : string) (i : nat) : option ascii := String.get i s.

(** [s.startsWith(p)] *)
Fixpoint startsWith (s p : string) {struct p} : bool :=
  match p with
  | EmptyString => true
  | String c p' =>
      match s with
      | String d s' => Ascii.eqb c d && startsWith s' p'
      | EmptyString => false
      end
  end.

(** [s.endsWith(p)] *)
Definition endsWith (s p : string) : bool :=
  let n := String.length s in
  let m := String.length p in
  (m <=? n)%nat && String.eqb (String.substring (n - m) m s) p.

(** [s.includes(p)] *)
Fixpoint includes (s p : string) : bool :=
  startsWith s p ||
  match s with
  | EmptyString => false
  | String _ s' => includes s' p
  end.

(** [s.slice(from, to)], negative indices counted from the end. *)
Definition slice (s : string) (from to : Z) : string :=
  let len := Z.of_nat (String.length s) in
  let clamp (k : Z) := if (k <? 0)%Z then Z.max (len + k) 0 else Z.min k len in
  let a := clamp from in
  let b := clamp to in
  String.substring (Z.to_nat a) (Z.to_nat (b - a)) s.

(** [s.slice(from)] *)
Definition sliceFrom (s : string) (from : Z) : string :=
  slice s from (Z.of_nat (String.length s)).

(** [s.split(c)] for a one-character separator: never the empty list. *)
Fixpoint split (c : ascii) (s : string) : list string :=
  match s with
  | EmptyString => [EmptyString]
  | String a s' =>
      if Ascii.eqb a c then EmptyString :: split c s'
      else match split c s' with
           | [] => [String a EmptyString]
           | x :: xs => String a x :: xs
           end
  end.

(** [xs.join(sep)] *)
Fixpoint join (sep : string) (xs : list string) : string :=
  match xs with
  | [] => EmptyString
  | [x] => x
  | x :: rest => x +:+ sep +:+ join sep rest
  end.

(** [s.replace(/c/g, r)] for a pattern that matches the single
    character [c] and a replacement free of substitution patterns. *)
Fixpoint replaceAllChar (c : ascii) (r : string) (s : string) : string :=
  match s with
  | EmptyString => EmptyString
  | String a s' =>
      if Ascii.eqb a c then r +:+ replaceAllChar c r s'
      else String a (replaceAllChar c r s')
  end.

(** Decimal rendering of a counter, as template literals print it. *)
Definition ofNat (n : nat) : string := NilZero.string_of_uint (Nat.to_uint n).

(** The double-quote character of the messages. *)
Definition dquote : string := String (ascii_of_nat 34) EmptyString.

(** Truthiness of a string. *)
Definition truthy (s : string) : bool := negb (String.eqb s EmptyString).

End JsString.
Import JsString.

(** ** Node's [path.posix.parse] *)

Record ParsedPath := mkParsedPath {
  root : string;
  dir : string;
  base : string;
  ext : string;
  name : string
}.

(** The scan variables of [path.parse]. *)
Record ParseState := mkParseState {
  startDot : Z;
  startPart : Z;
  endPos : Z;
  matchedSlash : bool;
  preDotState : Z
}.

Definition parseInit : ParseState := mkParseState (-1) 0 (-1) true 0.

(** The body of the loop for a character that is no separator. *)
Definition markChar (i : nat) (code : ascii) (st : ParseState) : ParseState :=
  let st1 :=
    if (endPos st =? -1)%Z then
      (* We saw the first non-path separator, mark this as the end of our
         extension *)
      mkParseState (startDot st) (startPart st) (Z.of_nat i + 1)
                   false (preDotState st)
    else st in
  if Ascii.eqb code dot then
    (* If this is our first dot, mark it as the start of our extension *)
    if (startDot st1 =? -1)%Z then
      mkParseState (Z.of_nat i) (startPart st1) (endPos st1)
                   (matchedSlash st1) (preDotState st1)
    else if negb (preDotState st1 =? 1)%Z then
      mkParseState (startDot st1) (startPart st1) (endPos st1)
                   (matchedSlash st1) 1
    else st1
  else if negb (startDot st1 =? -1)%Z then
    (* We saw a non-dot and non-path separator before our dot *)
    mkParseState (startDot st1) (startPart st1) (endPos st1)
                 (matchedSlash st1) (-1)
  else st1.

(** The loop [for (; i >= start; --i)] with [i = start + k - 1]; a
    [break] returns the state. *)
Fixpoint parseLoop (path : string) (start k : nat) (st : ParseState) : ParseState :=
  match k with
  | O => st
  | S k' =>
      let i := (start + k')%nat in
      match charCodeAt path i with
      | None => st
      | Some code =>
          if Ascii.eqb code slash then
            if negb (matchedSlash st) then
              (* a path separator that was not part of a set of path
                 separators at the end of the string: stop now *)
              mkParseState (startDot st) (Z.of_nat i + 1) (endPos st)
                           (matchedSlash st) (preDotState st)
            else parseLoop path start k' st
          else parseLoop path start k' (markChar i code st)
      end
  end.

(** What [path.parse] returns after the loop. *)
Definition parseResult (path : string) (isAbsolute : bool) (st : ParseState)
  : ParsedPath :=
  let start' :=
    if (startPart st =? 0)%Z && isAbsolute then 1%Z else startPart st in
  let '(base', name', ext') :=
    if negb (endPos st =? -1)%Z then
      if (startDot st =? -1)%Z
         (* We saw a non-dot character immediately before the dot *)
         || (preDotState st =? 0)%Z
         (* The (right-most) trimmed path component is exactly '..' *)
         || ((preDotState st =? 1)%Z
             && (startDot st =? endPos st - 1)%Z
             && (startDot st =? startPart st + 1)%Z)
      then (slice path start' (endPos st), slice path start' (endPos st), "")
      else (slice path start' (endPos st),
            slice path start' (startDot st),
            slice path (startDot st) (endPos st))
    else ("", "", "") in
  let dir' :=
    if (startPart st >? 0)%Z then slice path 0 (startPart st - 1)
    else if isAbsolute then "/" else "" in
  mkParsedPath (if isAbsolute then "/" else "") dir' base' ext' name'.

Definition isAbsolutePath (path : string) : bool :=
  match charCodeAt path 0 with
  | Some c => Ascii.eqb c slash
  | None => false
  end.

Definition parsePath (path : string) : ParsedPath :=
  if (String.length path =? 0)%nat then
    mkParsedPath "" "" "" "" ""
  else
    let isAbsolute := isAbsolutePath path in
    let start := if isAbsolute then 1%nat else 0%nat in
    parseResult path isAbsolute
      (parseLoop path start (String.length path - start) parseInit).

(** [path.extname] runs the same scan, over the whole string (the
    loop goes down to index 0 also for an absolute path), and returns
    what lies between the dot and the end it found. *)
Definition extname (path : string) : string :=
  let st := parseLoop path 0 (String.length path) parseInit in
  if (startDot st =? -1)%Z
     || (endPos st =? -1)%Z
     (* We saw a non-dot character immediately before the dot *)
     || (preDotState st =? 0)%Z
     (* The (right-most) trimmed path component is exactly '..' *)
     || ((preDotState st =? 1)%Z
         && (startDot st =? endPos st - 1)%Z
         && (startDot st =? startPart st + 1)%Z)
  then ""
  else slice path (startDot st) (endPos st).

(** ** JavaScript values reaching the detector from the project
    configuration: JSON values and [undefined]. *)

(** A number is NaN, an infinity, or a finite value; every finite
    double is a rational, and the comparisons and the remainder used
    below are exact on doubles. *)
Inductive JsNumber :=
| NaN
| Infinity (negative : bool)
| Finite (q : Q).

#[warnings="-register-all"]
Inductive JsValue :=
| JsUndefined
| JsNull
| JsBool (b : bool)
| JsNum (n : JsNumber)
| JsStr (s : string)
| JsArray (items : list JsValue)
| JsObject (props : list (string * JsValue)).

Module JsNum.

Definition ofZ (z : Z) : JsNumber := Finite (inject_Z z).

(** [x < y] on numbers: false as soon as an operand is NaN. *)
Definition lt (x y : JsNumber) : bool :=
  match x, y with
  | NaN, _ | _, NaN => false
  | Infinity true, Infinity true => false
  | Infinity true, _ => true
  | _, Infinity true => false
  | Infinity false, _ => false
  | _, Infinity false => true
  | Finite a, Finite b => negb (Qle_bool b a)
  end.

(** [x > y] *)
Definition gt (x y : JsNumber) : bool := lt y x.

(** [x % m] for a finite non-zero integer [m]: the truncated
    remainder, NaN for NaN and the infinities. *)
Definition rem (x : JsNumber) (m : Z) : JsNumber :=
  match x with
  | Finite q =>
      let t := Z.quot (Qnum q) (Zpos (Qden q) * m) in
      Finite (Qminus q (inject_Z (m * t)))
  | _ => NaN
  end.

(** [x !== y] on numbers. *)
Definition strictNe (x y : JsNumber) : bool :=
  match x, y with
  | NaN, _ | _, NaN => true
  | Infinity a, Infinity b => negb (Bool.eqb a b)
  | Finite a, Finite b => negb (Qeq_bool a b)
  | _, _ => true
  end.

Definition isIntegral (x : JsNumber) : bool :=
  match x with
  | Finite q => (Zpos (Qden (Qred q)) =? 1)%Z
  | _ => false
  end.

Definition truthy (x : JsNumber) : bool :=
  match x with
  | NaN => false
  | Infinity _ => true
  | Finite q => negb (Qeq_bool q 0)
  end.

End JsNum.

Module JsVal.

(** [typeof v === 'object'] *)
Definition typeofObject (v : JsValue) : bool :=
  match v with
  | JsNull | JsArray _ | JsObject _ => true
  | _ => false
  end.

(** [typeof v === 'string'] *)
Definition typeofString (v : JsValue) : bool :=
  match v with
  | JsStr _ => true
  | _ => false
  end.

Definition isUndefined (v : JsValue) : bool :=
  match v with
  | JsUndefined => true
  | _ => false
  end.

(** Truthiness. *)
Definition truthy (v : JsValue) : bool :=
  match v with
  | JsUndefined | JsNull => false
  | JsBool b => b
  | JsNum n => JsNum.truthy n
  | JsStr s => JsString.truthy s
  | JsArray _ | JsObject _ => true
  end.

(** [Number.isInteger(v)]: no coercion. *)
Definition isInteger (v : JsValue) : bool :=
  match v with
  | JsNum n => JsNum.isIntegral n
  | _ => false
  end.

Fixpoint lookup (key : string) (props : list (string * JsValue)) : JsValue :=
  match props with
  | [] => JsUndefined
  | (k, v) :: rest => if String.eqb k key then v else lookup key rest
  end.

(** [v.key] for one of the configuration property names (none of
    them is an array index or [length]). *)
Definition getProp (v : JsValue) (key : string) : JsValue :=
  match v with
  | JsObject props => lookup key props
  | _ => JsUndefined
  end.

Fixpoint indexKeys (from n : nat) : list string :=
  match n with
  | O => []
  | S n' => ofNat from :: indexKeys (S from) n'
  end.

(** [Object.keys(v)] *)
Definition keys (v : JsValue) : list string :=
  match v with
  | JsObject props => map fst props
  | JsArray items => indexKeys 0 (List.length items)
  | JsStr s => indexKeys 0 (String.length s)
  | _ => []
  end.

Fixpoint indexed (from : nat) (items : list JsValue) : list (string * JsValue) :=
  match items with
  | [] => []
  | v :: rest => (ofNat from, v) :: indexed (S from) rest
  end.

(** [{ ...v }]: the own enumerable properties of [v]; those of a
    string are its characters under their indices. *)
Definition spread (v : JsValue) : JsValue :=
  match v with
  | JsObject props => JsObject props
  | JsArray items => JsObject (indexed 0 items)
  | JsStr s =>
      JsObject (indexed 0 (map (fun c => JsStr (String c ""))
                               (list_ascii_of_string s)))
  | _ => JsObject []
  end.

End JsVal.

(** ** Records of the detector *)

Record ErrorResponse := mkError {
  code : string;
  message : string
}.

(** [BuilderFunctions]: the entries in the order [Object.entries]
    yields them; keys of an object are unique. *)
Definition BuilderFunctions := list (string * JsValue).

Record ProjectSettings := mkProjectSettings {
  framework : option string;
  devCommand : option string;
  buildCommand : option string;
  outputDirectory : option string
}.

(** [Options]; an absent flag reads as [false], an absent or [null]
    string as [None]. *)
Record Options := mkOptions {
  tag : option string;
  functions : option BuilderFunctions;
  ignoreBuildScript : bool;
  projectSettings : option ProjectSettings;
  cleanUrls : bool;
  trailingSlash : bool;
  featHandleMiss : bool
}.

Record Config := mkConfig {
  zeroConfig : bool;
  cfgFunctions : option (list (string * JsValue));
  cfgIncludeFiles : option JsValue;
  cfgExcludeFiles : option JsValue;
  cfgFramework : option string;
  cfgDevCommand : option string;
  cfgBuildCommand : option string;
  cfgOutputDirectory : option string
}.

(** [use] of an API builder may be the [runtime] value of a function
    entry, so it is kept as a value. *)
Record Builder := mkBuilder {
  use : JsValue;
  src : string;
  config : option Config
}.

(** [Route] and [Source] of the routing utilities; only the fields the
    detector writes. *)
Record Route := mkRoute {
  routeSrc : option string;
  routeDest : option string;
  routeCheck : option bool;
  routeContinue : option bool;
  routeStatus : option Z;
  routeHeaders : option (list (string * string));
  routeHandle : option string
}.

Record PackageJson := mkPackageJson {
  scripts : option (list (string * string));
  dependencies : option (list (string * string));
  devDependencies : option (list (string * string))
}.

Record DetectResult := mkDetectResult {
  builders : option (list Builder);
  errors : option (list ErrorResponse);
  warnings : list ErrorResponse;
  defaultRoutes : option (list Route);
  redirectRoutes : option (list Route);
  rewriteRoutes : option (list Route)
}.

Definition optTruthy (o : option string) : bool :=
  match o with
  | Some s => JsString.truthy s
  | None => false
  end.

(** [a || b] on strings that may be absent. *)
Definition orElse (o : option string) (d : string) : string :=
  match o with
  | Some s => if JsString.truthy s then s else d
  | None => d
  end.

Fixpoint assoc (key : string) (m : list (string * string)) : option string :=
  match m with
  | [] => None
  | (k, v) :: rest => if String.eqb k key then Some v else assoc key rest
  end.

(** [Array.prototype.sort(cmp)]: the sort is stable and the
    comparators used here order by a key, so the result is the stable
    insertion of each element in turn. *)
Section Sort.
Context {A : Type} (cmp : A -> A -> Z).

Fixpoint sortInsert (x : A) (l : list A) : list A :=
  match l with
  | [] => [x]
  | y :: l' => if (cmp x y <? 0)%Z then x :: y :: l' else y :: sortInsert x l'
  end.

Definition sort (l : list A) : list A :=
  fold_left (fun acc x => sortInsert x acc) l [].
End Sort.

(** ** Path and segment utilities *)

(** Takes a file name or folder name, strips the extension and gets
    the part between the brackets; [None] when there are none. *)
Definition getSegmentName (segment : string) : option string :=
  let name := name (parsePath segment) in
  if startsWith name "[" && endsWith name "]" then Some (slice name 1 (-1))
  else None.

(** Truthiness of [string | null]. *)
Definition nameTruthy (n : option string) : bool := optTruthy n.

(** [s.replace(/\/{2,}/g, '/')] *)
Fixpoint collapseSlashes (s : string) : string :=
  match s with
  | EmptyString => EmptyString
  | String a s' =>
      if Ascii.eqb a slash then
        match s' with
        | String b _ =>
            if Ascii.eqb b slash then collapseSlashes s'
            else String a (collapseSlashes s')
        | EmptyString => String a EmptyString
        end
      else String a (collapseSlashes s')
  end.

Definition joinPath (segments : list string) : string :=
  collapseSlashes (join "/" segments).

(** The line terminators that [.] does not match (U+2028 and U+2029
    lie outside the modelled code units). *)
Definition lineTerminator (c : ascii) : bool :=
  Ascii.eqb c "010"%char || Ascii.eqb c "013"%char.

(** What follows the last "]" that a greedy [.*] reaches from the
    start of [s]. *)
Fixpoint afterLastClose (s : string) : option string :=
  match s with
  | EmptyString => None
  | String a s' =>
      if lineTerminator a then None
      else match afterLastClose s' with
           | Some r => Some r
           | None => if Ascii.eqb a "]"%char then Some s' else None
           end
  end.

(** [part.replace(/\[.*\]/, '1')]: the leftmost match, taken greedily. *)
Fixpoint replacePlaceholder (s : string) : string :=
  match s with
  | EmptyString => EmptyString
  | String a s' =>
      if Ascii.eqb a "["%char then
        match afterLastClose s' with
        | Some r => "1" +:+ r
        | None => String a (replacePlaceholder s')
        end
      else String a (replacePlaceholder s')
  end.

Definition getAbsolutePath (unresolvedPath : string) : string :=
  let p := parsePath unresolvedPath in
  let parts := split slash (joinPath [dir p; name p]) in
  join "/" (map replacePlaceholder parts).

Definition special : list ascii :=
  list_ascii_of_string "[]^$.|?*+()".

Definition escapeName (name : string) : string :=
  fold_left
    (fun name char => replaceAllChar char (String "\"%char (String char "")) name)
    special name.

Definition concatArrayOfText (texts : list string) : string :=
  if (List.length texts <=? 2)%nat then join " and " texts
  else join ", " (removelast texts) +:+ ", and " +:+ List.last texts "".

(** ** Conflict detector *)

(** Checks if a placeholder with the same name is used multiple times
    inside the same path. *)
Fixpoint conflictLoop (segs : list string) (segments : gset string) : option string :=
  match segs with
  | [] => None
  | segment :: rest =>
      let name := getSegmentName segment in
      match name with
      | Some n =>
          if bool_decide (n ∈ segments) then Some n
          else conflictLoop rest
                 (if nameTruthy name then {[ n ]} ∪ segments else segments)
      | None => conflictLoop rest segments
      end
  end.

Definition getConflictingSegment (filePath : string) : option string :=
  conflictLoop (split slash filePath) ∅.

Definition optStringEqb (a b : option string) : bool :=
  match a, b with
  | Some x, Some y => String.eqb x y
  | None, None => true
  | _, _ => false
  end.

(** The loop of [partiallyMatches]: [long[index]] walks along with
    the segments of [short]. *)
Fixpoint partialLoop (short long : list string) : bool :=
  match short, long with
  | segmentShort :: short', segmentLong :: long' =>
      let nameLong := getSegmentName segmentLong in
      let nameShort := getSegmentName segmentShort in
      if negb (String.eqb segmentShort segmentLong)
         && (negb (nameTruthy nameLong) || negb (nameTruthy nameShort))
      then false
      else if negb (optStringEqb nameLong nameShort) then true
      else partialLoop short' long'
  | _, _ => false
  end.

(** Check if the path partially matches and has the same name for the
    path segment at the same position. *)
Definition partiallyMatches (pathA pathB : string) : bool :=
  let partsA := split slash pathA in
  let partsB := split slash pathB in
  let aIsLong := (List.length partsB <? List.length partsA)%nat in
  let long := if aIsLong then partsA else partsB in
  let short := if aIsLong then partsB else partsA in
  partialLoop short long.

(** [absolutePathCache.get(file)], computed and stored on a miss. *)
Definition cachedAbsolutePath (file : string) (cache : gmap string string)
  : string * gmap string string :=
  match cache !! file with
  | Some p => if JsString.truthy p then (p, cache)
              else (getAbsolutePath file, <[file := getAbsolutePath file]> cache)
  | None => (getAbsolutePath file, <[file := getAbsolutePath file]> cache)
  end.

Fixpoint occurrencesLoop (fileName currentAbsolutePath : string) (files : list string)
    (cache : gmap string string) (prev : list string)
  : list string * gmap string string :=
  match files with
  | [] => (prev, cache)
  | file :: rest =>
      if String.eqb file fileName then
        occurrencesLoop fileName currentAbsolutePath rest cache prev
      else
        let '(absolutePath, cache1) := cachedAbsolutePath file cache in
        if String.eqb absolutePath currentAbsolutePath then
          occurrencesLoop fileName currentAbsolutePath rest cache1 (prev ++ [file])
        else if partiallyMatches fileName file then
          occurrencesLoop fileName currentAbsolutePath rest cache1 (prev ++ [file])
        else occurrencesLoop fileName currentAbsolutePath rest cache1 prev
  end.

(** Counts how often a path occurs when all placeholders got
    resolved. *)
Definition pathOccurrences (fileName : string) (files : list string)
    (absolutePathCache : gmap string string)
  : list string * gmap string string :=
  let '(currentAbsolutePath, cache1) := cachedAbsolutePath fileName absolutePathCache in
  occurrencesLoop fileName currentAbsolutePath files cache1 [].

(** ** Route compiler *)

(** The variables the [map] callback of [createRouteFromPath] updates. *)
Record RouteScan := mkRouteScan {
  counter : nat;
  query : list string;
  isDynamicSeen : bool
}.

(** The alternation of a final, placeholder-free segment. *)
Definition lastSegmentPattern (segment : string) (featHandleMiss cleanUrls : bool) : string :=
  let p := parsePath segment in
  let fileName := name p in
  let ext := ext p in
  let isIndex := String.eqb fileName "index" in
  let prefix := if isIndex then "/" else "" in
  let names :=
    List.filter JsString.truthy
      [ if isIndex then prefix else fileName +:+ "/";
        prefix +:+ escapeName fileName;
        if featHandleMiss && cleanUrls then ""
        else prefix +:+ escapeName fileName +:+ escapeName ext ] in
  "(" +:+ join "|" names +:+ ")" +:+ (if isIndex then "?" else "").

(** One call of the callback of [parts.map]. *)
Definition srcPart (featHandleMiss cleanUrls : bool) (segment : string) (isLast : bool)
    (st : RouteScan) : string * RouteScan :=
  match getSegmentName segment with
  | Some name =>
      ("([^/]+)",
       mkRouteScan (S (counter st))
                   (query st ++ [name +:+ "=$" +:+ ofNat (counter st)])
                   true)
  | None =>
      if isLast then (lastSegmentPattern segment featHandleMiss cleanUrls, st)
      else (segment, st)
  end.

Fixpoint mapSegments (featHandleMiss cleanUrls : bool) (parts : list string)
    (st : RouteScan) : list string * RouteScan :=
  match parts with
  | [] => ([], st)
  | segment :: rest =>
      let '(p, st1) :=
        srcPart featHandleMiss cleanUrls segment
                (match rest with [] => true | _ => false end) st in
      let '(ps, st2) := mapSegments featHandleMiss cleanUrls rest st1 in
      (p :: ps, st2)
  end.

Definition sourceRoute (src dest : string) (check : option bool) : Route :=
  mkRoute (Some src) (Some dest) check None None None None.

Definition createRouteFromPath (filePath : string) (featHandleMiss cleanUrls : bool)
  : Route * bool :=
  let parts := split slash filePath in
  let '(srcParts, st) :=
    mapSegments featHandleMiss cleanUrls parts (mkRouteScan 1 [] false) in
  let p := parsePath filePath in
  let fileName := name p in
  let ext := ext p in
  let isIndex := String.eqb fileName "index" in
  let queryString :=
    (match query st with [] => "" | _ => "?" end) +:+ join "&" (query st) in
  let src :=
    if isIndex then
      "^/" +:+ join "/" (removelast srcParts) +:+ List.last srcParts "" +:+ "$"
    else "^/" +:+ join "/" srcParts +:+ "$" in
  let route :=
    if featHandleMiss then
      let extensionless :=
        if JsString.truthy ext
        then slice filePath 0 (- Z.of_nat (String.length ext))
        else filePath in
      sourceRoute src ("/" +:+ extensionless +:+ queryString) (Some true)
    else sourceRoute src ("/" +:+ filePath +:+ queryString) None in
  (route, isDynamicSeen st).

(** ** Route assembler *)

Definition configZero (c : option Config) : bool :=
  match c with
  | Some cfg => zeroConfig cfg
  | None => false
  end.

Fixpoint dedupe (seen : list string) (xs : list string) : list string :=
  match xs with
  | [] => []
  | x :: rest =>
      if existsb (String.eqb x) seen then dedupe seen rest
      else x :: dedupe (x :: seen) rest
  end.

(** The extensions of the zero-config API builders, as the [Set]
    iterates them: first occurrences, in order. *)
Definition detectApiExtensions (builders : list Builder) : list string :=
  dedupe []
    (List.filter JsString.truthy
       (map (fun b => extname (src b))
          (List.filter
             (fun b => configZero (config b)
                       && JsString.truthy (src b)
                       && startsWith (src b) "api/")
             builders))).

Definition detectApiDirectory (builders : list Builder) : option string :=
  let found :=
    existsb (fun b => configZero (config b) && startsWith (src b) "api/") builders in
  if found then Some "api" else None.

Definition useIs (b : Builder) (s : string) : bool :=
  match use b with
  | JsStr u => String.eqb u s
  | _ => false
  end.

Definition routeHandleMiss : Route :=
  mkRoute None None None None None None (Some "miss").

Definition routeRedirect (src location : string) : Route :=
  mkRoute (Some src) None None None (Some 308%Z) (Some [("Location", location)]) None.

Definition routeApi404 : Route :=
  mkRoute (Some "^/api(/.*)?$") None None None (Some 404%Z) None None.

Definition routeApi404Continue : Route :=
  mkRoute (Some "^/api(/.*)?$") None None (Some true) (Some 404%Z) None None.

Record RouteResult := mkRouteResult {
  rrDefaultRoutes : list Route;
  rrRedirectRoutes : list Route;
  rrRewriteRoutes : list Route
}.

Definition getRouteResult (apiRoutes dynamicRoutes : list Route) (outputDirectory : string)
    (apiBuilders : list Builder) (frontendBuilder : option Builder) (options : Options)
  : RouteResult :=
  let '(defaultRoutes1, redirectRoutes1, rewriteRoutes1) :=
    if (0 <? List.length apiRoutes)%nat then
      if featHandleMiss options then
        let extSet := detectApiExtensions apiBuilders in
        let '(d, r) :=
          if (0 <? List.length extSet)%nat then
            let exts := join "|" (map (fun ext => sliceFrom ext 1) extSet) in
            let extGroup := "(?:\.(?:" +:+ exts +:+ "))" in
            if cleanUrls options then
              ([],
               [ routeRedirect ("^/(api(?:.+)?)/index" +:+ extGroup +:+ "?/?$")
                   (if trailingSlash options then "/$1/" else "/$1");
                 routeRedirect ("^/api/(.+)" +:+ extGroup +:+ "/?$")
                   (if trailingSlash options then "/api/$1/" else "/api/$1") ])
            else
              ([ routeHandleMiss;
                 sourceRoute ("^/api/(.+)" +:+ extGroup +:+ "$") "/api/$1" (Some true) ],
               [])
          else ([], []) in
        (d, r, dynamicRoutes ++ [routeApi404Continue])
      else
        (apiRoutes ++ (if (0 <? List.length apiRoutes)%nat then [routeApi404] else []),
         [], [])
    else ([], [], []) in
  let defaultRoutes2 :=
    match frontendBuilder with
    | Some fb =>
        if JsString.truthy outputDirectory
           && negb (featHandleMiss options)
           && useIs fb "@now/static"
        then defaultRoutes1
               ++ [ sourceRoute "/(.*)" ("/" +:+ outputDirectory +:+ "/$1") None ]
        else defaultRoutes1
    | None => defaultRoutes1
    end in
  mkRouteResult defaultRoutes2 redirectRoutes1 rewriteRoutes1.

(** ** Ordering of the file list *)

Definition countSegments (prev : nat) (segment : string) : nat :=
  if nameTruthy (getSegmentName segment) then (prev + 1)%nat else 0%nat.

Definition sortFilesBySegmentCount (fileA fileB : string) : Z :=
  let lengthA := List.length (split slash fileA) in
  let lengthB := List.length (split slash fileB) in
  if (lengthB <? lengthA)%nat then (-1)%Z
  else if (lengthA <? lengthB)%nat then 1%Z
  else
    let segmentLengthA := fold_left countSegments (split slash fileA) 0%nat in
    let segmentLengthB := fold_left countSegments (split slash fileB) 0%nat in
    if (segmentLengthB <? segmentLengthA)%nat then 1%Z
    else if (segmentLengthA <? segmentLengthB)%nat then (-1)%Z
    else 0%Z.

(** ** The detector

    The functions of the runtime and of the libraries the detector
    calls are taken as given: [String.prototype.localeCompare],
    [minimatch], [semver.valid] (its result read as a boolean), and
    the conversions between strings and numbers. *)

Section Detector.

Variable localeCompare : string -> string -> Z.
Variable minimatch : string -> string -> bool.
Variable validSemver : string -> bool.
Variable StringToNumber : string -> JsNumber.
Variable NumberToString : JsNumber -> string.

(** We need to sort the file paths by alphabet to make sure the
    routes stay in the same order e.g. for deduping *)
Definition sortFiles (fileA fileB : string) : Z := localeCompare fileA fileB.

(** [`${v}`] *)
Fixpoint ToString (v : JsValue) : string :=
  match v with
  | JsUndefined => "undefined"
  | JsNull => "null"
  | JsBool true => "true"
  | JsBool false => "false"
  | JsNum n => NumberToString n
  | JsStr s => s
  | JsArray items =>
      join ","
        (map (fun e => match e with
                       | JsUndefined | JsNull => ""
                       | _ => ToString e
                       end) items)
  | JsObject _ => "[object Object]"
  end.

(** The number a value is read as by [<], [>] and [%]. *)
Definition ToNumber (v : JsValue) : JsNumber :=
  match v with
  | JsUndefined => NaN
  | JsNull => JsNum.ofZ 0
  | JsBool true => JsNum.ofZ 1
  | JsBool false => JsNum.ofZ 0
  | JsNum n => n
  | JsStr s => StringToNumber s
  | JsArray _ => StringToNumber (ToString v)
  | JsObject _ => NaN
  end.

(** *** Function matcher and validator *)

Definition optionFunctions (options : Options) : BuilderFunctions :=
  match functions options with
  | Some fs => fs
  | None => []
  end.

(** The checks of one entry of the function map, in source order. *)
Definition validateFunction (path : string) (func : JsValue) : option ErrorResponse :=
  if (256 <? String.length path)%nat then
    Some (mkError "invalid_function_glob"
            "Function globs must be less than 256 characters long.")
  else if negb (JsVal.truthy func) || negb (JsVal.typeofObject func) then
    Some (mkError "invalid_function" "Function must be an object.")
  else if (List.length (JsVal.keys func) =? 0)%nat then
    Some (mkError "invalid_function"
            "Function must contain at least one property.")
  else if negb (JsVal.isUndefined (JsVal.getProp func "maxDuration"))
          && (JsNum.lt (ToNumber (JsVal.getProp func "maxDuration")) (JsNum.ofZ 1)
              || JsNum.gt (ToNumber (JsVal.getProp func "maxDuration")) (JsNum.ofZ 900)
              || negb (JsVal.isInteger (JsVal.getProp func "maxDuration")))
  then
    Some (mkError "invalid_function_duration"
            "Functions must have a duration between 1 and 900.")
  else if negb (JsVal.isUndefined (JsVal.getProp func "memory"))
          && (JsNum.lt (ToNumber (JsVal.getProp func "memory")) (JsNum.ofZ 128)
              || JsNum.gt (ToNumber (JsVal.getProp func "memory")) (JsNum.ofZ 3008)
              || JsNum.strictNe
                   (JsNum.rem (ToNumber (JsVal.getProp func "memory")) 64)
                   (JsNum.ofZ 0))
  then
    Some (mkError "invalid_function_memory"
            "Functions must have a memory value between 128 and 3008 in steps of 64.")
  else if startsWith path "/" then
    Some (mkError "invalid_function_source"
            ("The function path " +:+ dquote +:+ path +:+ dquote
             +:+ " is invalid. The path must be relative to your project root and therefore cannot start with a slash."))
  else if negb (JsVal.isUndefined (JsVal.getProp func "runtime"))
          && (let tag :=
                List.last (split "@"%char (ToString (JsVal.getProp func "runtime"))) "" in
              negb (JsString.truthy tag) || negb (validSemver tag))
  then
    Some (mkError "invalid_function_runtime"
            "Function Runtimes must have a valid version, for example `now-php@1.0.0`.")
  else if negb (JsVal.isUndefined (JsVal.getProp func "includeFiles"))
          && negb (JsVal.typeofString (JsVal.getProp func "includeFiles"))
  then
    Some (mkError "invalid_function_property"
            "The property `includeFiles` must be a string.")
  else if negb (JsVal.isUndefined (JsVal.getProp func "excludeFiles"))
          && negb (JsVal.typeofString (JsVal.getProp func "excludeFiles"))
  then
    Some (mkError "invalid_function_property"
            "The property `excludeFiles` must be a string.")
  else None.

(** The loop over [Object.entries(functions)]. *)
Fixpoint validateEntries (entries : BuilderFunctions) : option ErrorResponse :=
  match entries with
  | [] => None
  | (path, func) :: rest =>
      match validateFunction path func with
      | Some e => Some e
      | None => validateEntries rest
      end
  end.

Definition validateFunctions (options : Options) : option ErrorResponse :=
  validateEntries (optionFunctions options).

(** The first key that equals the file name or matches it as a glob,
    with its entry. *)
Definition getFunction (fileName : string) (options : Options)
  : option (string * JsValue) :=
  let functions := optionFunctions options in
  match functions with
  | [] => None
  | _ =>
      match find (fun kv => String.eqb (fst kv) fileName || minimatch fileName (fst kv))
                 functions with
      | Some (key, func) => if JsString.truthy key then Some (key, func) else None
      | None => None
      end
  end.

Definition withTag (options : Options) : string :=
  match tag options with
  | Some t => if JsString.truthy t then "@" +:+ t else ""
  | None => ""
  end.

Definition zeroConfigOnly : Config :=
  mkConfig true None None None None None None None.

Definition getApiMatches (options : Options) : list Builder :=
  let config := Some zeroConfigOnly in
  [ mkBuilder (JsStr ("@now/node" +:+ withTag options)) "api/**/*.js" config;
    mkBuilder (JsStr ("@now/node" +:+ withTag options)) "api/**/*.ts" config;
    mkBuilder (JsStr ("@now/go" +:+ withTag options)) "api/**/!(*_test).go" config;
    mkBuilder (JsStr ("@now/python" +:+ withTag options)) "api/**/*.py" config;
    mkBuilder (JsStr ("@now/ruby" +:+ withTag options)) "api/**/*.rb" config ].

Definition truthyProp (func : JsValue) (key : string) : option JsValue :=
  if JsVal.truthy (JsVal.getProp func key) then Some (JsVal.getProp func key)
  else None.

Definition maybeGetApiBuilder (fileName : string) (apiMatches : list Builder)
    (options : Options) : option Builder :=
  if negb (startsWith fileName "api/") then None
  else if includes fileName "/." then None
  else if includes fileName "/_" then None
  else if includes fileName "/node_modules/" then None
  else if endsWith fileName ".d.ts" then None
  else
    let match_ :=
      find (fun b => String.eqb (src b) fileName || minimatch fileName (src b))
           apiMatches in
    let fn := getFunction fileName options in
    let funcRuntime :=
      match fn with
      | Some (_, func) =>
          if JsVal.truthy func then JsVal.getProp func "runtime" else func
      | None => JsNull
      end in
    let use :=
      if JsVal.truthy funcRuntime then funcRuntime
      else match match_ with
           | Some m => use m
           | None => JsUndefined
           end in
    if negb (JsVal.truthy use) then None
    else
      let config :=
        match fn with
        | Some (fnPattern, func) =>
            if JsVal.truthy func then
              mkConfig true (Some [(fnPattern, func)])
                       (truthyProp func "includeFiles")
                       (truthyProp func "excludeFiles")
                       None None None None
            else zeroConfigOnly
        | None => zeroConfigOnly
        end in
      Some (mkBuilder use fileName (Some config)).

Definition hasBuildScript (pkg : option PackageJson) : bool :=
  match pkg with
  | Some p =>
      match scripts p with
      | Some s => optTruthy (assoc "build" s)
      | None => false
      end
  | None => false
  end.

(** [deps['next']] of [{ ...pkg.dependencies, ...pkg.devDependencies }] *)
Definition dependsOnNext (p : PackageJson) : bool :=
  let inDev :=
    match devDependencies p with
    | Some d => assoc "next" d
    | None => None
    end in
  match inDev with
  | Some v => JsString.truthy v
  | None =>
      match dependencies p with
      | Some d => optTruthy (assoc "next" d)
      | None => false
      end
  end.

Definition settings (options : Options) : ProjectSettings :=
  match projectSettings options with
  | Some ps => ps
  | None => mkProjectSettings None None None None
  end.

Definition keepTruthy (o : option string) : option string :=
  if optTruthy o then o else None.

Definition entrypoints : list string :=
  [ "package.json"; "config.yaml"; "config.toml"; "config.json";
    "_config.yml"; "config.yml"; "config.rb" ].

Definition detectFrontBuilder (pkg : option PackageJson) (files : list string)
    (usedFunctions : gset string) (fallbackEntrypoint : option string)
    (options : Options) : Builder :=
  let ps := settings options in
  let framework1 := framework ps in
  let framework2 :=
    match pkg with
    | Some p => if dependsOnNext p then Some "nextjs" else framework1
    | None => framework1
    end in
  let unused :=
    map (fun kv => (fst kv, JsVal.spread (snd kv)))
        (List.filter (fun kv => negb (bool_decide (fst kv ∈ usedFunctions)))
                (optionFunctions options)) in
  let config :=
    mkConfig true
             (match unused with [] => None | _ => Some unused end)
             None None
             (keepTruthy framework1)
             (keepTruthy (devCommand ps))
             (keepTruthy (buildCommand ps))
             (keepTruthy (outputDirectory ps)) in
  if optStringEqb framework2 (Some "nextjs") then
    mkBuilder (JsStr ("@now/next" +:+ withTag options)) "package.json" (Some config)
  else
    let source :=
      match pkg with
      | Some _ => "package.json"
      | None =>
          match find (fun file => existsb (String.eqb file) entrypoints) files with
          | Some f => f
          | None => orElse fallbackEntrypoint "package.json"
          end
      end in
    mkBuilder (JsStr ("@now/static-build" +:+ withTag options))
              (if JsString.truthy source then source else "package.json")
              (Some config).

Definition getMissingBuildScriptError : ErrorResponse :=
  mkError "missing_build_script"
    ("Your `package.json` file is missing a `build` property inside the `scripts` property."
     +:+ String "010"%char
           "More details: https://vercel.com/docs/v2/platform/frequently-asked-questions#missing-build-script").

Definition useStartsWith (b : Builder) (p : string) : bool :=
  match use b with
  | JsStr u => startsWith u p
  | _ => false
  end.

Definition checkUnusedFunctions (frontendBuilder : option Builder)
    (usedFunctions : gset string) (options : Options) : option ErrorResponse :=
  let unusedFunctions :=
    List.filter (fun key => negb (bool_decide (key ∈ usedFunctions)))
           (map fst (optionFunctions options)) in
  match unusedFunctions with
  | [] => None
  | unusedFunction :: _ =>
      let isNext :=
        match frontendBuilder with
        | Some fb => useStartsWith fb "@now/next"
        | None => false
        end in
      if isNext then
        (* Next.js can use functions only for `src/pages` or `pages` *)
        match
          find (fun fnKey => negb (startsWith fnKey "pages/" || startsWith fnKey "src/pages"))
               unusedFunctions
        with
        | Some fnKey =>
            Some (mkError "unused_function"
                    ("The function for " +:+ fnKey +:+ " can't be handled by any builder"))
        | None => None
        end
      else
        Some (mkError "unused_function"
                ("The function for " +:+ unusedFunction
                 +:+ " can't be handled by any builder. "
                 +:+ "Make sure it is inside the api/ directory."))
  end.

(** *** Per-file API route *)

Definition getApiRoute (fileName : string) (sortedFiles : list string)
    (options : Options) (absolutePathCache : gmap string string)
  : (ErrorResponse + Route * bool) * gmap string string :=
  match getConflictingSegment fileName with
  | Some conflictingSegment =>
      (inl (mkError "conflicting_path_segment"
              ("The segment " +:+ dquote +:+ conflictingSegment +:+ dquote
               +:+ " occurs more than "
               +:+ "one time in your path " +:+ dquote +:+ fileName +:+ dquote
               +:+ ". Please make sure that "
               +:+ "every segment in a path is unique.")),
       absolutePathCache)
  | None =>
      let '(occurrences, cache1) :=
        pathOccurrences fileName sortedFiles absolutePathCache in
      if (0 <? List.length occurrences)%nat then
        let messagePaths :=
          concatArrayOfText (map (fun name => dquote +:+ name +:+ dquote) occurrences) in
        (inl (mkError "conflicting_file_path"
                ("Two or more files have conflicting paths or names. "
                 +:+ "Please make sure path segments and filenames, without their extension, are unique. "
                 +:+ "The path " +:+ dquote +:+ fileName +:+ dquote
                 +:+ " has conflicts with " +:+ messagePaths +:+ ".")),
         cache1)
      else
        (inr (createRouteFromPath fileName (featHandleMiss options) (cleanUrls options)),
         cache1)
  end.

(** *** Builder classifier *)

(** The variables of [detectBuilders] that the loop over the files
    updates. *)
Record LoopState := mkLoopState {
  apiBuilders : list Builder;
  usedFunctions : gset string;
  absolutePathCache : gmap string string;
  hasUsedOutputDirectory : bool;
  hasNoneApiFiles : bool;
  hasNextApiFiles : bool;
  fallbackEntrypoint : option string;
  apiRoutes : list Route;
  dynamicRoutes : list Route
}.

Definition loopInit : LoopState :=
  mkLoopState [] ∅ ∅ false false false None [] [].

Definition errorResult (errs : list ErrorResponse) (warnings : list ErrorResponse)
  : DetectResult :=
  mkDetectResult None (Some errs) warnings None None None.

(** [Object.keys(builder.config.functions || {})[0]], added when truthy. *)
Definition addToUsedFunctions (builder : Builder) (used : gset string) : gset string :=
  match config builder with
  | Some cfg =>
      match cfgFunctions cfg with
      | Some ((key, _) :: _) => if JsString.truthy key then {[ key ]} ∪ used else used
      | _ => used
      end
  | None => used
  end.

(** One iteration of [for (const fileName of sortedFiles)]; [inl] is
    the early return with a route error. *)
Definition classifyFile (apiMatches : list Builder) (apiSortedFiles : list string)
    (options : Options) (usedOutputDirectory : string) (fileName : string)
    (st : LoopState) : ErrorResponse + LoopState :=
  match maybeGetApiBuilder fileName apiMatches options with
  | Some apiBuilder =>
      let '(res, cache1) :=
        getApiRoute fileName apiSortedFiles options (absolutePathCache st) in
      match res with
      | inl routeError => inl routeError
      | inr (apiRoute, isDynamic) =>
          inr (mkLoopState
                 (apiBuilders st ++ [apiBuilder])
                 (addToUsedFunctions apiBuilder (usedFunctions st))
                 cache1
                 (hasUsedOutputDirectory st)
                 (hasNoneApiFiles st)
                 (hasNextApiFiles st)
                 (fallbackEntrypoint st)
                 (apiRoutes st ++ [apiRoute])
                 (if isDynamic then dynamicRoutes st ++ [apiRoute] else dynamicRoutes st))
      end
  | None =>
      let buildCommand := buildCommand (settings options) in
      inr (mkLoopState
             (apiBuilders st)
             (usedFunctions st)
             (absolutePathCache st)
             (if negb (hasUsedOutputDirectory st)
                 && startsWith fileName (usedOutputDirectory +:+ "/")
              then true else hasUsedOutputDirectory st)
             (if negb (hasNoneApiFiles st)
                 && negb (startsWith fileName "api/")
                 && negb (String.eqb fileName "package.json")
              then true else hasNoneApiFiles st)
             (if negb (hasNextApiFiles st)
                 && (startsWith fileName "pages/api" || startsWith fileName "src/pages/api")
              then true else hasNextApiFiles st)
             (if negb (optTruthy (fallbackEntrypoint st))
                 && optTruthy buildCommand
                 && negb (includes fileName "/")
                 && negb (String.eqb fileName "now.json")
                 && negb (String.eqb fileName "vercel.json")
              then Some fileName else fallbackEntrypoint st)
             (apiRoutes st)
             (dynamicRoutes st))
  end.

Fixpoint classifyFiles (apiMatches : list Builder) (apiSortedFiles : list string)
    (options : Options) (usedOutputDirectory : string) (sortedFiles : list string)
    (st : LoopState) : ErrorResponse + LoopState :=
  match sortedFiles with
  | [] => inr st
  | fileName :: rest =>
      match classifyFile apiMatches apiSortedFiles options usedOutputDirectory fileName st with
      | inl e => inl e
      | inr st1 =>
          classifyFiles apiMatches apiSortedFiles options usedOutputDirectory rest st1
      end
  end.

(** The array [files] after [files.sort(sortFiles)] and then
    [files.sort(sortFilesBySegmentCount)]: [sort] works in place and
    returns its receiver, so [sortedFiles], [apiSortedFiles] and
    [files] all name this one array when the loop starts. *)
Definition filesAfterSorts (files : list string) : list string :=
  let sortedFiles := sort sortFiles files in
  let apiSortedFiles := sort sortFilesBySegmentCount sortedFiles in
  apiSortedFiles.

Definition staticPublicBuilder (usedOutputDirectory : string) : Builder :=
  mkBuilder (JsStr "@now/static") (usedOutputDirectory +:+ "/**/*")
            (Some (mkConfig true None None None None None None (Some usedOutputDirectory))).

Definition staticRootBuilder : Builder :=
  mkBuilder (JsStr "@now/static") "!{api/**,package.json}" (Some zeroConfigOnly).

Definition conflictingFilesWarning : ErrorResponse :=
  mkError "conflicting_files"
    "It is not possible to use `api` and `pages/api` at the same time, please only use one option".

Definition isSome {A : Type} (o : option A) : bool :=
  match o with
  | Some _ => true
  | None => false
  end.

Definition nonEmpty {A : Type} (l : list A) : bool :=
  match l with
  | [] => false
  | _ => true
  end.

Definition detectBuilders (files : list string) (pkg : option PackageJson)
    (options : Options) : DetectResult :=
  let errors : list ErrorResponse := [] in
  let warnings : list ErrorResponse := [] in
  match validateFunctions options with
  | Some functionError => errorResult [functionError] warnings
  | None =>
      let apiMatches := getApiMatches options in
      let files := filesAfterSorts files in
      let sortedFiles := files in
      let apiSortedFiles := files in
      let ps := settings options in
      let buildCommand := buildCommand ps in
      let outputDirectory := outputDirectory ps in
      let framework := framework ps in
      (* If either is missing we'll make the frontend static *)
      let makeFrontendStatic :=
        optStringEqb buildCommand (Some "") || optStringEqb outputDirectory (Some "") in
      let usedOutputDirectory := orElse outputDirectory "public" in
      match classifyFiles apiMatches apiSortedFiles options usedOutputDirectory
                          sortedFiles loopInit with
      | inl routeError => errorResult [routeError] warnings
      | inr st =>
          let frontend : ErrorResponse + option Builder :=
            if negb makeFrontendStatic
               && (hasBuildScript pkg || optTruthy buildCommand || optTruthy framework)
            then
              inr (Some (detectFrontBuilder pkg files (usedFunctions st)
                           (fallbackEntrypoint st) options))
            else if isSome pkg
                    && negb makeFrontendStatic
                    && negb (nonEmpty (apiBuilders st))
                    && negb (ignoreBuildScript options)
            then inl getMissingBuildScriptError
            else if hasUsedOutputDirectory st
                    && negb (optStringEqb outputDirectory (Some ""))
            then inr (Some (staticPublicBuilder usedOutputDirectory))
            else if nonEmpty (apiBuilders st) && hasNoneApiFiles st
            then inr (Some staticRootBuilder)
            else inr None in
          match frontend with
          | inl missingBuildScript =>
              errorResult (errors ++ [missingBuildScript]) warnings
          | inr frontendBuilder =>
              match checkUnusedFunctions frontendBuilder (usedFunctions st) options with
              | Some unusedFunctionError => errorResult [unusedFunctionError] warnings
              | None =>
                  let builders1 :=
                    if nonEmpty (apiBuilders st) then apiBuilders st else [] in
                  let '(builders2, warnings2) :=
                    match frontendBuilder with
                    | Some fb =>
                        (builders1 ++ [fb],
                         if hasNextApiFiles st && nonEmpty (apiBuilders st)
                         then warnings ++ [conflictingFilesWarning]
                         else warnings)
                    | None => (builders1, warnings)
                    end in
                  let routesResult :=
                    getRouteResult (apiRoutes st) (dynamicRoutes st) usedOutputDirectory
                                   (apiBuilders st) frontendBuilder options in
                  mkDetectResult
                    (if nonEmpty builders2 then Some builders2 else None)
                    (if nonEmpty errors then Some errors else None)
                    warnings2
                    (Some (rrDefaultRoutes routesResult))
                    (Some (rrRedirectRoutes routesResult))
                    (Some (rrRewriteRoutes routesResult))
              end
          end
      end
  end.

End Detector.

(** ** Structure of a parsed path

    The result of [parsePath] described by the shape of the path: a
    last component [seg], what leads to it, and trailing separators. *)

Definition notChar (c : ascii) (a : ascii) : bool := negb (Ascii.eqb a c).
Definition isSlash (c : ascii) : bool := Ascii.eqb c slash.
Definition notSlash : ascii -> bool := notChar slash.

(** The split at the last dot: what precedes it, and the rest from
    the dot on. *)
Fixpoint lastDotSplit (s : string) : option (string * string) :=
  match s with
  | EmptyString => None
  | String c s' =>
      match lastDotSplit s' with
      | Some (b, e) => Some (String c b, e)
      | None => if Ascii.eqb c dot then Some (EmptyString, s) else None
      end
  end.

(** Name and extension of a component. A component directly under
    the root is scanned from position 1 while [startPart] stays 0, so
    the test for ".." does not recognise it there. *)
Definition splitExt (underRoot : bool) (seg : string) : string * string :=
  match lastDotSplit seg with
  | None => (seg, "")
  | Some (b, e) =>
      if String.eqb b "" then (seg, "")
      else if negb underRoot && String.eqb seg ".." then (seg, "")
      else (b, e)
  end.

Definition startsWithDot (s : string) : bool :=
  match s with
  | String c _ => Ascii.eqb c dot
  | EmptyString => false
  end.

(** Characters of a string. *)
Fixpoint allChars (p : ascii -> bool) (s : string) : bool :=
  match s with
  | EmptyString => true
  | String c s' => p c && allChars p s'
  end.

(** The scan of the whole of [a], down to [start]. *)
Definition scanBack (start : nat) (a : string) (st : ParseState) : ParseState :=
  parseLoop a start (String.length a - start) st.

(** The state after the characters of a component at offset [o]. *)
Fixpoint segState (o : nat) (seg : string) : ParseState :=
  match seg with
  | EmptyString => parseInit
  | String c seg' => markChar o c (segState (S o) seg')
  end.

(** The shapes of a path: empty, separators only, a single component,
    a component under the root, a component below a directory part;
    each with trailing separators. *)
Inductive PathShape (path : string) : Prop :=
| ShapeEmpty : path = "" -> PathShape path
| ShapeSlashes (trail : string) :
    path = "/" +:+ trail -> allChars isSlash trail = true -> PathShape path
| ShapeComponent (seg trail : string) :
    path = seg +:+ trail -> seg <> "" -> allChars notSlash seg = true ->
    allChars isSlash trail = true -> PathShape path
| ShapeUnderRoot (seg trail : string) :
    path = "/" +:+ seg +:+ trail -> seg <> "" -> allChars notSlash seg = true ->
    allChars isSlash trail = true -> PathShape path
| ShapeNested (lead seg trail : string) :
    path = lead +:+ "/" +:+ seg +:+ trail -> lead <> "" -> seg <> "" ->
    allChars notSlash seg = true -> allChars isSlash trail = true -> PathShape path.

(** ** Enumeration order of an object

    [Object.keys] and [Object.entries] list the own properties of an
    object with the keys that are array indices first, in ascending
    numeric order, and then the other keys in the order in which they
    were added. An object is given here by the list of its properties
    in the order in which they were added, every key once. *)

Definition digitValue (c : ascii) : option N :=
  let n := N_of_ascii c in
  if (48 <=? n)%N && (n <=? 57)%N then Some (n - 48)%N else None.

Fixpoint decimalValue (acc : N) (s : string) : option N :=
  match s with
  | EmptyString => Some acc
  | String c s' =>
      match digitValue c with
      | Some d => decimalValue (10 * acc + d)%N s'
      | None => None
      end
  end.

(** The index a key denotes: the key is the decimal numeral, without
    leading zero, of an integer below 2^32 - 1. *)
Definition arrayIndex (key : string) : option N :=
  match key with
  | EmptyString => None
  | String c rest =>
      if Ascii.eqb c "0" && negb (String.eqb rest "") then None
      else
        match decimalValue 0 key with
        | Some n => if (n <? 2 ^ 32 - 1)%N then Some n else None
        | None => None
        end
  end.

Section ObjectOrder.
Context {V : Type}.

Fixpoint insertIndex (n : N) (property : string * V)
    (l : list (N * (string * V))) : list (N * (string * V)) :=
  match l with
  | [] => [(n, property)]
  | (m, other) :: rest =>
      if (n <? m)%N then (n, property) :: l
      else (m, other) :: insertIndex n property rest
  end.

(** The properties whose key is an array index, by ascending index. *)
Fixpoint indexProperties (declared : list (string * V)) : list (N * (string * V)) :=
  match declared with
  | [] => []
  | property :: rest =>
      match arrayIndex (fst property) with
      | Some n => insertIndex n property (indexProperties rest)
      | None => indexProperties rest
      end
  end.

(** The other properties, in the order in which they were added. *)
Definition namedProperties (declared : list (string * V)) : list (string * V) :=
  List.filter (fun property => negb (isSome (arrayIndex (fst property)))) declared.

(** [Object.entries(o)] *)
Definition objectEntries (declared : list (string * V)) : list (string * V) :=
  map snd (indexProperties declared) ++ namedProperties declared.

(** [Object.keys(o)] *)
Definition objectKeys (declared : list (string * V)) : list string :=
  map fst (objectEntries declared).

End ObjectOrder.
(** ** The validator as the specification words it

    A second description of the validator, following the wording of
    the specification: a fixed list of named checks, applied in order
    to every entry of the function map in turn. It is compared with
    [validateFunctions] below. *)

Section ValidatorSpec.

Variable validSemver : string -> bool.
Variable StringToNumber : string -> JsNumber.
Variable NumberToString : JsNumber -> string.

(** The number is an integer within [lo, hi]. *)
Definition isIntegerIn (lo hi : Z) (n : JsNumber) : bool :=
  match n with
  | Finite q =>
      (Zpos (Qden (Qred q)) =? 1)%Z
      && (lo <=? Qnum (Qred q))%Z && (Qnum (Qred q) <=? hi)%Z
  | _ => false
  end.

(** The number is a multiple of [m] within [lo, hi]. *)
Definition isMultipleIn (m lo hi : Z) (n : JsNumber) : bool :=
  match n with
  | Finite q => isIntegerIn lo hi n && (Qnum (Qred q) mod m =? 0)%Z
  | _ => false
  end.

Definition present (func : JsValue) (key : string) : bool :=
  negb (JsVal.isUndefined (JsVal.getProp func key)).

(** a glob exceeds 256 characters *)
Definition globTooLong (path : string) (func : JsValue) : bool :=
  (256 <? String.length path)%nat.

(** the value is not a non-empty object *)
Definition notNonEmptyObject (path : string) (func : JsValue) : bool :=
  negb (match func with
        | JsObject _ | JsArray _ => nonEmpty (JsVal.keys func)
        | _ => false
        end).

(** maxDuration is present and not an integer in [1,900] *)
Definition badMaxDuration (path : string) (func : JsValue) : bool :=
  present func "maxDuration"
  && negb (match JsVal.getProp func "maxDuration" with
           | JsNum n => isIntegerIn 1 900 n
           | _ => false
           end).

(** memory is present and not a multiple of 64 in [128,3008]; the
    value is read as a number. *)
Definition badMemory (path : string) (func : JsValue) : bool :=
  present func "memory"
  && negb (isMultipleIn 64 128 3008
             (ToNumber StringToNumber NumberToString (JsVal.getProp func "memory"))).

(** the glob starts with a slash *)
Definition globFromRoot (path : string) (func : JsValue) : bool :=
  startsWith path "/".

(** The text after the last "@". *)
Definition versionSuffix (runtime : string) : string :=
  List.last (split "@"%char runtime) "".

(** runtime is present and its version suffix is not a valid semantic
    version (the empty text is none). *)
Definition badRuntime (path : string) (func : JsValue) : bool :=
  present func "runtime"
  && negb (let v := versionSuffix (ToString NumberToString (JsVal.getProp func "runtime")) in
           JsString.truthy v && validSemver v).

(** includeFiles / excludeFiles is present and not a string *)
Definition badFilesProperty (key : string) (path : string) (func : JsValue) : bool :=
  present func key && negb (JsVal.typeofString (JsVal.getProp func key)).

(** The checks in the order of the specification, with the code of
    the error each one reports. *)
Definition specChecks : list (string * (string -> JsValue -> bool)) :=
  [ ("invalid_function_glob", globTooLong);
    ("invalid_function", notNonEmptyObject);
    ("invalid_function_duration", badMaxDuration);
    ("invalid_function_memory", badMemory);
    ("invalid_function_source", globFromRoot);
    ("invalid_function_runtime", badRuntime);
    ("invalid_function_property", badFilesProperty "includeFiles");
    ("invalid_function_property", badFilesProperty "excludeFiles") ].

(** The code of the first check, in that order, that the entry fails. *)
Definition firstFailedCheck (path : string) (func : JsValue) : option string :=
  option_map fst (find (fun c => snd c path func) specChecks).

(** The first violation in the order of the entries. *)
Fixpoint specValidate (entries : BuilderFunctions) : option string :=
  match entries with
  | [] => None
  | (path, func) :: rest =>
      match firstFailedCheck path func with
      | Some c => Some c
      | None => specValidate rest
      end
  end.

End ValidatorSpec.

(** ** The route compiler as the specification words it *)

(** The names of the placeholder segments, in order of appearance. *)
Fixpoint placeholderNames (parts : list string) : list string :=
  match parts with
  | [] => []
  | segment :: rest =>
      match getSegmentName segment with
      | Some name => name :: placeholderNames rest
      | None => placeholderNames rest
      end
  end.

(** The destination query bindings [name=$N], numbered from [n]. *)
Fixpoint queryBindings (n : nat) (names : list string) : list string :=
  match names with
  | [] => []
  | name :: rest => (name +:+ "=$" +:+ ofNat n) :: queryBindings (S n) rest
  end.

(** The captured query string. *)
Definition captureQuery (names : list string) : string :=
  match names with
  | [] => ""
  | _ => "?" +:+ join "&" (queryBindings 1 names)
  end.

(** The pattern of every segment: a capturing group for a
    placeholder, the alternation for a final segment, the segment
    itself otherwise. *)
Fixpoint segmentPatterns (featHandleMiss cleanUrls : bool) (parts : list string)
  : list string :=
  match parts with
  | [] => []
  | segment :: rest =>
      (match getSegmentName segment with
       | Some _ => "([^/]+)"
       | None =>
           match rest with
           | [] => lastSegmentPattern segment featHandleMiss cleanUrls
           | _ => segment
           end
       end) :: segmentPatterns featHandleMiss cleanUrls rest
  end.

(** The anchored pattern: for an index file the last fragment
    follows the others without a separator. *)
Definition anchored (isIndex : bool) (patterns : list string) : string :=
  if isIndex then
    "^/" +:+ join "/" (removelast patterns) +:+ List.last patterns "" +:+ "$"
  else "^/" +:+ join "/" patterns +:+ "$".

Definition isIndexPath (filePath : string) : bool :=
  String.eqb (name (parsePath filePath)) "index".

(** The alternation of a final segment under clean URLs: the stem with
    a trailing slash and the bare stem, or the bare directory for an
    index file. It is a function of the stem alone. *)
Definition cleanAlternation (stem : string) : string :=
  if String.eqb stem "index" then "(/|/index)?"
  else "(" +:+ join "|" (List.filter JsString.truthy [stem +:+ "/"; escapeName stem]) +:+ ")".

Fixpoint cleanPatterns (parts : list string) : list string :=
  match parts with
  | [] => []
  | segment :: rest =>
      (match getSegmentName segment with
       | Some _ => "([^/]+)"
       | None =>
           match rest with
           | [] => cleanAlternation (name (parsePath segment))
           | _ => segment
           end
       end) :: cleanPatterns rest
  end.

(** ** Escaping, character by character *)

Definition isSpecial (c : ascii) : bool := existsb (Ascii.eqb c) special.

Definition escapeChar (c : ascii) : string :=
  if isSpecial c then String "\"%char (String c "") else String c "".

(** The inverse of escaping: a backslash before a special character
    is dropped. *)
Fixpoint unescapeName (s : string) : string :=
  match s with
  | EmptyString => EmptyString
  | String a s' =>
      match s' with
      | String b s'' =>
          if Ascii.eqb a "\"%char && isSpecial b then String b (unescapeName s'')
          else String a (unescapeName s')
      | EmptyString => String a EmptyString
      end
  end.

(** A path without placeholder segments. *)
Definition isStaticPath (filePath : string) : bool :=
  forallb (fun segment => negb (isSome (getSegmentName segment))) (split slash filePath).

(** The patterns of the static relative paths when the extension is
    kept: of a file below the directory part [P], of an index file
    below [a], and of a path [p] that ends with a separator. *)
Definition filePattern (P stem e : string) : string :=
  "^/" +:+ P +:+ "(" +:+ stem +:+ "/|" +:+ escapeName stem +:+ "|"
       +:+ escapeName stem +:+ escapeName e +:+ ")$".

Definition indexPattern (a e : string) : string :=
  "^/" +:+ a +:+ "(/|/index|/index" +:+ escapeName e +:+ ")?$".

Definition dirPattern (p : string) : string :=
  "^/" +:+ p +:+ "(/)$".

Inductive RouteForm : string -> string -> Prop :=
| FormFile (P stem e : string) :
    P = "" \/ (exists a, P = a +:+ "/") ->
    stem <> "" ->
    allChars notSlash stem = true -> allChars notSlash e = true ->
    RouteForm (P +:+ stem +:+ e) (filePattern P stem e)
| FormIndex (a e : string) :
    allChars notSlash e = true ->
    RouteForm ((if String.eqb a "" then "" else a +:+ "/") +:+ "index" +:+ e)
              (indexPattern a e)
| FormDir (p : string) :
    isIndexPath p = false ->
    RouteForm p (dirPattern p)
| FormIndexDir (a : string) :
    isIndexPath (a +:+ "/") = true ->
    RouteForm (a +:+ "/") (dirPattern a).

(** What follows the last separator of a file pattern. *)
Definition fileTail (stem e : string) : string :=
  "|" +:+ escapeName stem +:+ "|" +:+ escapeName stem +:+ escapeName e +:+ ")$".

(** ** Static paths under clean URLs *)

(** The local [extensionless] of [createRouteFromPath]: the path
    without the last [ext.length] characters. *)
Definition extensionless (filePath : string) : string :=
  if JsString.truthy (ext (parsePath filePath))
  then slice filePath 0 (- Z.of_nat (String.length (ext (parsePath filePath))))
  else filePath.

(** The patterns of the static relative paths when both flags are
    set: of a file with the stem [stem] below the directory part [P],
    and of an index file below [a]. *)
Definition cleanFilePattern (P stem : string) : string :=
  "^/" +:+ P +:+ "(" +:+ stem +:+ "/|" +:+ escapeName stem +:+ ")$".

Definition cleanIndexPattern (a : string) : string :=
  "^/" +:+ a +:+ "(/|/index)?$".

Inductive CleanForm : string -> string -> Prop :=
| CleanFile (P stem e : string) :
    P = "" \/ (exists a, P = a +:+ "/") ->
    stem <> "" -> stem <> "index" ->
    allChars notSlash stem = true -> allChars notSlash e = true ->
    extensionless (P +:+ stem +:+ e) = P +:+ stem ->
    CleanForm (P +:+ stem +:+ e) (cleanFilePattern P stem)
| CleanIndex (a e : string) :
    allChars notSlash e = true ->
    extensionless ((if String.eqb a "" then "" else a +:+ "/") +:+ "index" +:+ e)
    = (if String.eqb a "" then "" else a +:+ "/") +:+ "index" ->
    CleanForm ((if String.eqb a "" then "" else a +:+ "/") +:+ "index" +:+ e)
              (cleanIndexPattern a)
| CleanDir (p : string) :
    p = "" \/ (exists a, p = a +:+ "/") ->
    isIndexPath p = false ->
    CleanForm p (dirPattern p)
| CleanIndexDir (a : string) :
    isIndexPath (a +:+ "/") = true ->
    CleanForm (a +:+ "/") (dirPattern a).

(** What of a static path its pattern keeps: the whole path, or, when
    both flags are set and the path does not end with a separator, the
    path without its extension. *)
Definition routeKey (featHandleMiss cleanUrls : bool) (filePath : string) : string :=
  if featHandleMiss && cleanUrls && negb (endsWith filePath "/")
  then extensionless filePath
  else filePath.
(** ** Normalized paths *)

Definition notTerminator (c : ascii) : bool := negb (lineTerminator c).

(** No two adjacent separators. *)
Fixpoint noDoubleSlash (s : string) : bool :=
  match s with
  | EmptyString => true
  | String a s' =>
      negb (Ascii.eqb a slash && startsWith s' "/") && noDoubleSlash s'
  end.

Definition nonEmptyString (s : string) : bool := negb (String.eqb s "").


(** ** Output directory of a list of builders *)

(** [/^.*\/\*\*\/\*$/.test(s)]: characters other than line
    terminators, then the five characters of the glob up to the end. *)
Fixpoint publicGlobTest (s : string) : bool :=
  String.eqb s "/**/*"
  || match s with
     | EmptyString => false
     | String a s' => negb (lineTerminator a) && publicGlobTest s'
     end.

(** [s.replace(pattern, replacement)] for a string pattern and a
    replacement free of substitution patterns: the first occurrence
    is replaced. *)
Fixpoint replaceFirst (pattern replacement s : string) : string :=
  if startsWith s pattern then
    replacement +:+ sliceFrom s (Z.of_nat (String.length pattern))
  else
    match s with
    | EmptyString => EmptyString
    | String a s' => String a (replaceFirst pattern replacement s')
    end.

Definition getPublicBuilder (builders : list Builder) : option Builder :=
  find (fun builder =>
          useIs builder "@now/static"
          && publicGlobTest (src builder)
          && configZero (config builder))
       builders.

Definition detectOutputDirectory (builders : list Builder) : option string :=
  match getPublicBuilder builders with
  | Some publicBuilder => Some (replaceFirst "/**/*" "" (src publicBuilder))
  | None => None
  end.

(** ** Notions used to state further properties *)

(** Two segments at the same position that do not end a partial
    match: equal, or placeholders with the same non-empty name. *)
Definition sameSegment (segmentA segmentB : string) : Prop :=
  segmentA = segmentB
  \/ exists n, n <> "" /\ getSegmentName segmentA = Some n
               /\ getSegmentName segmentB = Some n.

(** A cache of normalized paths that holds only what
    [getAbsolutePath] returns. *)
Definition coherentCache (cache : gmap string string) : Prop :=
  forall file p, cache !! file = Some p -> p = getAbsolutePath file.

(** The files that conflict with [fileName]: another file with the
    same normalized path, or one that partially matches. *)
Definition conflictsWith (fileName file : string) : bool :=
  negb (String.eqb file fileName)
  && (String.eqb (getAbsolutePath file) (getAbsolutePath fileName)
      || partiallyMatches fileName file).

(** The length of the longest prefix of [l] whose elements satisfy [p]. *)
Fixpoint leadingRun {A : Type} (p : A -> bool) (l : list A) : nat :=
  match l with
  | [] => 0
  | x :: rest => if p x then S (leadingRun p rest) else 0
  end.

(** The number of placeholder segments that end a path: the run of
    segments with a non-empty placeholder name at its end. *)
Definition trailingPlaceholders (segments : list string) : nat :=
  leadingRun (fun segment => nameTruthy (getSegmentName segment)) (rev segments).

Definition segmentCount (file : string) : nat := List.length (split slash file).

(** The order [sortFilesBySegmentCount] sorts by: more segments
    first, then fewer placeholder segments at the end. *)
Definition segmentOrder (fileA fileB : string) : Prop :=
  (segmentCount fileB < segmentCount fileA)%nat
  \/ (segmentCount fileA = segmentCount fileB
      /\ (trailingPlaceholders (split slash fileA)
          <= trailingPlaceholders (split slash fileB))%nat).

(** ** Function keys and the Next.js builder *)

(** A function key that Next.js can use. *)
Definition pagesKey (fnKey : string) : bool :=
  startsWith fnKey "pages/" || startsWith fnKey "src/pages".

Definition isNextBuilder (frontendBuilder : option Builder) : bool :=
  match frontendBuilder with
  | Some fb => useStartsWith fb "@now/next"
  | None => false
  end.

(** The function entries of a builder's configuration. *)
Definition builderFunctions (b : Builder) : list (string * JsValue) :=
  match config b with
  | Some cfg =>
      match cfgFunctions cfg with
      | Some fs => fs
      | None => []
      end
  | None => []
  end.

(** The project asks for Next.js: by a dependency of the package or
    by the framework setting. *)
Definition wantsNext (pkg : option PackageJson) (options : Options) : bool :=
  match pkg with
  | Some p =>
      dependsOnNext p || optStringEqb (framework (settings options)) (Some "nextjs")
  | None => optStringEqb (framework (settings options)) (Some "nextjs")
  end.

(** ** Accepted function entries *)

Section AcceptedFunctions.

Variable validSemver : string -> bool.
Variable StringToNumber : string -> JsNumber.
Variable NumberToString : JsNumber -> string.

(** What an entry of the function map must satisfy, in plain terms. *)
Definition acceptedFunction (path : string) (func : JsValue) : Prop :=
  (String.length path <= 256)%nat
  /\ startsWith path "/" = false
  /\ ((exists props, func = JsObject props /\ props <> [])
      \/ (exists items, func = JsArray items /\ items <> []))
  /\ (JsVal.getProp func "maxDuration" = JsUndefined
      \/ exists q z, JsVal.getProp func "maxDuration" = JsNum (Finite q)
                     /\ Qeq q (inject_Z z) /\ (1 <= z <= 900)%Z)
  /\ (JsVal.getProp func "memory" = JsUndefined
      \/ exists q k, ToNumber StringToNumber NumberToString (JsVal.getProp func "memory")
                     = Finite q
                     /\ Qeq q (inject_Z (64 * k)) /\ (2 <= k <= 47)%Z)
  /\ (JsVal.getProp func "runtime" = JsUndefined
      \/ (versionSuffix (ToString NumberToString (JsVal.getProp func "runtime")) <> ""
          /\ validSemver
               (versionSuffix (ToString NumberToString (JsVal.getProp func "runtime")))
             = true))
  /\ (JsVal.getProp func "includeFiles" = JsUndefined
      \/ exists s, JsVal.getProp func "includeFiles" = JsStr s)
  /\ (JsVal.getProp func "excludeFiles" = JsUndefined
      \/ exists s, JsVal.getProp func "excludeFiles" = JsStr s).

End AcceptedFunctions.

(** ** The API builders and routes of a file list *)

Section ApiFiles.

Variable minimatch : string -> string -> bool.

(** The API builder of a file under the default matches. *)
Definition apiBuilderOf (options : Options) (fileName : string) : option Builder :=
  maybeGetApiBuilder minimatch fileName (getApiMatches options) options.

(** A file that gets no API builder. *)
Definition otherFile (options : Options) (fileName : string) : bool :=
  negb (isSome (apiBuilderOf options fileName)).

End ApiFiles.

(** The route of an API builder: the route of its source file. *)
Definition routeOf (options : Options) (b : Builder) : Route :=
  fst (createRouteFromPath (src b) (featHandleMiss options) (cleanUrls options)).

Definition isDynamicBuilder (options : Options) (b : Builder) : bool :=
  snd (createRouteFromPath (src b) (featHandleMiss options) (cleanUrls options)).

Definition usedOutputDirectoryOf (options : Options) : string :=
  orElse (outputDirectory (settings options)) "public".

Definition isNextApiFile (fileName : string) : bool :=
  startsWith fileName "pages/api" || startsWith fileName "src/pages/api".

(** ** The choice of the frontend builder

    The branches of [detectBuilders] after the loop, by name: the
    frontend builder, if any, or the error of the missing build
    script. *)
Definition frontendChoice (pkg : option PackageJson) (files : list string)
    (options : Options) (st : LoopState) : ErrorResponse + option Builder :=
  let ps := settings options in
  let makeFrontendStatic :=
    optStringEqb (buildCommand ps) (Some "") || optStringEqb (outputDirectory ps) (Some "") in
  if negb makeFrontendStatic
     && (hasBuildScript pkg || optTruthy (buildCommand ps) || optTruthy (framework ps))
  then
    inr (Some (detectFrontBuilder pkg files (usedFunctions st)
                 (fallbackEntrypoint st) options))
  else if isSome pkg
          && negb makeFrontendStatic
          && negb (nonEmpty (apiBuilders st))
          && negb (ignoreBuildScript options)
  then inl getMissingBuildScriptError
  else if hasUsedOutputDirectory st
          && negb (optStringEqb (outputDirectory ps) (Some ""))
  then inr (Some (staticPublicBuilder (usedOutputDirectoryOf options)))
  else if nonEmpty (apiBuilders st) && hasNoneApiFiles st
  then inr (Some staticRootBuilder)
  else inr None.

(** The result of a run that meets no error. *)
Definition successResult (options : Options) (st : LoopState)
    (frontendBuilder : option Builder) : DetectResult :=
  let routesResult :=
    getRouteResult (apiRoutes st) (dynamicRoutes st) (usedOutputDirectoryOf options)
                   (apiBuilders st) frontendBuilder options in
  mkDetectResult
    (match apiBuilders st ++ match frontendBuilder with Some fb => [fb] | None => [] end with
     | [] => None
     | bs => Some bs
     end)
    None
    (match frontendBuilder with
     | Some _ =>
         if hasNextApiFiles st && nonEmpty (apiBuilders st)
         then [conflictingFilesWarning] else []
     | None => []
     end)
    (Some (rrDefaultRoutes routesResult))
    (Some (rrRedirectRoutes routesResult))
    (Some (rrRewriteRoutes routesResult)).

(** The codes of the errors of the detector. *)
Definition errorCodes : list string :=
  [ "invalid_function_glob"; "invalid_function"; "invalid_function_duration";
    "invalid_function_memory"; "invalid_function_source"; "invalid_function_runtime";
    "invalid_function_property"; "conflicting_path_segment"; "conflicting_file_path";
    "missing_build_script"; "unused_function" ].

(** ** Routes in handle-miss mode *)

(** The group [extGroup] of [getRouteResult]: a dot followed by one of
    the extensions, each taken without its first character. *)
Definition extensionGroup (extensions : list string) : string :=
  "(?:\.(?:" +:+ join "|" (map (fun ext => sliceFrom ext 1) extensions) +:+ "))".
(** ** Sample runtime functions

    Concrete stand-ins for the functions the detector takes as given,
    used to run the detector on examples. *)

Module Sample.

(** Comparison by code units. *)
Definition localeCompare (a b : string) : Z :=
  match String.compare a b with
  | Lt => (-1)%Z
  | Eq => 0%Z
  | Gt => 1%Z
  end.

(** The default API globs read as "under api/, with this extension";
    any other pattern matches nothing. *)
Definition minimatch (fileName pattern : string) : bool :=
  if String.eqb pattern "api/**/*.js" then
    startsWith fileName "api/" && endsWith fileName ".js"
  else if String.eqb pattern "api/**/*.ts" then
    startsWith fileName "api/" && endsWith fileName ".ts"
  else false.

Definition isDigit (c : ascii) : bool :=
  (48 <=? nat_of_ascii c)%nat && (nat_of_ascii c <=? 57)%nat.

Fixpoint allDigits (s : string) : bool :=
  match s with
  | EmptyString => true
  | String c s' => isDigit c && allDigits s'
  end.

(** Three non-empty runs of digits separated by dots. *)
Definition validSemver (v : string) : bool :=
  match split dot v with
  | [a; b; c] =>
      JsString.truthy a && JsString.truthy b && JsString.truthy c
      && allDigits a && allDigits b && allDigits c
  | _ => false
  end.

Definition StringToNumber (s : string) : JsNumber := NaN.

Definition NumberToString (n : JsNumber) : string := "NaN".

Definition detect : list string -> option PackageJson -> Options -> DetectResult :=
  detectBuilders localeCompare minimatch validSemver StringToNumber NumberToString.

Definition defaultOptions : Options :=
  mkOptions None None false None false false false.

End Sample.

(** * Properties *)

(** ** Strings *)

#[local] Arguments String.append !s1 s2 / : simpl nomatch.


Lemma append_nil_r (s : string) : s +:+ "" = s.
Proof. induction s; cbn; congruence. Qed.

Lemma append_assoc (a b c : string) : (a +:+ b) +:+ c = a +:+ (b +:+ c).
Proof. induction a; cbn; congruence. Qed.

Lemma append_cons (c : ascii) (a b : string) : String c a +:+ b = String c (a +:+ b).
Proof. reflexivity. Qed.

Lemma append_snoc (a : string) (c : ascii) (b : string) :
  (a +:+ String c "") +:+ b = a +:+ String c b.
Proof. now rewrite append_assoc. Qed.

Lemma length_append (a b : string) :
  String.length (a +:+ b) = (String.length a + String.length b)%nat.
Proof. induction a; cbn; congruence. Qed.

Lemma append_inv_head (a b c : string) : a +:+ b = a +:+ c -> b = c.
Proof. induction a; cbn; intros H; [exact H | injection H; auto]. Qed.

Lemma append_eq_nil (a b : string) : a +:+ b = "" -> a = "" /\ b = "".
Proof. destruct a; cbn; [auto | discriminate]. Qed.

Lemma get_append_l (a b : string) (i : nat) :
  (i < String.length a)%nat -> String.get i (a +:+ b) = String.get i a.
Proof.
  revert i. induction a as [|c a IH]; cbn; intros i H; [lia|].
  destruct i; [reflexivity | apply IH; lia].
Qed.

Lemma get_append_at (a : string) (c : ascii) (b : string) :
  String.get (String.length a) (a +:+ String c b) = Some c.
Proof. induction a; cbn; auto. Qed.

Lemma substring_all (s : string) : String.substring 0 (String.length s) s = s.
Proof. induction s; cbn; congruence. Qed.

Lemma substring_zero (s : string) (n : nat) : String.substring n 0 s = "".
Proof. revert n. induction s; intros [|n]; cbn; auto. Qed.

Lemma substring_prefix (a b : string) :
  String.substring 0 (String.length a) (a +:+ b) = a.
Proof.
  induction a; cbn; [|congruence]. destruct b; reflexivity.
Qed.

Lemma substring_skip (a b : string) (n : nat) :
  String.substring (String.length a) n (a +:+ b) = String.substring 0 n b.
Proof. induction a; cbn; auto. Qed.

Lemma substring_middle (a b c : string) :
  String.substring (String.length a) (String.length b) (a +:+ b +:+ c) = b.
Proof. rewrite substring_skip. apply substring_prefix. Qed.

(** [slice] between two positions in range is the substring. *)
Lemma slice_range (s : string) (a b : nat) :
  (a <= b <= String.length s)%nat ->
  slice s (Z.of_nat a) (Z.of_nat b) = String.substring a (b - a) s.
Proof.
  intros H. unfold slice.
  destruct (Z.ltb_spec (Z.of_nat a) 0); [lia|].
  destruct (Z.ltb_spec (Z.of_nat b) 0); [lia|].
  rewrite !Z.min_l by lia. f_equal; lia.
Qed.

Lemma slice_middle (a b c : string) :
  slice (a +:+ b +:+ c) (Z.of_nat (String.length a))
        (Z.of_nat (String.length a + String.length b)) = b.
Proof.
  rewrite slice_range by (rewrite !length_append; lia).
  replace (String.length a + String.length b - String.length a)%nat
    with (String.length b) by lia.
  apply substring_middle.
Qed.

(** Appends associated to the right, constructors pushed outside. *)
Ltac string_assoc :=
  repeat first [rewrite !append_assoc | progress cbn [String.append]];
  try reflexivity.

(** ** [split] and [join] *)

Lemma split_nonempty (c : ascii) (s : string) : split c s <> [].
Proof.
  induction s as [|a s IH]; cbn; [discriminate|].
  destruct (Ascii.eqb a c); [discriminate|].
  destruct (split c s); [congruence | discriminate].
Qed.

Lemma split_free (c : ascii) (s : string) :
  allChars (notChar c) s = true -> split c s = [s].
Proof.
  induction s as [|a s IH]; [reflexivity|]. cbn. unfold notChar at 1.
  intros H. apply andb_true_iff in H as [Ha Hs]. apply negb_true_iff in Ha.
  now rewrite Ha, IH.
Qed.

Lemma split_append (c : ascii) (a b : string) :
  split c (a +:+ String c b) = split c a ++ split c b.
Proof.
  induction a as [|x a IH]; cbn.
  - now rewrite Ascii.eqb_refl.
  - destruct (Ascii.eqb x c); [now rewrite IH|].
    rewrite IH. pose proof (split_nonempty c a).
    destruct (split c a); [congruence | reflexivity].
Qed.

Lemma split_parts_free (c : ascii) (s : string) :
  Forall (fun part => allChars (notChar c) part = true) (split c s).
Proof.
  induction s as [|a s IH]; cbn; [repeat constructor|].
  destruct (Ascii.eqb a c) eqn:E; [constructor; [reflexivity | exact IH]|].
  pose proof (split_nonempty c s).
  destruct (split c s) as [|x xs]; [congruence|].
  inversion IH; subst. constructor; [|assumption].
  cbn. unfold notChar at 1. now rewrite E.
Qed.

Lemma join_cons (sep x : string) (xs : list string) :
  xs <> [] -> join sep (x :: xs) = x +:+ sep +:+ join sep xs.
Proof. destruct xs; [congruence | reflexivity]. Qed.

Lemma join_split (c : ascii) (s : string) :
  join (String c "") (split c s) = s.
Proof.
  induction s as [|a s IH]; [reflexivity|]. cbn [split].
  destruct (Ascii.eqb_spec a c) as [->|Hac].
  - rewrite join_cons by apply split_nonempty. now rewrite IH.
  - pose proof (split_nonempty c s).
    destruct (split c s) as [|x [|y ys]]; [congruence| |].
    + cbn [join] in *. now rewrite IH.
    + rewrite <- IH, !join_cons by discriminate. reflexivity.
Qed.

Lemma join_snoc (sep : string) (xs : list string) (x : string) :
  xs <> [] -> join sep (xs ++ [x]) = join sep xs +:+ sep +:+ x.
Proof.
  induction xs as [|y ys IH]; [congruence|]. intros _.
  destruct ys as [|z zs]; [reflexivity|].
  change ((y :: z :: zs) ++ [x]) with (y :: ((z :: zs) ++ [x])).
  rewrite join_cons by (cbn; discriminate).
  rewrite IH by discriminate. rewrite (join_cons sep y (z :: zs)) by discriminate.
  now rewrite !append_assoc.
Qed.

(** Every string is free of the separator, or splits at its last
    occurrence. *)
Lemma last_separator (c : ascii) (s : string) :
  allChars (notChar c) s = true
  \/ exists a b, s = a +:+ String c b /\ allChars (notChar c) b = true.
Proof.
  induction s as [|x s IH]; [now left|].
  destruct IH as [Hfree | (a & b & -> & Hb)].
  - destruct (Ascii.eqb_spec x c) as [->|Hx].
    + right. exists "", s. auto.
    + left. cbn. unfold notChar at 1.
      apply Ascii.eqb_neq in Hx. now rewrite Hx.
  - right. exists (String x a), b. auto.
Qed.

Lemma split_last_part (c : ascii) (a b : string) :
  allChars (notChar c) b = true ->
  split c (a +:+ String c b) = split c a ++ [b].
Proof. intros H. now rewrite split_append, (split_free c b H). Qed.

(** The two sides of the last separator are determined by the whole. *)
Lemma last_separator_unique (c : ascii) (a b a' b' : string) :
  allChars (notChar c) b = true -> allChars (notChar c) b' = true ->
  a +:+ String c b = a' +:+ String c b' -> a = a' /\ b = b'.
Proof.
  intros Hb Hb' H.
  assert (Hs : split c a ++ [b] = split c a' ++ [b']).
  { rewrite <- !split_last_part by assumption. now rewrite H. }
  apply app_inj_tail in Hs as [Ha ->]. split; [|reflexivity].
  rewrite <- (join_split c a), <- (join_split c a'). now rewrite Ha.
Qed.

(** ** The scan of [parsePath] *)

Lemma parseLoop_append (a b : string) (start k : nat) (st : ParseState) :
  (start + k <= String.length a)%nat ->
  parseLoop (a +:+ b) start k st = parseLoop a start k st.
Proof.
  revert st. induction k as [|k IH]; intros st H; [reflexivity|].
  cbn [parseLoop]. unfold charCodeAt.
  rewrite get_append_l by lia.
  destruct (String.get (start + k) a) as [code|]; [|reflexivity].
  destruct (Ascii.eqb code slash).
  - destruct (negb (matchedSlash st)); [reflexivity | apply IH; lia].
  - apply IH; lia.
Qed.


Lemma scanBack_snoc (start : nat) (a : string) (c : ascii) (st : ParseState) :
  (start <= String.length a)%nat ->
  scanBack start (a +:+ String c "") st =
  if Ascii.eqb c slash then
    if negb (matchedSlash st) then
      mkParseState (startDot st) (Z.of_nat (String.length a) + 1) (endPos st)
                   (matchedSlash st) (preDotState st)
    else scanBack start a st
  else scanBack start a (markChar (String.length a) c st).
Proof.
  intros H. unfold scanBack. rewrite length_append. cbn [String.length].
  replace (String.length a + 1 - start)%nat with (S (String.length a - start)) by lia.
  cbn [parseLoop]. unfold charCodeAt.
  replace (start + (String.length a - start))%nat with (String.length a) by lia.
  rewrite get_append_at.
  destruct (Ascii.eqb c slash).
  - destruct (negb (matchedSlash st)); [reflexivity|].
    apply parseLoop_append. lia.
  - apply parseLoop_append. lia.
Qed.

Lemma scanBack_done (a : string) (st : ParseState) :
  scanBack (String.length a) a st = st.
Proof. unfold scanBack. now rewrite Nat.sub_diag. Qed.

(** Trailing separators are skipped. *)
Lemma scanBack_trailing (start : nat) (a trail : string) :
  (start <= String.length a)%nat ->
  allChars isSlash trail = true ->
  scanBack start (a +:+ trail) parseInit = scanBack start a parseInit.
Proof.
  revert a. induction trail as [|c trail IH]; intros a Hs Ht.
  - now rewrite append_nil_r.
  - cbn in Ht. apply andb_true_iff in Ht as [Hc Ht].
    rewrite <- append_snoc, IH; [|rewrite length_append; cbn; lia | exact Ht].
    rewrite scanBack_snoc by exact Hs. unfold isSlash in Hc. now rewrite Hc.
Qed.


Lemma scanBack_segment (start : nat) (lead seg : string) :
  (start <= String.length lead)%nat ->
  allChars notSlash seg = true ->
  scanBack start (lead +:+ seg) parseInit
  = scanBack start lead (segState (String.length lead) seg).
Proof.
  revert lead. induction seg as [|c seg IH]; intros lead Hs Hn.
  - now rewrite append_nil_r.
  - cbn in Hn. apply andb_true_iff in Hn as [Hc Hn].
    rewrite <- append_snoc, IH; [|rewrite length_append; cbn; lia | exact Hn].
    rewrite scanBack_snoc by exact Hs.
    unfold notSlash, notChar in Hc. apply negb_true_iff in Hc. rewrite Hc.
    rewrite length_append. cbn [String.length segState].
    now replace (String.length lead + 1)%nat with (S (String.length lead)) by lia.
Qed.

Lemma lastDotSplit_append (s b e : string) :
  lastDotSplit s = Some (b, e) -> s = b +:+ e /\ startsWithDot e = true.
Proof.
  revert b e. induction s as [|c s IH]; intros b e H; [discriminate|].
  cbn in H. destruct (lastDotSplit s) as [[b' e']|].
  - injection H as <- <-. destruct (IH b' e' eq_refl) as [-> He]. auto.
  - destruct (Ascii.eqb c dot) eqn:Hc; [|discriminate].
    injection H as <- <-. cbn. auto.
Qed.

Lemma lastDotSplit_none_append (s : string) :
  lastDotSplit s = None -> allChars (fun c => negb (Ascii.eqb c dot)) s = true.
Proof.
  induction s as [|c s IH]; [reflexivity|]. cbn.
  destruct (lastDotSplit s) as [[b e]|]; [discriminate|].
  destruct (Ascii.eqb c dot); [discriminate|]. intros _. now apply IH.
Qed.

(** The scan variables after a non-empty component at offset [o]. *)
Lemma segState_spec (seg : string) (o : nat) :
  seg <> "" ->
  endPos (segState o seg) = Z.of_nat (o + String.length seg)
  /\ matchedSlash (segState o seg) = false
  /\ startPart (segState o seg) = 0%Z
  /\ match lastDotSplit seg with
     | None =>
         startDot (segState o seg) = (-1)%Z /\ preDotState (segState o seg) = 0%Z
     | Some (b, e) =>
         startDot (segState o seg) = Z.of_nat (o + String.length b)
         /\ preDotState (segState o seg)
            = if String.eqb b "" then 0%Z
              else if startsWithDot seg then 1%Z else (-1)%Z
     end.
Proof.
  revert o. induction seg as [|c seg IH]; intros o Hne; [congruence|].
  cbn [segState lastDotSplit startsWithDot String.length].
  destruct (String.eqb_spec seg "") as [->|Hseg].
  - cbn [segState lastDotSplit]. unfold markChar, parseInit. cbn.
    destruct (Ascii.eqb c dot); cbn; repeat split; try reflexivity; lia.
  - specialize (IH (S o) Hseg).
    destruct IH as (He & Hm & Hp & Hd).
    unfold markChar. rewrite He.
    destruct (Z.eqb_spec (Z.of_nat (S o + String.length seg)) (-1)); [lia|].
    destruct (lastDotSplit seg) as [[b e]|].
    + destruct Hd as [Hsd Hpd]. rewrite Hsd.
      destruct (Z.eqb_spec (Z.of_nat (S o + String.length b)) (-1)); [lia|].
      cbn [negb]. rewrite Hpd.
      destruct (Ascii.eqb c dot).
      * destruct (String.eqb b ""), (startsWithDot seg); cbn;
          repeat split; try assumption; try reflexivity; lia.
      * cbn. repeat split; try assumption; try reflexivity; lia.
    + destruct Hd as [Hsd Hpd]. rewrite Hsd. cbn.
      destruct (Ascii.eqb c dot); cbn; repeat split; try assumption; try reflexivity; lia.
Qed.

Lemma lastDotSplit_dotdot (seg b e : string) :
  lastDotSplit seg = Some (b, e) ->
  (negb (String.eqb b "") && startsWithDot seg
   && (String.length e =? 1)%nat && (String.length b =? 1)%nat)
  = String.eqb seg "..".
Proof.
  intros H. destruct (lastDotSplit_append _ _ _ H) as [Hseg He].
  apply eq_true_iff_eq. rewrite !andb_true_iff, !Nat.eqb_eq, String.eqb_eq. split.
  - intros [[[_ Hs] Hle] Hlb]. subst seg.
    destruct b as [|c [|? ?]]; try discriminate.
    destruct e as [|d [|? ?]]; try discriminate.
    cbn in Hs, He. apply Ascii.eqb_eq in Hs, He. now subst.
  - intros ->. cbn in H. injection H as <- <-. auto.
Qed.

(** The fields read off the scan variables, for a component [seg] at
    offset [String.length lead]. *)
Lemma parse_fields (lead seg trail : string) (sp start' : Z) (underRoot : bool) :
  seg <> "" ->
  start' = Z.of_nat (String.length lead) ->
  (underRoot = false -> sp = Z.of_nat (String.length lead)) ->
  (underRoot = true -> sp = 0%Z /\ String.length lead = 1%nat) ->
  let path := lead +:+ seg +:+ trail in
  let st := segState (String.length lead) seg in
  (if negb (endPos st =? -1)%Z then
     if (startDot st =? -1)%Z
        || (preDotState st =? 0)%Z
        || ((preDotState st =? 1)%Z
            && (startDot st =? endPos st - 1)%Z
            && (startDot st =? sp + 1)%Z)
     then (slice path start' (endPos st), slice path start' (endPos st), "")
     else (slice path start' (endPos st),
           slice path start' (startDot st),
           slice path (startDot st) (endPos st))
   else ("", "", ""))
  = (seg, fst (splitExt underRoot seg), snd (splitExt underRoot seg)).
Proof.
  intros Hne -> Hrel Hroot path st.
  set (start' := Z.of_nat (String.length lead)).
  destruct (segState_spec seg (String.length lead) Hne) as (He & _ & _ & Hd).
  fold st in He, Hd. rewrite He.
  destruct (Z.eqb_spec (Z.of_nat (String.length lead + String.length seg)) (-1)); [lia|].
  cbn [negb].
  assert (Hbase : slice path start' (Z.of_nat (String.length lead + String.length seg)) = seg)
    by apply slice_middle.
  rewrite Hbase. unfold splitExt.
  destruct (lastDotSplit seg) as [[b e]|] eqn:Hsplit.
  - destruct Hd as [Hsd Hpd]. rewrite Hsd, Hpd.
    destruct (lastDotSplit_append _ _ _ Hsplit) as [Hseg He'].
    destruct (Z.eqb_spec (Z.of_nat (String.length lead + String.length b)) (-1)); [lia|].
    cbn [orb].
    destruct (String.eqb_spec b "") as [->|Hb]; [reflexivity|].
    pose proof (lastDotSplit_dotdot _ _ _ Hsplit) as Hdd.
    assert (Hlen : String.length seg = (String.length b + String.length e)%nat)
      by (rewrite Hseg; apply length_append).
    assert (Hname : slice path start' (Z.of_nat (String.length lead + String.length b)) = b).
    { unfold path. rewrite Hseg, append_assoc. apply slice_middle. }
    assert (Hext : slice path (Z.of_nat (String.length lead + String.length b))
                     (Z.of_nat (String.length lead + String.length seg)) = e).
    { replace (String.length lead + String.length seg)%nat
        with (String.length (lead +:+ b) + String.length e)%nat
        by (rewrite length_append; lia).
      replace (String.length lead + String.length b)%nat
        with (String.length (lead +:+ b)) by apply length_append.
      unfold path. rewrite Hseg, (append_assoc b e trail), <- (append_assoc lead b).
      apply slice_middle. }
    rewrite Hname, Hext.
    destruct (String.eqb_spec b ""); [congruence|]. cbn [negb andb] in Hdd.
    destruct underRoot.
    + destruct (Hroot eq_refl) as [-> Hl]. cbn [negb andb].
      replace ((Z.of_nat (String.length lead + String.length b) =? 0 + 1)%Z) with false.
      2:{ symmetry. apply Z.eqb_neq. destruct b; [congruence | cbn; lia]. }
      rewrite !andb_false_r.
      destruct (startsWithDot seg); reflexivity.
    + rewrite (Hrel eq_refl). cbn [negb andb]. rewrite <- Hdd.
      replace ((Z.of_nat (String.length lead + String.length b)
                =? Z.of_nat (String.length lead + String.length seg) - 1)%Z)
        with (String.length e =? 1)%nat.
      2:{ apply eq_true_iff_eq. rewrite Nat.eqb_eq, Z.eqb_eq. lia. }
      replace ((Z.of_nat (String.length lead + String.length b)
                =? Z.of_nat (String.length lead) + 1)%Z)
        with (String.length b =? 1)%nat.
      2:{ apply eq_true_iff_eq. rewrite Nat.eqb_eq, Z.eqb_eq. lia. }
      destruct (startsWithDot seg); cbn [Z.eqb andb];
        destruct (String.length e =? 1)%nat, (String.length b =? 1)%nat; reflexivity.
  - destruct Hd as [Hsd Hpd]. rewrite Hsd. reflexivity.
Qed.

Lemma allChars_notSlash_head (seg : string) :
  seg <> "" -> allChars notSlash seg = true ->
  exists c rest, seg = String c rest /\ Ascii.eqb c slash = false.
Proof.
  destruct seg as [|c rest]; [congruence|]. cbn. intros _ H.
  apply andb_true_iff in H as [H _]. unfold notSlash, notChar in H.
  apply negb_true_iff in H. eauto.
Qed.

(** A relative path with a single component, and trailing separators. *)
Theorem parsePath_component (seg trail : string) :
  seg <> "" -> allChars notSlash seg = true -> allChars isSlash trail = true ->
  parsePath (seg +:+ trail)
  = mkParsedPath "" "" seg (snd (splitExt false seg)) (fst (splitExt false seg)).
Proof.
  intros Hne Hseg Htrail.
  destruct (allChars_notSlash_head seg Hne Hseg) as (c & rest & Hc & Hslash).
  destruct (segState_spec seg 0 Hne) as (He & Hm & Hp & _).
  pose proof (parse_fields "" seg trail 0 0 false Hne eq_refl (fun _ => eq_refl)
                ltac:(discriminate)) as Hf.
  cbn zeta in Hf. cbn [String.length String.append] in Hf.
  unfold parsePath.
  assert (Hlen : (String.length (seg +:+ trail) =? 0)%nat = false).
  { apply Nat.eqb_neq. rewrite Hc. cbn. lia. }
  rewrite Hlen.
  assert (Habs : isAbsolutePath (seg +:+ trail) = false).
  { rewrite Hc. unfold isAbsolutePath. cbn. exact Hslash. }
  rewrite Habs.
  fold (scanBack 0 (seg +:+ trail) parseInit).
  rewrite scanBack_trailing by (try exact Htrail; lia).
  pose proof (scanBack_segment 0 "" seg (Nat.le_refl 0) Hseg) as Hscan.
  cbn [String.append String.length] in Hscan.
  rewrite Hscan, (scanBack_done "").
  unfold parseResult.
  rewrite Hp. cbn [Z.eqb andb Z.gtb Z.compare].
  rewrite Hf. reflexivity.
Qed.

Lemma slice_prefix (a b : string) :
  slice (a +:+ b) 0 (Z.of_nat (String.length a)) = a.
Proof.
  change 0%Z with (Z.of_nat 0).
  rewrite slice_range by (rewrite length_append; lia).
  rewrite Nat.sub_0_r. apply substring_prefix.
Qed.

(** A component directly under the root. *)
Theorem parsePath_under_root (seg trail : string) :
  seg <> "" -> allChars notSlash seg = true -> allChars isSlash trail = true ->
  parsePath ("/" +:+ seg +:+ trail)
  = mkParsedPath "/" "/" seg (snd (splitExt true seg)) (fst (splitExt true seg)).
Proof.
  intros Hne Hseg Htrail.
  destruct (segState_spec seg 1 Hne) as (He & Hm & Hp & _).
  pose proof (parse_fields "/" seg trail 0 1 true Hne eq_refl
                ltac:(discriminate) (fun _ => conj eq_refl eq_refl)) as Hf.
  cbn zeta in Hf. cbn [String.length] in Hf.
  unfold parsePath.
  change (String.length ("/" +:+ seg +:+ trail) =? 0)%nat with false.
  change (isAbsolutePath ("/" +:+ seg +:+ trail)) with true.
  cbv iota.
  fold (scanBack 1 ("/" +:+ seg +:+ trail) parseInit).
  rewrite <- (append_assoc "/" seg trail).
  rewrite scanBack_trailing by (try exact Htrail; rewrite length_append; cbn; lia).
  rewrite (scanBack_segment 1 "/" seg) by (try exact Hseg; cbn; lia).
  rewrite (scanBack_done "/").
  rewrite (append_assoc "/" seg trail).
  change (String.length "/") with 1%nat.
  unfold parseResult.
  rewrite Hp. cbn [Z.eqb andb Z.gtb Z.compare].
  rewrite Hf. reflexivity.
Qed.

(** A component below a non-empty directory part. *)
Theorem parsePath_nested (lead seg trail : string) :
  lead <> "" ->
  seg <> "" -> allChars notSlash seg = true -> allChars isSlash trail = true ->
  parsePath (lead +:+ "/" +:+ seg +:+ trail)
  = mkParsedPath (if startsWith lead "/" then "/" else "") lead seg
                 (snd (splitExt false seg)) (fst (splitExt false seg)).
Proof.
  intros Hlead Hne Hseg Htrail.
  destruct lead as [|c0 lead0]; [congruence|]. clear Hlead.
  set (lead := String c0 lead0).
  set (start := if Ascii.eqb c0 slash then 1%nat else 0%nat).
  assert (Hstart : (start <= String.length lead)%nat).
  { unfold start. cbn. destruct (Ascii.eqb c0 slash); lia. }
  set (S0 := segState (String.length (lead +:+ "/")) seg).
  destruct (segState_spec seg (String.length (lead +:+ "/")) Hne) as (He & Hm & Hp & _).
  fold S0 in He, Hm, Hp.
  assert (Hll : String.length (lead +:+ "/") = (String.length lead + 1)%nat)
    by (rewrite length_append; reflexivity).
  pose proof (parse_fields (lead +:+ "/") seg trail
                (Z.of_nat (String.length lead) + 1) (Z.of_nat (String.length lead) + 1)
                false Hne ltac:(lia) ltac:(intros _; lia) ltac:(discriminate)) as Hf.
  cbn zeta in Hf. fold S0 in Hf. rewrite append_assoc in Hf.
  change ("/" +:+ seg +:+ trail) with (String slash (seg +:+ trail)) in *.
  unfold parsePath.
  change (String.length (lead +:+ String slash (seg +:+ trail)) =? 0)%nat with false.
  change (isAbsolutePath (lead +:+ String slash (seg +:+ trail)))
    with (Ascii.eqb c0 slash).
  cbv iota. fold start.
  fold (scanBack start (lead +:+ String slash (seg +:+ trail)) parseInit).
  assert (Hscan : scanBack start (lead +:+ String slash (seg +:+ trail)) parseInit
                  = mkParseState (startDot S0) (Z.of_nat (String.length lead) + 1)
                                 (endPos S0) (matchedSlash S0) (preDotState S0)).
  { change (String slash (seg +:+ trail)) with ("/" +:+ seg +:+ trail).
    rewrite <- (append_assoc lead "/"), <- (append_assoc (lead +:+ "/") seg trail).
    rewrite scanBack_trailing by (try exact Htrail; rewrite !length_append; lia).
    rewrite scanBack_segment by (try exact Hseg; rewrite length_append; lia).
    fold S0. rewrite scanBack_snoc by exact Hstart.
    change (Ascii.eqb "/" slash) with true. cbv iota. now rewrite Hm. }
  rewrite Hscan. unfold parseResult.
  cbn [startDot startPart endPos matchedSlash preDotState].
  destruct (Z.eqb_spec (Z.of_nat (String.length lead) + 1) 0); [lia|].
  cbn [andb].
  destruct (Z.gtb_spec (Z.of_nat (String.length lead) + 1) 0); [|lia].
  rewrite Hf.
  replace (Z.of_nat (String.length lead) + 1 - 1)%Z with (Z.of_nat (String.length lead)) by lia.
  rewrite slice_prefix.
  unfold lead. cbn [startsWith]. rewrite andb_true_r.
  rewrite Ascii.eqb_sym. fold slash. now destruct (Ascii.eqb c0 slash).
Qed.

(** ** The shapes of a path *)

Lemma allChars_append (p : ascii -> bool) (a b : string) :
  allChars p (a +:+ b) = allChars p a && allChars p b.
Proof. induction a as [|c a IH]; [reflexivity|]. cbn. now rewrite IH, andb_assoc. Qed.

Lemma append_snoc_inj (a : string) (c : ascii) (b : string) (d : ascii) :
  a +:+ String c "" = b +:+ String d "" -> a = b /\ c = d.
Proof.
  revert b. induction a as [|y a IH]; intros [|x b] H; cbn in H.
  - injection H as ->. auto.
  - injection H as -> H. destruct b; discriminate.
  - injection H as -> H. destruct a; discriminate.
  - injection H as -> H. destruct (IH b H) as [-> ->]. auto.
Qed.

(** A path made of separators only. *)
Theorem parsePath_slashes (trail : string) :
  allChars isSlash trail = true ->
  parsePath ("/" +:+ trail) = mkParsedPath "/" "/" "" "" "".
Proof.
  intros Ht. unfold parsePath.
  change (String.length ("/" +:+ trail) =? 0)%nat with false.
  change (isAbsolutePath ("/" +:+ trail)) with true. cbv iota.
  fold (scanBack 1 ("/" +:+ trail) parseInit).
  rewrite scanBack_trailing by (try exact Ht; cbn; lia).
  rewrite (scanBack_done "/"). reflexivity.
Qed.

(** What remains when the trailing separators are taken off. *)
Lemma trailing_separators (path : string) :
  exists body trail,
    path = body +:+ trail /\ allChars isSlash trail = true
    /\ (body = "" \/ exists body' c, body = body' +:+ String c "" /\ isSlash c = false).
Proof.
  induction path as [|x path (body & trail & -> & Ht & Hb)].
  - exists "", "". auto.
  - destruct Hb as [-> | (body' & c & -> & Hc)].
    + destruct (isSlash x) eqn:Hx.
      * exists "", (String x trail). cbn. rewrite Hx. auto.
      * exists (String x ""), trail. repeat split; try assumption.
        right. exists "", x. auto.
    + exists (String x (body' +:+ String c "")), trail. repeat split; try assumption.
      right. exists (String x body'), c. auto.
Qed.


Lemma path_shape (path : string) : PathShape path.
Proof.
  destruct (trailing_separators path) as (body & trail & -> & Ht & Hb).
  destruct Hb as [-> | (body' & c & -> & Hc)].
  - destruct trail as [|x trail]; [now apply ShapeEmpty|].
    cbn in Ht. apply andb_true_iff in Ht as [Hx Ht].
    apply Ascii.eqb_eq in Hx. subst x.
    now apply (ShapeSlashes _ trail).
  - destruct (last_separator slash (body' +:+ String c "")) as [Hfree | (a & b & Hab & Hb)].
    + apply (ShapeComponent _ (body' +:+ String c "") trail); auto.
      destruct body'; discriminate.
    + assert (Hbne : b <> "").
      { intros ->. apply append_snoc_inj in Hab as [_ ->].
        unfold isSlash in Hc. now rewrite Ascii.eqb_refl in Hc. }
      rewrite Hab.
      destruct (String.eqb_spec a "") as [->|Ha].
      * apply (ShapeUnderRoot _ b trail); auto.
      * apply (ShapeNested _ a b trail); auto.
        now rewrite append_assoc.
Qed.

(** ** The extension

    [path.extname] and [path.parse] agree on a path that is not
    absolute. *)

Lemma extname_relative (path : string) :
  startsWith path "/" = false -> extname path = ext (parsePath path).
Proof.
  intros Hrel. unfold extname, parsePath.
  destruct path as [|c rest]; [reflexivity|].
  assert (Habs : isAbsolutePath (String c rest) = false).
  { unfold isAbsolutePath. cbn. cbn in Hrel. rewrite andb_true_r in Hrel. exact Hrel. }
  rewrite Habs. cbn [Nat.eqb String.length].
  rewrite Nat.sub_0_r.
  set (st := parseLoop (String c rest) 0 (S (String.length rest)) parseInit).
  unfold parseResult. cbv zeta.
  destruct (startDot st =? -1)%Z, (endPos st =? -1)%Z, (preDotState st =? 0)%Z,
    ((preDotState st =? 1)%Z && (startDot st =? endPos st - 1)%Z
     && (startDot st =? startPart st + 1)%Z); reflexivity.
Qed.

Lemma splitExt_dot (underRoot : bool) (seg : string) :
  snd (splitExt underRoot seg) = ""
  \/ startsWithDot (snd (splitExt underRoot seg)) = true.
Proof.
  unfold splitExt. destruct (lastDotSplit seg) as [[b e]|] eqn:E; [|now left].
  destruct (String.eqb b ""); [now left|].
  destruct (negb underRoot && _); [now left|].
  right. now destruct (lastDotSplit_append _ _ _ E).
Qed.

(** The extension [path.parse] finds is empty or starts with a dot. *)
Lemma ext_dot (path : string) :
  ext (parsePath path) = "" \/ startsWithDot (ext (parsePath path)) = true.
Proof.
  destruct (path_shape path) as [-> | trail -> Ht | seg trail -> Hne Hs Ht
                                 | seg trail -> Hne Hs Ht | lead seg trail -> Hl Hne Hs Ht].
  - now left.
  - rewrite parsePath_slashes by assumption. now left.
  - rewrite parsePath_component by assumption. apply splitExt_dot.
  - rewrite parsePath_under_root by assumption. apply splitExt_dot.
  - rewrite parsePath_nested by assumption. apply splitExt_dot.
Qed.

Lemma sliceFrom_tail (c : ascii) (s : string) : sliceFrom (String c s) 1 = s.
Proof.
  unfold sliceFrom, slice. cbv zeta. cbn [String.length].
  replace (1 <? 0)%Z with false by reflexivity.
  destruct (Z.ltb_spec (Z.of_nat (S (String.length s))) 0); [lia|].
  rewrite (Z.min_l 1) by lia. rewrite Z.min_id.
  replace (Z.to_nat 1) with 1%nat by reflexivity.
  replace (Z.to_nat (Z.of_nat (S (String.length s)) - 1)) with (String.length s) by lia.
  cbn [String.substring]. apply substring_all.
Qed.

(** ** Numbers *)

Lemma Qred_integer (q : Q) (z : Z) : Qeq q (inject_Z z) -> Qred q = inject_Z z.
Proof.
  intros H.
  pose proof (gcd_Qred q) as Hg.
  pose proof (Qred_correct q) as Hc.
  destruct (Qred q) as [n d] eqn:E. simpl in Hg.
  assert (Hq : Qeq (Qmake n d) (inject_Z z)) by (rewrite Hc; exact H).
  unfold Qeq in Hq. simpl in Hq.
  assert (Hd : Zpos d = 1%Z).
  { rewrite Z.mul_1_r in Hq. subst n.
    rewrite Z.gcd_comm, Z.mul_comm in Hg.
    rewrite Z.gcd_mul_diag_l in Hg by lia. exact Hg. }
  unfold inject_Z. f_equal; [nia | congruence].
Qed.

Lemma Qred_den_one (q : Q) :
  Zpos (Qden (Qred q)) = 1%Z -> Qeq q (inject_Z (Qnum (Qred q))).
Proof.
  intros H. rewrite <- (Qred_correct q) at 1.
  destruct (Qred q) as [n d]. simpl in *.
  unfold Qeq. simpl. rewrite H. lia.
Qed.

Lemma Qle_bool_inject_l (z : Z) (q : Q) (n : Z) :
  Qeq q (inject_Z n) -> Qle_bool (inject_Z z) q = (z <=? n)%Z.
Proof.
  intros H. apply eq_true_iff_eq.
  rewrite Qle_bool_iff, Z.leb_le, H, <- Zle_Qle. tauto.
Qed.

Lemma Qle_bool_inject_r (z : Z) (q : Q) (n : Z) :
  Qeq q (inject_Z n) -> Qle_bool q (inject_Z z) = (n <=? z)%Z.
Proof.
  intros H. apply eq_true_iff_eq.
  rewrite Qle_bool_iff, Z.leb_le, H, <- Zle_Qle. tauto.
Qed.

Lemma Qeq_inject_iff (q : Q) (z : Z) :
  Qeq q (inject_Z z) <-> Qnum q = (z * Zpos (Qden q))%Z.
Proof. unfold Qeq. simpl. lia. Qed.

Lemma not_integral_not_inject (q : Q) (z : Z) :
  (Zpos (Qden (Qred q)) =? 1)%Z = false -> ~ Qeq q (inject_Z z).
Proof.
  intros H Hq. apply Qred_integer in Hq. rewrite Hq in H. discriminate.
Qed.

(** The three tests on [maxDuration] say: not an integer in [1,900]. *)
Lemma maxDuration_test (n : JsNumber) :
  JsNum.lt n (JsNum.ofZ 1) || JsNum.gt n (JsNum.ofZ 900) || negb (JsNum.isIntegral n)
  = negb (isIntegerIn 1 900 n).
Proof.
  destruct n as [|b|q]; [reflexivity | destruct b; reflexivity |].
  cbn -[Z.eqb Qle_bool Qred Z.leb].
  destruct (Zpos (Qden (Qred q)) =? 1)%Z eqn:E.
  - apply Z.eqb_eq, Qred_den_one in E.
    rewrite (Qle_bool_inject_l 1 q _ E), (Qle_bool_inject_r 900 q _ E).
    cbn [negb andb]. rewrite orb_false_r. now rewrite negb_andb.
  - cbn [negb andb]. now rewrite orb_true_r.
Qed.

(** The three tests on [memory] say: not a multiple of 64 in [128,3008]. *)
Lemma memory_test (n : JsNumber) :
  JsNum.lt n (JsNum.ofZ 128) || JsNum.gt n (JsNum.ofZ 3008)
  || JsNum.strictNe (JsNum.rem n 64) (JsNum.ofZ 0)
  = negb (isMultipleIn 64 128 3008 n).
Proof.
  destruct n as [|b|q]; [reflexivity | destruct b; reflexivity |].
  cbn -[Z.eqb Qle_bool Qred Z.leb Qeq_bool Z.quot Z.modulo Qminus Z.mul].
  set (t := (Qnum q ÷ (Zpos (Qden q) * 64))%Z).
  destruct (Zpos (Qden (Qred q)) =? 1)%Z eqn:E; cbn [andb negb].
  - apply Z.eqb_eq, Qred_den_one in E.
    rewrite (Qle_bool_inject_l 128 q _ E), (Qle_bool_inject_r 3008 q _ E).
    set (n := Qnum (Qred q)) in *.
    assert (Hrem : Qeq_bool (Qminus q (inject_Z (64 * t))) (inject_Z 0)
                   = (n mod 64 =? 0)%Z).
    { apply eq_true_iff_eq. rewrite Qeq_bool_iff, Z.eqb_eq.
      apply Qeq_inject_iff in E.
      unfold Qeq, Qminus, Qplus, Qopp, inject_Z. simpl.
      subst t. rewrite E.
      replace (n * Zpos (Qden q) ÷ (Zpos (Qden q) * 64))%Z with (n ÷ 64)%Z.
      2:{ rewrite (Z.mul_comm n), Z.quot_mul_cancel_l by lia. reflexivity. }
      pose proof (Z.quot_rem' n 64) as Hqr.
      split; intros H.
      - assert (Hr : Z.rem n 64 = 0%Z) by nia.
        apply Z.rem_divide in Hr; [|lia]. apply Z.mod_divide; [lia | exact Hr].
      - apply Z.mod_divide in H; [|lia]. apply Z.rem_divide in H; [|lia]. nia. }
    rewrite Hrem.
    destruct (128 <=? n)%Z, (n <=? 3008)%Z, (n mod 64 =? 0)%Z; reflexivity.
  - rewrite orb_true_iff. right.
    apply negb_true_iff, not_true_iff_false. intros H.
    apply Qeq_bool_iff in H.
    assert (Hq : Qeq q (inject_Z (64 * t))).
    { unfold Qeq in *. simpl in *. lia. }
    exact (not_integral_not_inject q _ E Hq).
Qed.

(** ** Function validator *)

Section ValidatorProperties.

Variable validSemver : string -> bool.
Variable StringToNumber : string -> JsNumber.
Variable NumberToString : JsNumber -> string.

Local Abbreviation validateFunction' := (validateFunction validSemver StringToNumber NumberToString).
Local Abbreviation validateEntries' := (validateEntries validSemver StringToNumber NumberToString).
Local Abbreviation firstFailedCheck' := (firstFailedCheck validSemver StringToNumber NumberToString).
Local Abbreviation specValidate' := (specValidate validSemver StringToNumber NumberToString).
Local Abbreviation ToNumber' := (ToNumber StringToNumber NumberToString).

Lemma object_test (func : JsValue) :
  (negb (JsVal.truthy func) || negb (JsVal.typeofObject func))
  || (List.length (JsVal.keys func) =? 0)%nat
  = notNonEmptyObject "" func.
Proof.
  unfold notNonEmptyObject.
  destruct func as [| |b|n|s|items|props]; try reflexivity.
  - destruct b; reflexivity.
  - cbn [JsVal.truthy]. destruct (JsNum.truthy n); reflexivity.
  - cbn [JsVal.truthy]. destruct (JsString.truthy s); reflexivity.
  - cbn. destruct items; reflexivity.
  - cbn. destruct props; reflexivity.
Qed.

Lemma duration_test (v : JsValue) :
  JsNum.lt (ToNumber' v) (JsNum.ofZ 1) || JsNum.gt (ToNumber' v) (JsNum.ofZ 900)
  || negb (JsVal.isInteger v)
  = negb (match v with JsNum n => isIntegerIn 1 900 n | _ => false end).
Proof.
  destruct v; try (cbn [JsVal.isInteger negb]; apply orb_true_r).
  apply maxDuration_test.
Qed.

(** Each entry is judged by the checks of the specification, in its
    order. *)
Lemma validateFunction_checks (path : string) (func : JsValue) :
  option_map code (validateFunction' path func) = firstFailedCheck' path func.
Proof.
  unfold validateFunction, firstFailedCheck, specChecks.
  cbn [find snd fst option_map].
  unfold globTooLong at 1.
  destruct (256 <? String.length path)%nat; [reflexivity|].
  pose proof (object_test func) as Hobj. unfold notNonEmptyObject in Hobj |- *.
  rewrite <- Hobj.
  destruct (negb (JsVal.truthy func) || negb (JsVal.typeofObject func)); [reflexivity|].
  cbn [orb].
  destruct (List.length (JsVal.keys func) =? 0)%nat; [reflexivity|].
  unfold badMaxDuration, present. rewrite duration_test.
  destruct (negb (JsVal.isUndefined (JsVal.getProp func "maxDuration")) && _);
    [reflexivity|].
  unfold badMemory, present. rewrite memory_test.
  destruct (negb (JsVal.isUndefined (JsVal.getProp func "memory")) && _);
    [reflexivity|].
  unfold globFromRoot.
  destruct (startsWith path "/"); [reflexivity|].
  unfold badRuntime, present, versionSuffix. rewrite negb_andb.
  destruct (negb (JsVal.isUndefined (JsVal.getProp func "runtime")) && _);
    [reflexivity|].
  unfold badFilesProperty, present.
  destruct (negb (JsVal.isUndefined (JsVal.getProp func "includeFiles")) && _);
    [reflexivity|].
  destruct (negb (JsVal.isUndefined (JsVal.getProp func "excludeFiles")) && _);
    reflexivity.
Qed.

Lemma validateEntries_spec (entries : BuilderFunctions) :
  option_map code (validateEntries' entries) = specValidate' entries.
Proof.
  induction entries as [|[path func] rest IH]; [reflexivity|].
  cbn [validateEntries specValidate].
  rewrite <- validateFunction_checks.
  destruct (validateFunction' path func); [reflexivity | exact IH].
Qed.

(** The error returned is the one of the first entry, in the order of
    the map, that fails a check. *)
Lemma validateEntries_first (pre post : BuilderFunctions)
    (path : string) (func : JsValue) (e : ErrorResponse) :
  Forall (fun kv => validateFunction' (fst kv) (snd kv) = None) pre ->
  validateFunction' path func = Some e ->
  validateEntries' (pre ++ (path, func) :: post) = Some e.
Proof.
  intros Hpre He. induction Hpre as [|[p f] pre Hp _ IH]; cbn.
  - now rewrite He.
  - cbn in Hp. now rewrite Hp.
Qed.

End ValidatorProperties.

(** ** Route assembler *)

Lemma useIs_spec (b : Builder) (s : string) :
  useIs b s = true <-> use b = JsStr s.
Proof.
  unfold useIs. destruct (use b); split; intros H; try discriminate.
  - apply String.eqb_eq in H. now subst.
  - injection H as ->. apply String.eqb_refl.
Qed.

Lemma truthy_spec (s : string) : JsString.truthy s = true <-> s <> "".
Proof.
  unfold JsString.truthy. destruct (String.eqb_spec s ""); simpl; split; intros; congruence.
Qed.

(** C5. In legacy mode (featHandleMiss false) the default routes are
    the API routes in their given order, then the catch-all 404 for
    api paths exactly when there is at least one API route, then the
    rewrite into the output directory exactly when there is a frontend
    builder whose use is @now/static and the output directory is
    known (non-empty); nothing else. *)
Theorem legacy_defaultRoutes
    (apiRoutes dynamicRoutes : list Route) (outputDirectory : string)
    (apiBuilders : list Builder) (frontendBuilder : option Builder) (options : Options) :
  featHandleMiss options = false ->
  exists notFound rewrite : list Route,
    rrDefaultRoutes
      (getRouteResult apiRoutes dynamicRoutes outputDirectory apiBuilders
                      frontendBuilder options)
    = apiRoutes ++ notFound ++ rewrite
    /\ (apiRoutes <> [] ->
        notFound = [mkRoute (Some "^/api(/.*)?$") None None None (Some 404%Z) None None])
    /\ (apiRoutes = [] -> notFound = [])
    /\ ((exists fb, frontendBuilder = Some fb /\ use fb = JsStr "@now/static")
        /\ outputDirectory <> "" ->
        rewrite = [mkRoute (Some "/(.*)") (Some ("/" +:+ outputDirectory +:+ "/$1"))
                           None None None None None])
    /\ (~ ((exists fb, frontendBuilder = Some fb /\ use fb = JsStr "@now/static")
           /\ outputDirectory <> "") ->
        rewrite = []).
Proof.
  intros Hlegacy.
  set (nf := match apiRoutes with [] => [] | _ :: _ => [routeApi404] end).
  set (static := match frontendBuilder with
                 | Some fb => JsString.truthy outputDirectory && useIs fb "@now/static"
                 | None => false
                 end).
  exists nf, (if static
              then [sourceRoute "/(.*)" ("/" +:+ outputDirectory +:+ "/$1") None]
              else []).
  assert (Hstatic : static = true <->
            (exists fb, frontendBuilder = Some fb /\ use fb = JsStr "@now/static")
            /\ outputDirectory <> "").
  { unfold static. destruct frontendBuilder as [fb|].
    - rewrite andb_true_iff, truthy_spec, useIs_spec. split.
      + intros [Ho Hu]. split; [exists fb; auto | exact Ho].
      + intros [[fb' [Hfb Hu]] Ho]. injection Hfb as <-. auto.
    - split; [discriminate | intros [[fb' [Hfb _]] _]; discriminate]. }
  split; [| split; [| split; [| split]]].
  - unfold getRouteResult. rewrite Hlegacy. simpl negb.
    subst nf static. destruct apiRoutes as [|r rs]; simpl.
    + destruct frontendBuilder as [fb|]; [|reflexivity].
      rewrite andb_true_r. destruct (_ && _); reflexivity.
    + destruct frontendBuilder as [fb|]; simpl.
      * rewrite andb_true_r. destruct (_ && _); simpl.
        -- f_equal. now rewrite <- app_assoc.
        -- reflexivity.
      * reflexivity.
  - subst nf. destruct apiRoutes; [congruence | reflexivity].
  - intros ->. reflexivity.
  - intros H. apply Hstatic in H. now rewrite H.
  - intros H. destruct static eqn:E; [|reflexivity].
    exfalso. apply H, Hstatic. reflexivity.
Qed.

(** ** Route compiler *)

Lemma mapSegments_patterns (fh cu : bool) (parts : list string) (st : RouteScan) :
  fst (mapSegments fh cu parts st) = segmentPatterns fh cu parts.
Proof.
  revert st. induction parts as [|segment rest IH]; intros st; [reflexivity|].
  cbn [mapSegments segmentPatterns]. unfold srcPart.
  destruct (getSegmentName segment) as [n|].
  - specialize (IH (mkRouteScan (S (counter st))
                      (query st ++ [n +:+ "=$" +:+ ofNat (counter st)]) true)).
    destruct (mapSegments fh cu rest _) as [ps st2]. cbn in *. now rewrite IH.
  - destruct rest as [|s2 rest'].
    + reflexivity.
    + specialize (IH st). destruct (mapSegments fh cu (s2 :: rest') st) as [ps st2].
      cbn in *. now rewrite IH.
Qed.

Lemma mapSegments_scan (fh cu : bool) (parts : list string) (st : RouteScan) :
  snd (mapSegments fh cu parts st)
  = mkRouteScan (counter st + List.length (placeholderNames parts))
                (query st ++ queryBindings (counter st) (placeholderNames parts))
                (isDynamicSeen st || nonEmpty (placeholderNames parts)).
Proof.
  revert st. induction parts as [|segment rest IH]; intros st.
  - cbn. rewrite Nat.add_0_r, app_nil_r, orb_false_r. now destruct st.
  - cbn [mapSegments placeholderNames]. unfold srcPart.
    destruct (getSegmentName segment) as [n|].
    + specialize (IH (mkRouteScan (S (counter st))
                        (query st ++ [n +:+ "=$" +:+ ofNat (counter st)]) true)).
      destruct (mapSegments fh cu rest _) as [ps st2]. cbn in *. rewrite IH.
      rewrite <- app_assoc, orb_true_r. f_equal. lia.
    + assert (Hst : forall isLast, (if isLast : bool
                                    then (lastSegmentPattern segment fh cu, st)
                                    else (segment, st)).2 = st)
        by (intros []; reflexivity).
      destruct rest as [|s2 rest'].
      * cbn. rewrite Nat.add_0_r, app_nil_r, orb_false_r. now destruct st.
      * specialize (IH st).
        destruct (mapSegments fh cu (s2 :: rest') st) as [ps st2]. cbn in *.
        exact IH.
Qed.

(** The route of a file path, in terms of its segments. *)
Lemma createRouteFromPath_spec (filePath : string) (fh cu : bool) :
  createRouteFromPath filePath fh cu
  = (sourceRoute
       (anchored (isIndexPath filePath) (segmentPatterns fh cu (split slash filePath)))
       ("/" +:+ (if fh
                 then if JsString.truthy (ext (parsePath filePath))
                      then slice filePath 0
                             (- Z.of_nat (String.length (ext (parsePath filePath))))
                      else filePath
                 else filePath)
            +:+ captureQuery (placeholderNames (split slash filePath)))
       (if fh then Some true else None),
     nonEmpty (placeholderNames (split slash filePath))).
Proof.
  unfold createRouteFromPath.
  pose proof (mapSegments_patterns fh cu (split slash filePath) (mkRouteScan 1 [] false)) as Hp.
  pose proof (mapSegments_scan fh cu (split slash filePath) (mkRouteScan 1 [] false)) as Hs.
  destruct (mapSegments fh cu (split slash filePath) _) as [srcParts st].
  cbn [fst snd counter query isDynamicSeen orb app] in Hp, Hs. subst srcParts st.
  cbn [query isDynamicSeen].
  assert (Hq : (match queryBindings 1 (placeholderNames (split slash filePath)) with
                | [] => ""
                | _ :: _ => "?"
                end) +:+ join "&" (queryBindings 1 (placeholderNames (split slash filePath)))
               = captureQuery (placeholderNames (split slash filePath))).
  { unfold captureQuery. destruct (placeholderNames (split slash filePath)); reflexivity. }
  rewrite Hq. unfold anchored, isIndexPath.
  destruct fh; destruct (String.eqb (name (parsePath filePath)) "index"); reflexivity.
Qed.

Lemma endsWith_snoc (a : string) : endsWith (a +:+ "/") "/" = true.
Proof.
  unfold endsWith. rewrite length_append. cbn [String.length].
  replace (String.length a + 1 - 1)%nat with (String.length a) by lia.
  rewrite substring_skip. cbn.
  destruct (String.length a + 1)%nat eqn:E; [lia | reflexivity].
Qed.

Lemma slice_drop_suffix (stem e : string) :
  e <> "" -> slice (stem +:+ e) 0 (- Z.of_nat (String.length e)) = stem.
Proof.
  intros He. unfold slice. rewrite length_append.
  assert (0 < String.length e)%nat by (destruct e; [congruence | cbn; lia]).
  destruct (Z.ltb_spec 0 0); [lia|].
  destruct (Z.ltb_spec (- Z.of_nat (String.length e)) 0); [|lia].
  rewrite Z.min_l, Z.max_l by lia.
  change (Z.to_nat 0) with 0%nat.
  match goal with |- String.substring 0 ?n _ = _ =>
    replace n with (String.length stem) by lia end.
  apply substring_prefix.
Qed.

Lemma splitExt_append (underRoot : bool) (seg : string) :
  fst (splitExt underRoot seg) +:+ snd (splitExt underRoot seg) = seg.
Proof.
  unfold splitExt. destruct (lastDotSplit seg) as [[b e]|] eqn:E.
  - destruct (lastDotSplit_append _ _ _ E) as [-> _].
    destruct (String.eqb b ""); [apply append_nil_r|].
    destruct (negb underRoot && _); [apply append_nil_r | reflexivity].
  - apply append_nil_r.
Qed.





Lemma lastSegmentPattern_clean (segment : string) :
  lastSegmentPattern segment true true = cleanAlternation (name (parsePath segment)).
Proof.
  unfold lastSegmentPattern, cleanAlternation. cbn [andb].
  destruct (String.eqb_spec (name (parsePath segment)) "index") as [->|_].
  - reflexivity.
  - cbn [List.filter String.append]. change (JsString.truthy "") with false.
    reflexivity.
Qed.

Lemma segmentPatterns_clean (parts : list string) :
  segmentPatterns true true parts = cleanPatterns parts.
Proof.
  induction parts as [|s rest IH]; [reflexivity|].
  cbn [segmentPatterns cleanPatterns]. rewrite IH, lastSegmentPattern_clean.
  reflexivity.
Qed.

(** C7. With cleanUrls and featHandleMiss both true, the pattern of
    every file path is built from alternations that hold only the stem
    with a trailing slash and the bare stem (the bare directory and
    the stem for an index file): the alternation is a function of the
    stem alone, so no alternative carries the extension. *)
Theorem clean_urls_pattern :
  (forall filePath : string,
      routeSrc (fst (createRouteFromPath filePath true true))
      = Some (anchored (isIndexPath filePath) (cleanPatterns (split slash filePath))))
  /\ (forall segment : string,
         lastSegmentPattern segment true true
         = if String.eqb (name (parsePath segment)) "index" then "(/|/index)?"
           else "(" +:+ join "|"
                          (List.filter JsString.truthy
                             [name (parsePath segment) +:+ "/";
                              escapeName (name (parsePath segment))])
                +:+ ")").
Proof.
  split.
  - intros filePath. rewrite createRouteFromPath_spec. cbn [fst routeSrc sourceRoute].
    now rewrite segmentPatterns_clean.
  - intros segment. apply lastSegmentPattern_clean.
Qed.

(** ** Empty placeholder names *)



(** ** [escapeName] *)

Lemma replaceAllChar_append (c : ascii) (r a b : string) :
  replaceAllChar c r (a +:+ b) = replaceAllChar c r a +:+ replaceAllChar c r b.
Proof.
  induction a as [|x a IH]; [reflexivity|]. cbn.
  destruct (Ascii.eqb x c); rewrite IH; [now rewrite append_assoc | reflexivity].
Qed.

Lemma escape_fold_append (chars : list ascii) (a b : string) :
  fold_left (fun name char => replaceAllChar char (String "\"%char (String char "")) name)
            chars (a +:+ b)
  = fold_left (fun name char => replaceAllChar char (String "\"%char (String char "")) name)
              chars a
    +:+ fold_left (fun name char => replaceAllChar char (String "\"%char (String char "")) name)
                  chars b.
Proof.
  revert a b. induction chars as [|c chars IH]; intros a b; [reflexivity|].
  cbn [fold_left]. now rewrite replaceAllChar_append, IH.
Qed.

Lemma escapeName_append (a b : string) :
  escapeName (a +:+ b) = escapeName a +:+ escapeName b.
Proof. apply escape_fold_append. Qed.

Lemma escapeName_char (c : ascii) : escapeName (String c "") = escapeChar c.
Proof.
  destruct c as [[] [] [] [] [] [] [] []]; reflexivity.
Qed.

Lemma escapeName_cons (c : ascii) (s : string) :
  escapeName (String c s) = escapeChar c +:+ escapeName s.
Proof.
  change (String c s) with (String c "" +:+ s).
  now rewrite escapeName_append, escapeName_char.
Qed.

Lemma escapeName_nil : escapeName "" = "".
Proof. reflexivity. Qed.

(** An escaped name never starts with a special character. *)
Lemma escapeName_head (s : string) :
  match escapeName s with
  | String b _ => isSpecial b = false
  | EmptyString => True
  end.
Proof.
  destruct s as [|c s]; [exact I|]. rewrite escapeName_cons. unfold escapeChar.
  destruct (isSpecial c) eqn:E; cbn; [reflexivity | exact E].
Qed.

Lemma unescape_escape (s : string) : unescapeName (escapeName s) = s.
Proof.
  induction s as [|c s IH]; [reflexivity|].
  rewrite escapeName_cons. unfold escapeChar.
  destruct (isSpecial c) eqn:E; cbn [String.append unescapeName].
  - rewrite Ascii.eqb_refl, E. cbn [andb]. now rewrite IH.
  - pose proof (escapeName_head s) as Hh.
    destruct (escapeName s) as [|b rest] eqn:Es.
    + destruct s; [reflexivity|]. rewrite escapeName_cons in Es.
      unfold escapeChar in Es. destruct (isSpecial a); discriminate.
    + rewrite Hh, andb_false_r. now rewrite IH.
Qed.

Lemma escapeName_inj (a b : string) : escapeName a = escapeName b -> a = b.
Proof.
  intros H. rewrite <- (unescape_escape a), <- (unescape_escape b). now rewrite H.
Qed.

Lemma escapeName_free (s : string) :
  allChars notSlash s = true -> allChars notSlash (escapeName s) = true.
Proof.
  induction s as [|c s IH]; [reflexivity|]. cbn [allChars].
  intros H. apply andb_true_iff in H as [Hc Hs].
  rewrite escapeName_cons. unfold escapeChar.
  destruct (isSpecial c); cbn [String.append allChars]; rewrite Hc, (IH Hs); reflexivity.
Qed.

Lemma escapeName_nonempty (s : string) : s <> "" -> escapeName s <> "".
Proof.
  destruct s as [|c s]; [congruence|]. intros _. rewrite escapeName_cons.
  unfold escapeChar. destruct (isSpecial c); discriminate.
Qed.

(** ** Injectivity of the route compiler on static paths *)


Lemma name_append_slash (path : string) :
  name (parsePath (path +:+ "/")) = name (parsePath path).
Proof.
  destruct (path_shape path) as [-> | trail -> Ht | seg trail -> Hne Hs Ht
                                 | seg trail -> Hne Hs Ht | lead seg trail -> Hl Hne Hs Ht].
  - reflexivity.
  - rewrite append_assoc, !parsePath_slashes; try assumption; [reflexivity|].
    rewrite allChars_append, Ht. reflexivity.
  - rewrite append_assoc, !parsePath_component; try assumption; [reflexivity|].
    rewrite allChars_append, Ht. reflexivity.
  - rewrite !append_assoc, !parsePath_under_root; try assumption; [reflexivity|].
    rewrite allChars_append, Ht. reflexivity.
  - rewrite !append_assoc, !parsePath_nested; try assumption; [reflexivity|].
    rewrite allChars_append, Ht. reflexivity.
Qed.

Lemma append_inv_tail (a b c : string) : a +:+ c = b +:+ c -> a = b.
Proof.
  revert a b. induction c as [|x c IH]; intros a b H.
  - now rewrite !append_nil_r in H.
  - rewrite <- (append_snoc a x c), <- (append_snoc b x c) in H. apply IH in H.
    now apply append_snoc_inj in H as [-> _].
Qed.

Lemma splitExt_parts (underRoot : bool) (seg : string) :
  seg <> "" -> allChars notSlash seg = true ->
  fst (splitExt underRoot seg) <> ""
  /\ allChars notSlash (fst (splitExt underRoot seg)) = true
  /\ allChars notSlash (snd (splitExt underRoot seg)) = true.
Proof.
  intros Hne Hs. pose proof (splitExt_append underRoot seg) as Happ.
  assert (Hboth : allChars notSlash (fst (splitExt underRoot seg)) = true
                  /\ allChars notSlash (snd (splitExt underRoot seg)) = true).
  { assert (H : allChars notSlash (fst (splitExt underRoot seg)
                                   +:+ snd (splitExt underRoot seg)) = true)
      by (rewrite Happ; exact Hs).
    rewrite allChars_append in H. now apply andb_true_iff in H. }
  split; [|exact Hboth].
  unfold splitExt in *. destruct (lastDotSplit seg) as [[b e]|]; [|exact Hne].
  destruct (String.eqb_spec b ""); [exact Hne|].
  destruct (negb underRoot && _); [exact Hne | assumption].
Qed.

Lemma splitExt_index (seg : string) :
  String.eqb (fst (splitExt true seg)) "index"
  = String.eqb (fst (splitExt false seg)) "index".
Proof.
  unfold splitExt. destruct (lastDotSplit seg) as [[b e]|] eqn:E; [|reflexivity].
  destruct (String.eqb_spec b ""); [reflexivity|]. cbn [negb andb].
  destruct (String.eqb_spec seg "..") as [->|_]; [|reflexivity].
  cbn in E. injection E as <- <-. reflexivity.
Qed.

(** The alternation of a final segment when the extension is kept. *)
Lemma lastSegmentPattern_file (seg : string) (fh cu : bool) :
  seg <> "" -> allChars notSlash seg = true -> fh && cu = false ->
  lastSegmentPattern seg fh cu
  = if String.eqb (fst (splitExt false seg)) "index"
    then "(/|/index|/index" +:+ escapeName (snd (splitExt false seg)) +:+ ")?"
    else "(" +:+ fst (splitExt false seg) +:+ "/|"
             +:+ escapeName (fst (splitExt false seg)) +:+ "|"
             +:+ escapeName (fst (splitExt false seg))
             +:+ escapeName (snd (splitExt false seg)) +:+ ")".
Proof.
  intros Hne Hs Hflags.
  pose proof (parsePath_component seg "" Hne Hs eq_refl) as Hp.
  rewrite append_nil_r in Hp.
  destruct (splitExt_parts false seg Hne Hs) as (Hstem & _ & _).
  unfold lastSegmentPattern. rewrite Hp, Hflags. cbn [name ext].
  set (stem := fst (splitExt false seg)) in *.
  set (e := snd (splitExt false seg)).
  destruct (String.eqb_spec stem "index") as [->|Hidx].
  - cbn [List.filter]. change (JsString.truthy "/") with true.
    change (JsString.truthy ("/" +:+ escapeName "index")) with true.
    change (escapeName "index") with "index". cbv iota. reflexivity.
  - assert (Ht1 : JsString.truthy (stem +:+ "/") = true).
    { apply truthy_spec. destruct stem; discriminate. }
    assert (Ht2 : JsString.truthy ("" +:+ escapeName stem) = true).
    { apply truthy_spec. cbn. now apply escapeName_nonempty. }
    assert (Ht3 : JsString.truthy ("" +:+ escapeName stem +:+ escapeName e) = true).
    { apply truthy_spec. cbn. intros H. apply append_eq_nil in H as [H _].
      now apply escapeName_nonempty in H. }
    cbn [List.filter]. rewrite Ht1, Ht2, Ht3. cbn [join]. string_assoc.
Qed.

Lemma lastSegmentPattern_empty (fh cu : bool) : lastSegmentPattern "" fh cu = "(/)".
Proof. destruct fh, cu; reflexivity. Qed.

Lemma segmentPatterns_static (fh cu : bool) (init : list string) (l : string) :
  forallb (fun segment => negb (isSome (getSegmentName segment))) (init ++ [l]) = true ->
  segmentPatterns fh cu (init ++ [l]) = init ++ [lastSegmentPattern l fh cu].
Proof.
  induction init as [|s init IH]; cbn [app forallb segmentPatterns]; intros H;
    apply andb_true_iff in H as [Hs H].
  - destruct (getSegmentName l); [discriminate | reflexivity].
  - rewrite (IH H). destruct (getSegmentName s); [discriminate|].
    destruct (init ++ [l]) eqn:E; [destruct init; discriminate | reflexivity].
Qed.

Lemma anchored_snoc (isIndex : bool) (init : list string) (l : string) :
  anchored isIndex (init ++ [l])
  = "^/" +:+ (match init with
              | [] => ""
              | _ => join "/" init +:+ (if isIndex then "" else "/")
              end) +:+ l +:+ "$".
Proof.
  unfold anchored. rewrite removelast_last, last_last.
  destruct init as [|x init].
  - destruct isIndex; reflexivity.
  - destruct isIndex; [now string_assoc|].
    rewrite join_snoc by discriminate. now string_assoc.
Qed.

Lemma anchored_snoc_dir (isIndex : bool) (init : list string) (l : string) :
  init <> [] ->
  anchored isIndex (init ++ [l])
  = "^/" +:+ join "/" init +:+ (if isIndex then "" else "/") +:+ l +:+ "$".
Proof.
  intros H. rewrite anchored_snoc. destruct init; [congruence|]. now string_assoc.
Qed.

Lemma join_split_slash (s : string) : join "/" (split slash s) = s.
Proof. exact (join_split slash s). Qed.

(** Every static relative path compiles to one of the four forms. *)
Lemma static_route_form (filePath : string) (fh cu : bool) :
  isStaticPath filePath = true -> startsWith filePath "/" = false ->
  fh && cu = false ->
  exists src,
    routeSrc (fst (createRouteFromPath filePath fh cu)) = Some src
    /\ RouteForm filePath src.
Proof.
  intros Hstatic Hrel Hflags. rewrite createRouteFromPath_spec.
  cbn [fst sourceRoute routeSrc]. eexists. split; [reflexivity|].
  unfold isStaticPath in Hstatic.
  destruct (last_separator slash filePath) as [Hfree | (a & b & -> & Hb)].
  - rewrite (split_free _ _ Hfree) in *.
    pose proof (segmentPatterns_static fh cu [] filePath Hstatic) as Hpat.
    cbn [app] in Hpat. rewrite Hpat.
    pose proof (anchored_snoc (isIndexPath filePath) []
                  (lastSegmentPattern filePath fh cu)) as Hanch.
    cbn [app] in Hanch. rewrite Hanch. clear Hpat Hanch.
    destruct (String.eqb_spec filePath "") as [->|Hne].
    + rewrite lastSegmentPattern_empty. apply (FormDir ""). reflexivity.
    + rewrite (lastSegmentPattern_file _ _ _ Hne Hfree Hflags).
      destruct (splitExt_parts false filePath Hne Hfree) as (Hstem & Hs1 & Hs2).
      pose proof (splitExt_append false filePath) as Happ.
      destruct (String.eqb_spec (fst (splitExt false filePath)) "index") as [Hi|Hi].
      * pose proof (FormIndex "" (snd (splitExt false filePath)) Hs2) as F.
        assert (Hpath : (if String.eqb "" "" then "" else "" +:+ "/")
                          +:+ "index" +:+ snd (splitExt false filePath) = filePath).
        { change ("index" +:+ snd (splitExt false filePath) = filePath).
          rewrite <- Hi. exact Happ. }
        rewrite Hpath in F. revert F. unfold indexPattern, filePattern. string_assoc. auto.
      * pose proof (FormFile "" _ _ (or_introl eq_refl) Hstem Hs1 Hs2) as F.
        change ("" +:+ fst (splitExt false filePath) +:+ snd (splitExt false filePath))
          with (fst (splitExt false filePath) +:+ snd (splitExt false filePath)) in F.
        rewrite Happ in F. revert F. unfold filePattern. string_assoc. auto.
  - assert (Ha : a <> "") by (intros ->; discriminate).
    rewrite (split_last_part _ _ _ Hb) in *.
    rewrite (segmentPatterns_static fh cu _ _ Hstatic).
    rewrite anchored_snoc_dir by apply split_nonempty.
    rewrite join_split_slash. clear Hstatic.
    destruct (String.eqb_spec b "") as [->|Hne].
    + rewrite lastSegmentPattern_empty.
      change (a +:+ String slash "") with (a +:+ "/").
      destruct (isIndexPath (a +:+ "/")) eqn:Hidx.
      * pose proof (FormIndexDir a Hidx) as F. revert F. unfold dirPattern.
        string_assoc. auto.
      * pose proof (FormDir (a +:+ "/") Hidx) as F. revert F. unfold dirPattern.
        string_assoc. auto.
    + rewrite (lastSegmentPattern_file _ _ _ Hne Hb Hflags).
      destruct (splitExt_parts false b Hne Hb) as (Hstem & Hs1 & Hs2).
      pose proof (splitExt_append false b) as Happ.
      pose proof (parsePath_nested a b "" Ha Hne Hb eq_refl) as Hp.
      rewrite append_nil_r in Hp.
      change (a +:+ String slash b) with (a +:+ "/" +:+ b).
      unfold isIndexPath. rewrite Hp. cbn [name].
      destruct (String.eqb_spec (fst (splitExt false b)) "index") as [Hi|Hi].
      * pose proof (FormIndex a (snd (splitExt false b)) Hs2) as F.
        apply String.eqb_neq in Ha. rewrite Ha in F.
        assert (Hpath : (a +:+ "/") +:+ "index" +:+ snd (splitExt false b)
                        = a +:+ "/" +:+ b).
        { rewrite <- Hi, append_assoc, Happ. reflexivity. }
        rewrite Hpath in F. revert F. unfold indexPattern, filePattern. string_assoc. auto.
      * pose proof (FormFile (a +:+ "/") _ _ (or_intror (ex_intro _ a eq_refl))
                      Hstem Hs1 Hs2) as F.
        assert (Hpath : (a +:+ "/") +:+ fst (splitExt false b) +:+ snd (splitExt false b)
                        = a +:+ "/" +:+ b).
        { rewrite append_assoc, Happ. reflexivity. }
        rewrite Hpath in F. revert F. unfold indexPattern, filePattern. string_assoc. auto.
Qed.

(** The last two characters of a string are determined by it. *)
Lemma append_two_inj (a b : string) (x y x' y' : ascii) :
  a +:+ String x (String y "") = b +:+ String x' (String y' "") ->
  a = b /\ x = x' /\ y = y'.
Proof.
  intros H. rewrite <- (append_snoc a x), <- (append_snoc b x') in H.
  apply append_snoc_inj in H as [H ->].
  apply append_snoc_inj in H as [-> ->]. auto.
Qed.

Lemma notSlash_cons (c : ascii) (s : string) :
  Ascii.eqb c slash = false -> allChars notSlash s = true ->
  allChars notSlash (String c s) = true.
Proof. intros Hc Hs. cbn. unfold notSlash at 1, notChar. now rewrite Hc, Hs. Qed.


Lemma fileTail_free (stem e : string) :
  allChars notSlash stem = true -> allChars notSlash e = true ->
  allChars notSlash (fileTail stem e) = true.
Proof.
  intros Hs He. unfold fileTail.
  rewrite !allChars_append, !escapeName_free by assumption. reflexivity.
Qed.

Lemma filePattern_split (P stem e : string) :
  filePattern P stem e = ("^/" +:+ P +:+ "(" +:+ stem) +:+ String slash (fileTail stem e).
Proof. unfold filePattern, fileTail. now string_assoc. Qed.

Lemma indexPattern_split (a e : string) :
  indexPattern a e
  = ("^/" +:+ a +:+ "(/|/index|") +:+ String slash ("index" +:+ escapeName e +:+ ")?$").
Proof. unfold indexPattern. now string_assoc. Qed.

Lemma dirPattern_split (p : string) :
  dirPattern p = ("^/" +:+ p +:+ "(") +:+ String slash ")$".
Proof. unfold dirPattern. now string_assoc. Qed.

Lemma indexTail_free (e : string) :
  allChars notSlash e = true ->
  allChars notSlash ("index" +:+ escapeName e +:+ ")?$") = true.
Proof.
  intros He. rewrite !allChars_append, escapeName_free by assumption. reflexivity.
Qed.

Lemma file_file (P stem e P' stem' e' : string) :
  P = "" \/ (exists a, P = a +:+ "/") -> P' = "" \/ (exists a, P' = a +:+ "/") ->
  allChars notSlash stem = true -> allChars notSlash e = true ->
  allChars notSlash stem' = true -> allChars notSlash e' = true ->
  filePattern P stem e = filePattern P' stem' e' ->
  P = P' /\ stem = stem' /\ e = e'.
Proof.
  intros HP HP' Hs He Hs' He' H. rewrite !filePattern_split in H.
  apply last_separator_unique in H as [Hl Hr]; try now apply fileTail_free.
  assert (Hdir : P = P' /\ stem = stem').
  { assert (Hopen : allChars notSlash ("(" +:+ stem) = true) by (now apply notSlash_cons).
    assert (Hopen' : allChars notSlash ("(" +:+ stem') = true) by (now apply notSlash_cons).
    destruct HP as [-> | [a ->]], HP' as [-> | [a' ->]].
    - change ("^" +:+ String slash ("(" +:+ stem) = "^" +:+ String slash ("(" +:+ stem')) in Hl.
      apply last_separator_unique in Hl as [_ Hl]; try assumption.
      injection Hl as ->. auto.
    - exfalso.
      assert (Hl' : "^" +:+ String slash ("(" +:+ stem)
                    = ("^/" +:+ a') +:+ String slash ("(" +:+ stem'))
        by (revert Hl; string_assoc; auto).
      apply last_separator_unique in Hl' as [Hl' _]; try assumption. discriminate.
    - exfalso.
      assert (Hl' : ("^/" +:+ a) +:+ String slash ("(" +:+ stem)
                    = "^" +:+ String slash ("(" +:+ stem'))
        by (revert Hl; string_assoc; auto).
      apply last_separator_unique in Hl' as [Hl' _]; try assumption. discriminate.
    - assert (Hl' : ("^/" +:+ a) +:+ String slash ("(" +:+ stem)
                    = ("^/" +:+ a') +:+ String slash ("(" +:+ stem')).
      { revert Hl. string_assoc. auto. }
      apply last_separator_unique in Hl' as [Ha Hst]; try assumption.
      injection Ha as ->. injection Hst as ->. auto. }
  destruct Hdir as [-> ->]. repeat split.
  unfold fileTail in Hr. injection Hr as Hr.
  apply append_inv_head in Hr. injection Hr as Hr.
  apply append_inv_head in Hr. apply append_inv_tail in Hr.
  now apply escapeName_inj.
Qed.

Lemma index_index (a e a' e' : string) :
  allChars notSlash e = true -> allChars notSlash e' = true ->
  indexPattern a e = indexPattern a' e' -> a = a' /\ e = e'.
Proof.
  intros He He' H. rewrite !indexPattern_split in H.
  apply last_separator_unique in H as [Hl Hr]; try now apply indexTail_free.
  injection Hl as Hl. apply append_inv_tail in Hl.
  apply append_inv_head in Hr. apply append_inv_tail in Hr.
  split; [exact Hl | now apply escapeName_inj].
Qed.

Lemma dir_dir (p p' : string) : dirPattern p = dirPattern p' -> p = p'.
Proof. unfold dirPattern. intros H. injection H as H. now apply append_inv_tail in H. Qed.

Lemma file_not_index (P stem e a e' : string) :
  filePattern P stem e <> indexPattern a e'.
Proof.
  unfold filePattern, indexPattern. intros H.
  assert (H' : ("^/" +:+ P +:+ "(" +:+ stem +:+ "/|" +:+ escapeName stem +:+ "|"
                     +:+ escapeName stem +:+ escapeName e) +:+ ")$"
               = ("^/" +:+ a +:+ "(/|/index|/index" +:+ escapeName e' +:+ ")") +:+ "?$").
  { revert H. string_assoc. auto. }
  apply append_two_inj in H' as (_ & Hc & _). discriminate.
Qed.

Lemma file_not_dir (P stem e p : string) :
  allChars notSlash stem = true -> allChars notSlash e = true ->
  filePattern P stem e <> dirPattern p.
Proof.
  intros Hs He H. rewrite filePattern_split, dirPattern_split in H.
  apply last_separator_unique in H as [_ Hr];
    [discriminate | now apply fileTail_free | reflexivity].
Qed.

Lemma index_not_dir (a e p : string) : indexPattern a e <> dirPattern p.
Proof.
  unfold indexPattern, dirPattern. intros H.
  assert (H' : ("^/" +:+ a +:+ "(/|/index|/index" +:+ escapeName e +:+ ")") +:+ "?$"
               = ("^/" +:+ p +:+ "(/") +:+ ")$").
  { revert H. string_assoc. auto. }
  apply append_two_inj in H' as (_ & Hc & _). discriminate.
Qed.

Lemma route_form_cases (p src : string) :
  RouteForm p src ->
  (exists P stem e,
      (P = "" \/ (exists a, P = a +:+ "/"))
      /\ allChars notSlash stem = true /\ allChars notSlash e = true
      /\ p = P +:+ stem +:+ e /\ src = filePattern P stem e)
  \/ (exists a e,
         allChars notSlash e = true
         /\ p = (if String.eqb a "" then "" else a +:+ "/") +:+ "index" +:+ e
         /\ src = indexPattern a e)
  \/ (isIndexPath p = false /\ src = dirPattern p)
  \/ (exists a, isIndexPath (a +:+ "/") = true /\ p = a +:+ "/" /\ src = dirPattern a).
Proof.
  intros [P stem e HP Hne Hs He | a e He | q Hi | a Hi].
  - left. exists P, stem, e. auto.
  - right. left. exists a, e. auto.
  - right. right. left. auto.
  - right. right. right. exists a. auto.
Qed.

(** The form determines the path. *)
Lemma route_form_inj (p p' src : string) :
  RouteForm p src -> RouteForm p' src -> p = p'.
Proof.
  intros F F'.
  apply route_form_cases in F as
      [(P & stem & e & HP & Hs & He & -> & Hsrc)
      | [(a & e & He & -> & Hsrc) | [(Hi & Hsrc) | (a & Hi & -> & Hsrc)]]];
  apply route_form_cases in F' as
      [(P' & stem' & e' & HP' & Hs' & He' & -> & Hsrc')
      | [(a' & e' & He' & -> & Hsrc') | [(Hi' & Hsrc') | (a' & Hi' & -> & Hsrc')]]];
  rewrite Hsrc in Hsrc'; clear Hsrc.
  - apply file_file in Hsrc' as (-> & -> & ->); auto.
  - now apply file_not_index in Hsrc'.
  - now apply file_not_dir in Hsrc'.
  - now apply file_not_dir in Hsrc'.
  - symmetry in Hsrc'. now apply file_not_index in Hsrc'.
  - apply index_index in Hsrc' as [-> ->]; auto.
  - now apply index_not_dir in Hsrc'.
  - now apply index_not_dir in Hsrc'.
  - symmetry in Hsrc'. now apply file_not_dir in Hsrc'.
  - symmetry in Hsrc'. now apply index_not_dir in Hsrc'.
  - now apply dir_dir.
  - apply dir_dir in Hsrc'. subst a'.
    unfold isIndexPath in Hi, Hi'. rewrite name_append_slash in Hi'. congruence.
  - symmetry in Hsrc'. now apply file_not_dir in Hsrc'.
  - symmetry in Hsrc'. now apply index_not_dir in Hsrc'.
  - apply dir_dir in Hsrc'. subst p'.
    unfold isIndexPath in Hi, Hi'. rewrite name_append_slash in Hi. congruence.
  - apply dir_dir in Hsrc'. now subst.
Qed.


(** *** Clean URLs *)

Lemma extensionless_split (path stem e : string) :
  path = stem +:+ e -> ext (parsePath path) = e -> extensionless path = stem.
Proof.
  intros Hp He. unfold extensionless. rewrite He.
  destruct (String.eqb_spec e "") as [->|Hne].
  - cbn. now rewrite Hp, append_nil_r.
  - apply String.eqb_neq in Hne as Hne'. unfold JsString.truthy. rewrite Hne'. cbn [negb].
    rewrite Hp. now apply slice_drop_suffix.
Qed.

(** The alternation of a final segment when both flags are set. *)
Lemma lastSegmentPattern_clean_file (seg : string) :
  seg <> "" -> allChars notSlash seg = true ->
  lastSegmentPattern seg true true
  = if String.eqb (fst (splitExt false seg)) "index"
    then "(/|/index)?"
    else "(" +:+ fst (splitExt false seg) +:+ "/|"
             +:+ escapeName (fst (splitExt false seg)) +:+ ")".
Proof.
  intros Hne Hs.
  pose proof (parsePath_component seg "" Hne Hs eq_refl) as Hp.
  rewrite append_nil_r in Hp.
  destruct (splitExt_parts false seg Hne Hs) as (Hstem & _ & _).
  rewrite lastSegmentPattern_clean. unfold cleanAlternation. rewrite Hp. cbn [name].
  set (stem := fst (splitExt false seg)) in *.
  destruct (String.eqb_spec stem "index") as [->|Hidx]; [reflexivity|].
  assert (Ht1 : JsString.truthy (stem +:+ "/") = true).
  { apply truthy_spec. destruct stem; discriminate. }
  assert (Ht2 : JsString.truthy (escapeName stem) = true).
  { apply truthy_spec. now apply escapeName_nonempty. }
  cbn [List.filter]. rewrite Ht1, Ht2. cbn [join]. string_assoc.
Qed.

(** Every static relative path compiles to one of the four clean
    forms. *)
Lemma clean_route_form (filePath : string) :
  isStaticPath filePath = true -> startsWith filePath "/" = false ->
  exists src,
    routeSrc (fst (createRouteFromPath filePath true true)) = Some src
    /\ CleanForm filePath src.
Proof.
  intros Hstatic Hrel. rewrite createRouteFromPath_spec.
  cbn [fst sourceRoute routeSrc]. eexists. split; [reflexivity|].
  unfold isStaticPath in Hstatic.
  destruct (last_separator slash filePath) as [Hfree | (a & b & -> & Hb)].
  - rewrite (split_free _ _ Hfree) in *.
    pose proof (segmentPatterns_static true true [] filePath Hstatic) as Hpat.
    cbn [app] in Hpat. rewrite Hpat.
    pose proof (anchored_snoc (isIndexPath filePath) []
                  (lastSegmentPattern filePath true true)) as Hanch.
    cbn [app] in Hanch. rewrite Hanch. clear Hpat Hanch.
    destruct (String.eqb_spec filePath "") as [->|Hne].
    + rewrite lastSegmentPattern_empty. apply (CleanDir ""); [now left | reflexivity].
    + rewrite (lastSegmentPattern_clean_file _ Hne Hfree).
      destruct (splitExt_parts false filePath Hne Hfree) as (Hstem & Hs1 & Hs2).
      pose proof (splitExt_append false filePath) as Happ.
      pose proof (parsePath_component filePath "" Hne Hfree eq_refl) as Hp.
      rewrite append_nil_r in Hp.
      assert (Hext : ext (parsePath filePath) = snd (splitExt false filePath))
        by (now rewrite Hp).
      assert (Hless : extensionless filePath = fst (splitExt false filePath))
        by (apply (extensionless_split _ _ _ (eq_sym Happ) Hext)).
      destruct (String.eqb_spec (fst (splitExt false filePath)) "index") as [Hi|Hi].
      * assert (Hpath : (if String.eqb "" "" then "" else "" +:+ "/")
                          +:+ "index" +:+ snd (splitExt false filePath) = filePath).
        { change ("index" +:+ snd (splitExt false filePath) = filePath).
          rewrite <- Hi. exact Happ. }
        pose proof (CleanIndex "" (snd (splitExt false filePath)) Hs2) as F.
        rewrite Hpath in F. specialize (F (eq_trans Hless Hi)).
        revert F. unfold cleanIndexPattern. string_assoc. auto.
      * pose proof (CleanFile "" (fst (splitExt false filePath))
                      (snd (splitExt false filePath)) (or_introl eq_refl) Hstem Hi
                      Hs1 Hs2) as F.
        change ("" +:+ fst (splitExt false filePath) +:+ snd (splitExt false filePath))
          with (fst (splitExt false filePath) +:+ snd (splitExt false filePath)) in F.
        rewrite Happ in F. specialize (F Hless).
        revert F. unfold cleanFilePattern. string_assoc. auto.
  - assert (Ha : a <> "") by (intros ->; discriminate).
    rewrite (split_last_part _ _ _ Hb) in *.
    rewrite (segmentPatterns_static true true _ _ Hstatic).
    rewrite anchored_snoc_dir by apply split_nonempty.
    rewrite join_split_slash. clear Hstatic.
    destruct (String.eqb_spec b "") as [->|Hne].
    + rewrite lastSegmentPattern_empty.
      change (a +:+ String slash "") with (a +:+ "/").
      destruct (isIndexPath (a +:+ "/")) eqn:Hidx.
      * pose proof (CleanIndexDir a Hidx) as F. revert F. unfold dirPattern.
        string_assoc. auto.
      * pose proof (CleanDir (a +:+ "/") (or_intror (ex_intro _ a eq_refl)) Hidx) as F.
        revert F. unfold dirPattern.
        string_assoc. auto.
    + rewrite (lastSegmentPattern_clean_file _ Hne Hb).
      destruct (splitExt_parts false b Hne Hb) as (Hstem & Hs1 & Hs2).
      pose proof (splitExt_append false b) as Happ.
      pose proof (parsePath_nested a b "" Ha Hne Hb eq_refl) as Hp.
      rewrite append_nil_r in Hp.
      change (a +:+ String slash b) with (a +:+ "/" +:+ b).
      assert (Hext : ext (parsePath (a +:+ "/" +:+ b)) = snd (splitExt false b))
        by (now rewrite Hp).
      assert (Hpath : (a +:+ "/" +:+ fst (splitExt false b)) +:+ snd (splitExt false b)
                      = a +:+ "/" +:+ b).
      { rewrite !append_assoc, Happ. reflexivity. }
      assert (Hless : extensionless (a +:+ "/" +:+ b) = a +:+ "/" +:+ fst (splitExt false b))
        by (apply (extensionless_split _ _ _ (eq_sym Hpath) Hext)).
      unfold isIndexPath. rewrite Hp. cbn [name].
      destruct (String.eqb_spec (fst (splitExt false b)) "index") as [Hi|Hi].
      * pose proof (CleanIndex a (snd (splitExt false b)) Hs2) as F.
        apply String.eqb_neq in Ha. rewrite Ha in F.
        assert (Hpath' : (a +:+ "/") +:+ "index" +:+ snd (splitExt false b)
                         = a +:+ "/" +:+ b).
        { rewrite <- Hi, append_assoc, Happ. reflexivity. }
        rewrite Hpath' in F.
        assert (Hless' : extensionless (a +:+ "/" +:+ b) = (a +:+ "/") +:+ "index").
        { rewrite Hless, Hi. now rewrite append_assoc. }
        specialize (F Hless').
        revert F. unfold cleanIndexPattern. string_assoc. auto.
      * pose proof (CleanFile (a +:+ "/") (fst (splitExt false b)) (snd (splitExt false b))
                      (or_intror (ex_intro _ a eq_refl)) Hstem Hi Hs1 Hs2) as F.
        assert (Hpath' : (a +:+ "/") +:+ fst (splitExt false b) +:+ snd (splitExt false b)
                         = a +:+ "/" +:+ b).
        { rewrite append_assoc, Happ. reflexivity. }
        rewrite Hpath' in F.
        assert (Hless' : extensionless (a +:+ "/" +:+ b)
                         = (a +:+ "/") +:+ fst (splitExt false b)).
        { rewrite Hless. now rewrite append_assoc. }
        specialize (F Hless').
        revert F. unfold cleanFilePattern. string_assoc. auto.
Qed.

Lemma cleanFilePattern_split (P stem : string) :
  cleanFilePattern P stem
  = ("^/" +:+ P +:+ "(" +:+ stem) +:+ String slash ("|" +:+ escapeName stem +:+ ")$").
Proof. unfold cleanFilePattern. now string_assoc. Qed.

Lemma cleanTail_free (stem : string) :
  allChars notSlash stem = true ->
  allChars notSlash ("|" +:+ escapeName stem +:+ ")$") = true.
Proof.
  intros Hs. rewrite !allChars_append, !escapeName_free by assumption. reflexivity.
Qed.

Lemma clean_file_file (P stem P' stem' : string) :
  allChars notSlash stem = true -> allChars notSlash stem' = true ->
  cleanFilePattern P stem = cleanFilePattern P' stem' ->
  P = P' /\ stem = stem'.
Proof.
  intros Hs Hs' H. rewrite !cleanFilePattern_split in H.
  apply last_separator_unique in H as [Hl Hr]; try now apply cleanTail_free.
  injection Hr as Hr. apply append_inv_tail in Hr. apply escapeName_inj in Hr.
  subst stem'. split; [|reflexivity].
  injection Hl as Hl.
  assert (Hl' : P +:+ ("(" +:+ stem) = P' +:+ ("(" +:+ stem)) by exact Hl.
  now apply append_inv_tail in Hl'.
Qed.

Lemma clean_index_index (a a' : string) :
  cleanIndexPattern a = cleanIndexPattern a' -> a = a'.
Proof.
  unfold cleanIndexPattern. intros H. injection H as H. now apply append_inv_tail in H.
Qed.

Lemma clean_file_not_index (P stem a : string) :
  cleanFilePattern P stem <> cleanIndexPattern a.
Proof.
  unfold cleanFilePattern, cleanIndexPattern. intros H.
  assert (H' : ("^/" +:+ P +:+ "(" +:+ stem +:+ "/|" +:+ escapeName stem) +:+ ")$"
               = ("^/" +:+ a +:+ "(/|/index)") +:+ "?$").
  { revert H. string_assoc. auto. }
  apply append_two_inj in H' as (_ & Hc & _). discriminate.
Qed.

Lemma clean_file_not_dir (P stem p : string) :
  allChars notSlash stem = true ->
  cleanFilePattern P stem <> dirPattern p.
Proof.
  intros Hs H. rewrite cleanFilePattern_split, dirPattern_split in H.
  apply last_separator_unique in H as [_ Hr];
    [discriminate | now apply cleanTail_free | reflexivity].
Qed.

Lemma clean_index_not_dir (a p : string) : cleanIndexPattern a <> dirPattern p.
Proof.
  unfold cleanIndexPattern, dirPattern. intros H.
  assert (H' : ("^/" +:+ a +:+ "(/|/index)") +:+ "?$" = ("^/" +:+ p +:+ "(/") +:+ ")$").
  { revert H. string_assoc. auto. }
  apply append_two_inj in H' as (_ & Hc & _). discriminate.
Qed.

Lemma endsWith_cons (c : ascii) (s : string) :
  endsWith (String c s) "/"
  = match s with
    | EmptyString => Ascii.eqb c slash
    | String _ _ => endsWith s "/"
    end.
Proof.
  unfold endsWith. cbn [String.length]. destruct s as [|d s'].
  - cbn. unfold slash. destruct (Ascii.eqb c "/"); reflexivity.
  - cbn [String.length]. replace (S (S (String.length s')) - 1)%nat
      with (S (String.length s')) by lia.
    replace (S (String.length s') - 1)%nat with (String.length s') by lia.
    reflexivity.
Qed.

Lemma endsWith_free_tail (x s : string) :
  s <> "" -> allChars notSlash s = true -> endsWith (x +:+ s) "/" = false.
Proof.
  intros Hne Hs.
  assert (Hself : forall t, t <> "" -> allChars notSlash t = true -> endsWith t "/" = false).
  { induction t as [|c t IH]; [congruence|]. intros _ Ht.
    rewrite endsWith_cons. cbn [allChars] in Ht. apply andb_true_iff in Ht as [Hc Ht].
    destruct t as [|d t'].
    - unfold notSlash, notChar in Hc. now apply negb_true_iff in Hc.
    - apply IH; [discriminate | exact Ht]. }
  induction x as [|c x IH]; [now apply Hself|].
  cbn [String.append]. rewrite endsWith_cons.
  destruct (x +:+ s) eqn:E; [|exact IH].
  apply append_eq_nil in E as [_ E]. congruence.
Qed.

Lemma dir_stem_unique (P stem P' stem' : string) :
  P = "" \/ (exists a, P = a +:+ "/") -> P' = "" \/ (exists a, P' = a +:+ "/") ->
  allChars notSlash stem = true -> allChars notSlash stem' = true ->
  P +:+ stem = P' +:+ stem' -> P = P' /\ stem = stem'.
Proof.
  intros [-> | [a ->]] [-> | [a' ->]] Hs Hs' H.
  - auto.
  - exfalso. cbn [String.append] in H. subst stem.
    rewrite !allChars_append in Hs. cbn in Hs. now rewrite andb_false_r in Hs.
  - exfalso. cbn [String.append] in H. subst stem'.
    rewrite !allChars_append in Hs'. cbn in Hs'. now rewrite andb_false_r in Hs'.
  - assert (H' : a +:+ String slash stem = a' +:+ String slash stem').
    { revert H. string_assoc. auto. }
    apply last_separator_unique in H' as [-> ->]; auto.
Qed.

Lemma routeKey_file (x s e : string) :
  s <> "" -> allChars notSlash s = true -> allChars notSlash e = true ->
  routeKey true true (x +:+ s +:+ e) = extensionless (x +:+ s +:+ e).
Proof.
  intros Hne Hs He. unfold routeKey. cbn [andb].
  rewrite <- append_assoc at 1.
  assert (Hend : endsWith (x +:+ (s +:+ e)) "/" = false).
  { apply endsWith_free_tail.
    - intros H. apply append_eq_nil in H as [H _]. congruence.
    - now rewrite allChars_append, Hs, He. }
  rewrite !append_assoc in *. now rewrite Hend.
Qed.

Lemma routeKey_dir (p : string) :
  p = "" \/ (exists a, p = a +:+ "/") -> routeKey true true p = p.
Proof.
  intros [-> | [a ->]]; [reflexivity|].
  unfold routeKey. now rewrite endsWith_snoc.
Qed.

Lemma clean_form_cases (p src : string) :
  CleanForm p src ->
  (exists P stem,
      (P = "" \/ (exists a, P = a +:+ "/"))
      /\ stem <> "" /\ stem <> "index" /\ allChars notSlash stem = true
      /\ routeKey true true p = P +:+ stem /\ src = cleanFilePattern P stem)
  \/ (exists a,
         routeKey true true p = (if String.eqb a "" then "" else a +:+ "/") +:+ "index"
         /\ src = cleanIndexPattern a)
  \/ ((p = "" \/ (exists a, p = a +:+ "/"))
      /\ isIndexPath p = false /\ routeKey true true p = p /\ src = dirPattern p)
  \/ (exists a, isIndexPath (a +:+ "/") = true /\ p = a +:+ "/"
                /\ routeKey true true p = p /\ src = dirPattern a).
Proof.
  intros [P stem e HP Hne Hi Hs He Hless | a e He Hless | q Hq Hi | a Hi].
  - left. exists P, stem. rewrite routeKey_file by assumption. auto 10.
  - right. left. exists a. split; [|reflexivity].
    rewrite routeKey_file; [exact Hless | discriminate | reflexivity | exact He].
  - right. right. left. rewrite routeKey_dir by assumption. auto.
  - right. right. right. exists a. rewrite routeKey_dir by eauto. auto.
Qed.

Lemma index_prefix_inj (a a' : string) :
  (if String.eqb a "" then "" else a +:+ "/")
  = (if String.eqb a' "" then "" else a' +:+ "/") -> a = a'.
Proof.
  destruct (String.eqb_spec a "") as [->|Ha], (String.eqb_spec a' "") as [->|Ha'];
    intros H.
  - reflexivity.
  - symmetry in H. apply append_eq_nil in H as [_ H]. discriminate.
  - apply append_eq_nil in H as [_ H]. discriminate.
  - now apply append_inv_tail in H.
Qed.

Lemma index_prefix_shape (a : string) :
  (if String.eqb a "" then "" else a +:+ "/") = ""
  \/ exists b, (if String.eqb a "" then "" else a +:+ "/") = b +:+ "/".
Proof. destruct (String.eqb a ""); [now left | right; now exists a]. Qed.

(** A directory part followed by a stem is no directory part. *)
Lemma stem_not_dir (P stem p : string) :
  P = "" \/ (exists a, P = a +:+ "/") -> p = "" \/ (exists a, p = a +:+ "/") ->
  stem <> "" -> allChars notSlash stem = true ->
  P +:+ stem <> p.
Proof.
  intros HP Hp Hne Hs H. rewrite <- (append_nil_r p) in H.
  apply dir_stem_unique in H as [_ H]; auto.
Qed.

Ltac stem_no_dir H :=
  exfalso; revert H; apply stem_not_dir;
  first [assumption | apply index_prefix_shape | discriminate | reflexivity | eauto].

(** Two clean forms have the same pattern exactly when the paths have
    the same key. *)
Lemma clean_form_key (p p' src src' : string) :
  CleanForm p src -> CleanForm p' src' ->
  (src = src' <-> routeKey true true p = routeKey true true p').
Proof.
  intros F F'.
  apply clean_form_cases in F as
      [(P & stem & HP & Hne & Hi & Hs & Hk & ->)
      | [(a & Hk & ->) | [(Hp & Hi & Hk & ->) | (a & Hi & -> & Hk & ->)]]];
  apply clean_form_cases in F' as
      [(P' & stem' & HP' & Hne' & Hi' & Hs' & Hk' & ->)
      | [(a' & Hk' & ->) | [(Hp' & Hi' & Hk' & ->) | (a' & Hi' & -> & Hk' & ->)]]];
  rewrite Hk, Hk'; clear Hk Hk'.
  - split.
    + intros H. apply clean_file_file in H as (-> & ->); auto.
    + intros H. apply dir_stem_unique in H as (-> & ->); auto.
  - split; [intros H; now apply clean_file_not_index in H|].
    intros H. apply dir_stem_unique in H as (_ & ->);
      auto using index_prefix_shape. congruence.
  - split; [intros H; now apply clean_file_not_dir in H|].
    intros H. stem_no_dir H.
  - split; [intros H; now apply clean_file_not_dir in H|].
    intros H. stem_no_dir H.
  - split; [intros H; symmetry in H; now apply clean_file_not_index in H|].
    intros H. symmetry in H. apply dir_stem_unique in H as (_ & ->);
      auto using index_prefix_shape. congruence.
  - split.
    + intros H. apply clean_index_index in H. now subst.
    + intros H. apply append_inv_tail in H. apply index_prefix_inj in H. now subst.
  - split; [intros H; now apply clean_index_not_dir in H|].
    intros H. stem_no_dir H.
  - split; [intros H; now apply clean_index_not_dir in H|].
    intros H. stem_no_dir H.
  - split; [intros H; symmetry in H; now apply clean_file_not_dir in H|].
    intros H. symmetry in H. stem_no_dir H.
  - split; [intros H; symmetry in H; now apply clean_index_not_dir in H|].
    intros H. symmetry in H. stem_no_dir H.
  - split; [intros H; now apply dir_dir in H | now intros ->].
  - split.
    + intros H. apply dir_dir in H. subst a'.
      unfold isIndexPath in Hi, Hi'. rewrite name_append_slash in Hi'. congruence.
    + intros ->. congruence.
  - split; [intros H; symmetry in H; now apply clean_file_not_dir in H|].
    intros H. symmetry in H. stem_no_dir H.
  - split; [intros H; symmetry in H; now apply clean_index_not_dir in H|].
    intros H. symmetry in H. stem_no_dir H.
  - split.
    + intros H. apply dir_dir in H. subst p'.
      unfold isIndexPath in Hi, Hi'. rewrite name_append_slash in Hi. congruence.
    + intros <-. congruence.
  - split.
    + intros H. apply dir_dir in H. now subst.
    + intros H. apply append_inv_tail in H. now subst.
Qed.

(** C4, as amended. Route compilation is injective on static relative
    paths up to the extension that clean URLs drop: for every setting
    of featHandleMiss and cleanUrls, two file paths without
    placeholder segments and without a leading slash get the same src
    pattern exactly when they have the same key, where the key of a
    path is the path itself, except that it is the path without its
    extension when both flags are true and the path does not end with
    a separator. So two distinct such paths get different patterns
    unless both flags are true and the two are files that differ only
    in their extension. *)
Theorem static_routes_injective (pathA pathB : string) (featHandleMiss cleanUrls : bool) :
  isStaticPath pathA = true -> isStaticPath pathB = true ->
  startsWith pathA "/" = false -> startsWith pathB "/" = false ->
  (routeSrc (fst (createRouteFromPath pathA featHandleMiss cleanUrls))
   = routeSrc (fst (createRouteFromPath pathB featHandleMiss cleanUrls))
   <-> routeKey featHandleMiss cleanUrls pathA = routeKey featHandleMiss cleanUrls pathB).
Proof.
  intros HsA HsB HrA HrB.
  destruct (featHandleMiss && cleanUrls) eqn:Hflags.
  - apply andb_true_iff in Hflags as [-> ->].
    destruct (clean_route_form pathA HsA HrA) as (srcA & HA & FA).
    destruct (clean_route_form pathB HsB HrB) as (srcB & HB & FB).
    rewrite HA, HB, <- (clean_form_key _ _ _ _ FA FB).
    split; [now intros [= ->] | now intros ->].
  - unfold routeKey. rewrite Hflags. cbn [andb]. split; [|now intros ->].
    intros Heq.
    destruct (static_route_form pathA _ _ HsA HrA Hflags) as (srcA & HA & FA).
    destruct (static_route_form pathB _ _ HsB HrB Hflags) as (srcB & HB & FB).
    rewrite HA, HB in Heq. injection Heq as <-.
    exact (route_form_inj _ _ _ FA FB).
Qed.

(** ** Path normalization *)

Lemma afterLastClose_suffix (p : ascii -> bool) (s r : string) :
  afterLastClose s = Some r -> allChars p s = true -> allChars p r = true.
Proof.
  revert r. induction s as [|a s IH]; intros r H Hs; [discriminate|].
  cbn in H, Hs. apply andb_true_iff in Hs as [_ Hs].
  destruct (lineTerminator a); [discriminate|].
  destruct (afterLastClose s) as [r'|].
  - injection H as <-. now apply IH.
  - destruct (Ascii.eqb a "]"); [|discriminate]. now injection H as <-.
Qed.

(** Without line terminators, nothing after the last "]" closes again. *)
Lemma afterLastClose_final (s r : string) :
  afterLastClose s = Some r -> allChars notTerminator s = true ->
  afterLastClose r = None.
Proof.
  revert r. induction s as [|a s IH]; intros r H Hs; [discriminate|].
  cbn in H, Hs. apply andb_true_iff in Hs as [Ha Hs].
  unfold notTerminator in Ha. apply negb_true_iff in Ha. rewrite Ha in H.
  destruct (afterLastClose s) as [r'|] eqn:E.
  - injection H as <-. now apply IH.
  - destruct (Ascii.eqb a "]"); [|discriminate]. now injection H as <-.
Qed.

Lemma afterLastClose_none_tail (a : ascii) (s : string) :
  afterLastClose (String a s) = None -> lineTerminator a = false ->
  afterLastClose s = None.
Proof.
  cbn. intros H Ha. rewrite Ha in H. now destruct (afterLastClose s).
Qed.

(** Where nothing closes, nothing is replaced. *)
Lemma replacePlaceholder_unclosed (s : string) :
  afterLastClose s = None -> allChars notTerminator s = true ->
  replacePlaceholder s = s.
Proof.
  induction s as [|a s IH]; intros H Hs; [reflexivity|].
  cbn in Hs. apply andb_true_iff in Hs as [Ha Hs].
  unfold notTerminator in Ha. apply negb_true_iff in Ha.
  pose proof (afterLastClose_none_tail a s H Ha) as Htail.
  cbn [replacePlaceholder]. rewrite Htail, (IH Htail Hs).
  now destruct (Ascii.eqb a "[").
Qed.

Lemma replacePlaceholder_idempotent (s : string) :
  allChars notTerminator s = true ->
  replacePlaceholder (replacePlaceholder s) = replacePlaceholder s.
Proof.
  induction s as [|a s IH]; intros Hs; [reflexivity|].
  cbn in Hs. apply andb_true_iff in Hs as [Ha Hs].
  cbn [replacePlaceholder].
  destruct (Ascii.eqb a "[") eqn:Eb.
  - destruct (afterLastClose s) as [r|] eqn:E.
    + change ("1" +:+ r) with (String "1" r). cbn [replacePlaceholder].
      change (Ascii.eqb "1" "[") with false. cbv iota.
      rewrite replacePlaceholder_unclosed; [reflexivity | |].
      * exact (afterLastClose_final s r E Hs).
      * exact (afterLastClose_suffix _ s r E Hs).
    + cbn [replacePlaceholder]. rewrite Eb.
      rewrite (replacePlaceholder_unclosed s E Hs), E.
      now rewrite (replacePlaceholder_unclosed s E Hs).
  - cbn [replacePlaceholder]. rewrite Eb. now rewrite IH.
Qed.

Lemma replacePlaceholder_free (s : string) :
  allChars notSlash s = true -> allChars notSlash (replacePlaceholder s) = true.
Proof.
  induction s as [|a s IH]; intros Hs; [reflexivity|].
  cbn in Hs. apply andb_true_iff in Hs as [Ha Hs].
  cbn [replacePlaceholder].
  destruct (Ascii.eqb a "[").
  - destruct (afterLastClose s) as [r|] eqn:E.
    + cbn. exact (afterLastClose_suffix _ s r E Hs).
    + cbn. now rewrite Ha, IH.
  - cbn. now rewrite Ha, IH.
Qed.

Lemma replacePlaceholder_nonEmpty (s : string) :
  nonEmptyString (replacePlaceholder s) = nonEmptyString s.
Proof.
  destruct s as [|a s]; [reflexivity|]. cbn [replacePlaceholder].
  destruct (Ascii.eqb a "["); [destruct (afterLastClose s)|]; reflexivity.
Qed.

Lemma collapse_free (n : string) :
  allChars notSlash n = true -> collapseSlashes n = n.
Proof.
  induction n as [|c n IH]; [reflexivity|]. cbn [allChars]. intros H.
  apply andb_true_iff in H as [Hc Hn]. unfold notSlash, notChar in Hc.
  apply negb_true_iff in Hc. cbn [collapseSlashes]. now rewrite Hc, IH.
Qed.

Lemma collapse_append_free (a n : string) :
  allChars notSlash n = true ->
  collapseSlashes (a +:+ n) = collapseSlashes a +:+ n.
Proof.
  intros Hn. induction a as [|c a IH]; [now apply collapse_free|].
  cbn [String.append collapseSlashes].
  destruct (Ascii.eqb c slash) eqn:Ec; [|now rewrite IH].
  destruct a as [|d a'].
  - cbn [String.append]. destruct n as [|x n']; [reflexivity|].
    cbn in Hn. apply andb_true_iff in Hn as [Hx Hn'].
    unfold notSlash, notChar in Hx. apply negb_true_iff in Hx. rewrite Hx.
    f_equal. apply collapse_free. cbn. unfold notSlash at 1, notChar.
    now rewrite Hx, Hn'.
  - cbn [String.append] in *. destruct (Ascii.eqb d slash); now rewrite IH.
Qed.

Lemma collapse_head (s : string) :
  startsWith (collapseSlashes s) "/" = startsWith s "/".
Proof.
  destruct s as [|c s]; [reflexivity|]. cbn [collapseSlashes].
  destruct (Ascii.eqb c slash) eqn:Ec.
  - apply Ascii.eqb_eq in Ec. subst c.
    induction s as [|d s IH]; [reflexivity|].
    destruct (Ascii.eqb d slash) eqn:Ed; [|reflexivity].
    apply Ascii.eqb_eq in Ed. subst d. cbn [collapseSlashes].
    change (Ascii.eqb slash slash) with true. cbv iota. exact IH.
  - reflexivity.
Qed.

Lemma collapse_noDouble (s : string) : noDoubleSlash (collapseSlashes s) = true.
Proof.
  induction s as [|c s IH]; [reflexivity|]. cbn [collapseSlashes].
  destruct (Ascii.eqb c slash) eqn:Ec.
  - destruct s as [|d s']; [cbn; now rewrite Ec|].
    destruct (Ascii.eqb d slash) eqn:Ed; [exact IH|].
    cbn [noDoubleSlash]. rewrite IH, collapse_head. cbn [startsWith].
    replace (Ascii.eqb "/" d) with (Ascii.eqb d slash) by apply Ascii.eqb_sym.
    rewrite Ed. now rewrite andb_false_r.
  - cbn [noDoubleSlash]. now rewrite Ec, IH.
Qed.

Lemma collapse_fix (s : string) :
  noDoubleSlash s = true -> collapseSlashes s = s.
Proof.
  induction s as [|c s IH]; [reflexivity|]. cbn [noDoubleSlash collapseSlashes].
  intros H. apply andb_true_iff in H as [Hc Hs]. rewrite (IH Hs).
  destruct (Ascii.eqb c slash); [|reflexivity].
  destruct s as [|d s']; [reflexivity|].
  cbn [startsWith andb negb] in Hc.
  replace (Ascii.eqb "/" d) with (Ascii.eqb d slash) in Hc by apply Ascii.eqb_sym.
  rewrite andb_true_r in Hc. apply negb_true_iff in Hc. now rewrite Hc.
Qed.

Lemma collapse_allChars (p : ascii -> bool) (s : string) :
  allChars p s = true -> allChars p (collapseSlashes s) = true.
Proof.
  induction s as [|c s IH]; [reflexivity|]. cbn [allChars collapseSlashes].
  intros H. apply andb_true_iff in H as [Hc Hs].
  destruct (Ascii.eqb c slash).
  - destruct s as [|d s']; [cbn; now rewrite Hc|].
    destruct (Ascii.eqb d slash); [now apply IH|].
    cbn [allChars]. now rewrite Hc, IH.
  - cbn [allChars]. now rewrite Hc, IH.
Qed.

(** A collapsed string that ended with a separator still does. *)
Lemma collapse_snoc_slash (x : string) :
  exists y, collapseSlashes (x +:+ "/") = y +:+ "/".
Proof.
  induction x as [|c x (y & IH)]; [now exists ""|].
  cbn [String.append collapseSlashes].
  destruct (Ascii.eqb c slash).
  - destruct (x +:+ "/") as [|d t] eqn:E; [destruct x; discriminate|].
    destruct (Ascii.eqb d slash).
    + exists y. exact IH.
    + exists (String c y). cbn [String.append]. now rewrite IH.
  - exists (String c y). cbn [String.append]. now rewrite IH.
Qed.

Lemma allChars_split (p : ascii -> bool) (c : ascii) (s : string) :
  allChars p s = true -> Forall (fun part => allChars p part = true) (split c s).
Proof.
  induction s as [|a s IH]; [repeat constructor|]. cbn [allChars split].
  intros H. apply andb_true_iff in H as [Ha Hs]. specialize (IH Hs).
  destruct (Ascii.eqb a c); [constructor; [reflexivity | exact IH]|].
  pose proof (split_nonempty c s).
  destruct (split c s) as [|x xs]; [congruence|].
  inversion IH; subst. constructor; [|assumption]. cbn. now rewrite Ha.
Qed.

Lemma split_join (xs : list string) :
  xs <> [] -> Forall (fun x => allChars notSlash x = true) xs ->
  split slash (join "/" xs) = xs.
Proof.
  induction xs as [|x xs IH]; [congruence|]. intros _ H.
  inversion H as [|? ? Hx Hxs]; subst.
  destruct xs as [|y ys]; [now apply split_free|].
  rewrite join_cons by discriminate.
  change ("/" +:+ join "/" (y :: ys)) with (String slash (join "/" (y :: ys))).
  rewrite split_append, (split_free _ _ Hx), IH by (try discriminate; assumption).
  reflexivity.
Qed.

Lemma noDouble_free_prefix (x s : string) :
  allChars notSlash x = true -> noDoubleSlash (x +:+ s) = noDoubleSlash s.
Proof.
  induction x as [|c x IH]; [reflexivity|]. cbn [allChars]. intros H.
  apply andb_true_iff in H as [Hc Hx]. unfold notSlash, notChar in Hc.
  apply negb_true_iff in Hc. cbn [String.append noDoubleSlash].
  now rewrite Hc, IH.
Qed.

Lemma startsWith_free (x s : string) :
  allChars notSlash x = true ->
  startsWith (x +:+ "/" +:+ s) "/" = negb (nonEmptyString x).
Proof.
  destruct x as [|c x]; [reflexivity|]. cbn [allChars]. intros H.
  apply andb_true_iff in H as [Hc _]. unfold notSlash, notChar in Hc.
  apply negb_true_iff in Hc.
  change (nonEmptyString (String c x)) with true.
  cbn [String.append startsWith negb].
  replace (Ascii.eqb "/" c) with (Ascii.eqb c slash) by apply Ascii.eqb_sym.
  now rewrite Hc.
Qed.

(** In a path that ends with a separator there are no adjacent
    separators exactly when every segment after the first is
    non-empty. *)
Lemma noDouble_join (xs : list string) :
  xs <> [] -> Forall (fun x => allChars notSlash x = true) xs ->
  noDoubleSlash (join "/" xs +:+ "/") = forallb nonEmptyString (tl xs).
Proof.
  induction xs as [|x xs IH]; [congruence|]. intros _ H.
  inversion H as [|? ? Hx Hxs]; subst.
  destruct xs as [|y ys].
  - cbn [join tl forallb]. rewrite noDouble_free_prefix by assumption. reflexivity.
  - rewrite join_cons by discriminate. rewrite !append_assoc.
    rewrite noDouble_free_prefix by assumption.
    specialize (IH ltac:(discriminate) Hxs).
    change ("/" +:+ join "/" (y :: ys) +:+ "/")
      with (String slash (join "/" (y :: ys) +:+ "/")).
    cbn [noDoubleSlash]. rewrite IH. change (Ascii.eqb slash slash) with true.
    cbn [andb tl forallb]. f_equal.
    inversion Hxs as [|? ? Hy Hys]; subst.
    destruct ys as [|z zs].
    + cbn [join]. pose proof (startsWith_free y "" Hy) as Hsw.
      rewrite append_nil_r in Hsw. rewrite Hsw. now rewrite negb_involutive.
    + rewrite join_cons by discriminate. rewrite !append_assoc.
      rewrite startsWith_free by assumption. now rewrite negb_involutive.
Qed.

Lemma nonEmptyString_spec (s : string) : nonEmptyString s = true <-> s <> "".
Proof.
  unfold nonEmptyString. destruct (String.eqb_spec s ""); cbn; split; congruence.
Qed.

Lemma getAbsolutePath_parts (p : string) :
  getAbsolutePath p
  = join "/" (map replacePlaceholder
       (split slash (collapseSlashes (dir (parsePath p) +:+ "/" +:+ name (parsePath p))))).
Proof. reflexivity. Qed.

(** The normalized path in terms of the collapsed directory part [y]
    and the name [n]. *)
Lemma normalized_parts (d y n : string) :
  collapseSlashes (d +:+ "/") = y +:+ "/" -> allChars notSlash n = true ->
  join "/" (map replacePlaceholder (split slash (collapseSlashes (d +:+ "/" +:+ n))))
  = join "/" (map replacePlaceholder (split slash y)) +:+ "/" +:+ replacePlaceholder n.
Proof.
  intros Hy Hn. rewrite <- append_assoc, (collapse_append_free _ _ Hn), Hy.
  rewrite append_assoc. change ("/" +:+ n) with (String slash n).
  rewrite (split_last_part _ _ _ Hn), map_app. cbn [map].
  apply join_snoc. pose proof (split_nonempty slash y).
  destruct (split slash y); [congruence | discriminate].
Qed.

Lemma nonEmpty_tail_map (xs : list string) :
  forallb nonEmptyString (tl (map replacePlaceholder xs))
  = forallb nonEmptyString (tl xs).
Proof.
  destruct xs as [|x xs]; [reflexivity|]. cbn [map tl].
  induction xs as [|y ys IH]; [reflexivity|]. cbn [map forallb].
  now rewrite replacePlaceholder_nonEmpty, IH.
Qed.

Lemma map_replacePlaceholder_idempotent (xs : list string) :
  Forall (fun x => allChars notTerminator x = true) xs ->
  map replacePlaceholder (map replacePlaceholder xs) = map replacePlaceholder xs.
Proof.
  induction 1 as [|x xs Hx _ IH]; [reflexivity|]. cbn [map].
  now rewrite (replacePlaceholder_idempotent x Hx), IH.
Qed.

Lemma map_replacePlaceholder_free (xs : list string) :
  Forall (fun x => allChars notSlash x = true) xs ->
  Forall (fun x => allChars notSlash x = true) (map replacePlaceholder xs).
Proof.
  induction 1 as [|x xs Hx _ IH]; constructor; [|exact IH].
  now apply replacePlaceholder_free.
Qed.

(** A path [d/m] whose parts are stable under the replacement, with no
    adjacent separators and no extension, is its own normal form. *)
Lemma getAbsolutePath_stable (d m : string) :
  noDoubleSlash (d +:+ "/") = true ->
  map replacePlaceholder (split slash d) = split slash d ->
  m <> "" -> allChars notSlash m = true -> replacePlaceholder m = m ->
  ext (parsePath (d +:+ "/" +:+ m)) = "" ->
  getAbsolutePath (d +:+ "/" +:+ m) = d +:+ "/" +:+ m.
Proof.
  intros Hd Hparts Hm Hfree Hrm Hext.
  assert (Hparse : exists d', dir (parsePath (d +:+ "/" +:+ m)) = d'
            /\ name (parsePath (d +:+ "/" +:+ m)) = m
            /\ collapseSlashes (d' +:+ "/") = d +:+ "/").
  { destruct (String.eqb_spec d "") as [->|Hne].
    - cbn [String.append] in *.
      pose proof (parsePath_under_root m "" Hm Hfree eq_refl) as E.
      rewrite append_nil_r in E. change ("/" +:+ m) with (String "/" m) in E.
      rewrite E in Hext |- *. cbn [ext dir name] in *. exists "/".
      split; [reflexivity|]. split; [|reflexivity].
      pose proof (splitExt_append true m) as Hs. rewrite Hext, append_nil_r in Hs.
      exact Hs.
    - pose proof (parsePath_nested d m "" Hne Hm Hfree eq_refl) as E.
      rewrite append_nil_r in E.
      rewrite E in Hext |- *. cbn [ext dir name] in *. exists d.
      split; [reflexivity|]. split; [|now apply collapse_fix].
      pose proof (splitExt_append false m) as Hs. rewrite Hext, append_nil_r in Hs.
      exact Hs. }
  destruct Hparse as (d' & Hdir & Hname & Hcollapse).
  rewrite getAbsolutePath_parts, Hdir, Hname.
  rewrite (normalized_parts d' d m Hcollapse Hfree), Hparts, Hrm.
  change "/" with (String slash "") at 1. now rewrite join_split.
Qed.

(** One application reaches the normal form when it leaves no
    extension. *)
Lemma getAbsolutePath_normalizes (p : string) :
  name (parsePath p) <> "" ->
  allChars notSlash (name (parsePath p)) = true ->
  allChars notTerminator (dir (parsePath p)) = true ->
  allChars notTerminator (name (parsePath p)) = true ->
  ext (parsePath (getAbsolutePath p)) = "" ->
  getAbsolutePath (getAbsolutePath p) = getAbsolutePath p.
Proof.
  set (d := dir (parsePath p)). set (n := name (parsePath p)).
  intros Hn Hfree Htd Htn.
  destruct (collapse_snoc_slash d) as [y Hy].
  rewrite getAbsolutePath_parts. fold d n.
  rewrite (normalized_parts d y n Hy Hfree).
  assert (Hty : allChars notTerminator y = true).
  { assert (H : allChars notTerminator (y +:+ "/") = true).
    { rewrite <- Hy. apply collapse_allChars. rewrite allChars_append, Htd. reflexivity. }
    rewrite allChars_append in H. now apply andb_true_iff in H as [H _]. }
  pose proof (split_nonempty slash y) as Hys.
  pose proof (split_parts_free slash y) as Hyfree.
  assert (Hmne : map replacePlaceholder (split slash y) <> [])
    by (destruct (split slash y); [congruence | discriminate]).
  apply getAbsolutePath_stable.
  - rewrite noDouble_join, nonEmpty_tail_map;
      [|exact Hmne | now apply map_replacePlaceholder_free].
    rewrite <- (noDouble_join _ Hys Hyfree).
    change "/" with (String slash "") at 1. rewrite join_split, <- Hy.
    apply collapse_noDouble.
  - rewrite split_join; [|exact Hmne | now apply map_replacePlaceholder_free].
    apply map_replacePlaceholder_idempotent. now apply allChars_split.
  - apply nonEmptyString_spec. rewrite replacePlaceholder_nonEmpty.
    now apply nonEmptyString_spec.
  - now apply replacePlaceholder_free.
  - now apply replacePlaceholder_idempotent.
Qed.

Lemma splitExt_name_chars (p : ascii -> bool) (underRoot : bool) (seg : string) :
  allChars p seg = true -> allChars p (fst (splitExt underRoot seg)) = true.
Proof.
  intros H. rewrite <- (splitExt_append underRoot seg), allChars_append in H.
  now apply andb_true_iff in H as [H _].
Qed.

(** The two examples of the specification and their common normal
    form. *)
Example normalized_examples :
  getAbsolutePath "api/[id].ts" = "api/1"
  /\ getAbsolutePath "api/1.ts" = "api/1"
  /\ getAbsolutePath (getAbsolutePath "api/[id].ts") = getAbsolutePath "api/[id].ts"
  /\ getAbsolutePath (getAbsolutePath "api/1.ts") = getAbsolutePath "api/1.ts".
Proof. repeat split; reflexivity. Qed.

(** One application of the normalization to a path without line
    terminators reaches a fixed point when the result has no extension
    left. *)
Lemma getAbsolutePath_fixed (p : string) :
  allChars notTerminator p = true ->
  ext (parsePath (getAbsolutePath p)) = "" ->
  getAbsolutePath (getAbsolutePath p) = getAbsolutePath p.
Proof.
  intros Hp Hext.
  destruct (path_shape p) as [-> | trail -> Htrail | seg trail -> Hseg Hfree Htrail
                             | seg trail -> Hseg Hfree Htrail
                             | lead seg trail -> Hlead Hseg Hfree Htrail].
  - reflexivity.
  - rewrite !getAbsolutePath_parts, (parsePath_slashes _ Htrail). reflexivity.
  - rewrite allChars_append in Hp. apply andb_true_iff in Hp as [Hp _].
    apply getAbsolutePath_normalizes; [| | | |exact Hext];
      rewrite (parsePath_component _ _ Hseg Hfree Htrail); cbn [dir name].
    + now apply splitExt_parts.
    + now apply splitExt_parts.
    + reflexivity.
    + now apply splitExt_name_chars.
  - change ("/" +:+ seg +:+ trail) with (String "/" (seg +:+ trail)) in Hp.
    cbn [allChars] in Hp. apply andb_true_iff in Hp as [_ Hp].
    rewrite allChars_append in Hp. apply andb_true_iff in Hp as [Hp _].
    apply getAbsolutePath_normalizes; [| | | |exact Hext];
      rewrite (parsePath_under_root _ _ Hseg Hfree Htrail); cbn [dir name].
    + now apply splitExt_parts.
    + now apply splitExt_parts.
    + reflexivity.
    + now apply splitExt_name_chars.
  - rewrite allChars_append in Hp. apply andb_true_iff in Hp as [Hl Hp].
    change ("/" +:+ seg +:+ trail) with (String "/" (seg +:+ trail)) in Hp.
    cbn [allChars] in Hp. apply andb_true_iff in Hp as [_ Hp].
    rewrite allChars_append in Hp. apply andb_true_iff in Hp as [Hp _].
    apply getAbsolutePath_normalizes; [| | | |exact Hext];
      rewrite (parsePath_nested _ _ _ Hlead Hseg Hfree Htrail); cbn [dir name].
    + now apply splitExt_parts.
    + now apply splitExt_parts.
    + exact Hl.
    + now apply splitExt_name_chars.
Qed.

(** *** The extension of a path that is its own normal form *)

Lemma afterLastClose_length (s r : string) :
  afterLastClose s = Some r -> (String.length r < String.length s)%nat.
Proof.
  revert r. induction s as [|a s IH]; intros r H; [discriminate|].
  cbn in H. destruct (lineTerminator a); [discriminate|].
  destruct (afterLastClose s) as [r'|].
  - injection H as <-. specialize (IH r' eq_refl). cbn. lia.
  - destruct (Ascii.eqb a "]"); [|discriminate]. injection H as <-. cbn. lia.
Qed.

Lemma replacePlaceholder_length (s : string) :
  (String.length (replacePlaceholder s) <= String.length s)%nat.
Proof.
  induction s as [|a s IH]; [reflexivity|]. cbn [replacePlaceholder].
  destruct (Ascii.eqb a "[").
  - destruct (afterLastClose s) as [r|] eqn:E.
    + apply afterLastClose_length in E. cbn. lia.
    + cbn. lia.
  - cbn. lia.
Qed.

Lemma collapseSlashes_length (s : string) :
  (String.length (collapseSlashes s) <= String.length s)%nat.
Proof.
  induction s as [|a s IH]; [reflexivity|]. cbn [collapseSlashes].
  destruct (Ascii.eqb a slash).
  - destruct s as [|b s']; [reflexivity|].
    destruct (Ascii.eqb b slash); cbn [String.length] in *; lia.
  - cbn [String.length]. lia.
Qed.

Lemma join_replaced_length (xs : list string) :
  (String.length (join "/" (map replacePlaceholder xs))
   <= String.length (join "/" xs))%nat.
Proof.
  induction xs as [|x xs IH]; [reflexivity|].
  pose proof (replacePlaceholder_length x) as Hx.
  destruct xs as [|y ys]; [exact Hx|].
  change (map replacePlaceholder (x :: y :: ys))
    with (replacePlaceholder x :: map replacePlaceholder (y :: ys)).
  rewrite !join_cons by discriminate. rewrite !length_append. lia.
Qed.

Lemma splitExt_full (underRoot : bool) (seg : string) :
  (String.length seg <= String.length (fst (splitExt underRoot seg)))%nat ->
  snd (splitExt underRoot seg) = "".
Proof.
  intros H. pose proof (splitExt_append underRoot seg) as E.
  apply (f_equal String.length) in E. rewrite length_append in E.
  destruct (snd (splitExt underRoot seg)); [reflexivity | cbn in E; lia].
Qed.

(** A path that the normalization leaves unchanged has no extension. *)
Lemma fixed_path_ext (q : string) :
  getAbsolutePath q = q -> ext (parsePath q) = "".
Proof.
  rewrite getAbsolutePath_parts.
  destruct (path_shape q) as [-> | trail -> Htrail | seg trail -> Hseg Hfree Htrail
                             | seg trail -> Hseg Hfree Htrail
                             | lead seg trail -> Hlead Hseg Hfree Htrail].
  - reflexivity.
  - now rewrite (parsePath_slashes _ Htrail).
  - rewrite (parsePath_component _ _ Hseg Hfree Htrail). cbn [dir name ext].
    rewrite (normalized_parts "" "" _ eq_refl)
      by now apply splitExt_parts.
    destruct (allChars_notSlash_head seg Hseg Hfree) as (c & rest & -> & Hc).
    cbn. intros H. injection H as <- _. discriminate.
  - rewrite (parsePath_under_root _ _ Hseg Hfree Htrail). cbn [dir name ext].
    rewrite (normalized_parts "/" "" _ eq_refl)
      by now apply splitExt_parts.
    cbn [split map join String.append replacePlaceholder]. intros H.
    injection H as H. apply (f_equal String.length) in H.
    rewrite length_append in H.
    pose proof (replacePlaceholder_length (fst (splitExt true seg))).
    apply splitExt_full. lia.
  - rewrite (parsePath_nested _ _ _ Hlead Hseg Hfree Htrail). cbn [dir name ext].
    intros H. apply (f_equal String.length) in H.
    set (n := fst (splitExt false seg)) in *.
    assert (Hn : allChars notSlash n = true) by now apply splitExt_parts.
    destruct (collapse_snoc_slash lead) as [y Hy].
    rewrite (normalized_parts lead y n Hy Hn) in H.
    pose proof (collapseSlashes_length (lead +:+ "/")) as Hc. rewrite Hy in Hc.
    pose proof (join_replaced_length (split slash y)) as Hj.
    change "/" with (String slash "") in Hj at 2. rewrite join_split in Hj.
    pose proof (replacePlaceholder_length n).
    rewrite !length_append in *. cbn [String.length] in *.
    apply splitExt_full. fold n. lia.
Qed.

(** C3, as amended. On a path without line terminators a second
    normalization changes nothing exactly when the first one leaves no
    extension on the last segment; api/[id].ts and api/1.ts have the
    same normal form. *)
Theorem normalization_idempotent :
  (forall p : string,
      allChars notTerminator p = true ->
      getAbsolutePath (getAbsolutePath p) = getAbsolutePath p
      <-> ext (parsePath (getAbsolutePath p)) = "")
  /\ getAbsolutePath "api/[id].ts" = getAbsolutePath "api/1.ts".
Proof.
  split; [|reflexivity]. intros p Hp. split.
  - apply fixed_path_ext.
  - now apply getAbsolutePath_fixed.
Qed.

(** ** Conflicts inside one path *)

Lemma conflictLoop_none (segs : list string) (segments : gset string) :
  conflictLoop segs segments = None
  <-> List.NoDup (List.filter JsString.truthy (placeholderNames segs))
      /\ (forall n, In n (placeholderNames segs) -> n ∉ segments).
Proof.
  revert segments. induction segs as [|s rest IH]; intros segments.
  - cbn. split; [intros _; split; [constructor | intros n []] | reflexivity].
  - cbn [conflictLoop placeholderNames].
    destruct (getSegmentName s) as [n|]; [|apply IH].
    destruct (bool_decide_reflect (n ∈ segments)) as [Hin|Hin].
    + split; [discriminate|]. intros [_ H]. exfalso. apply (H n); [now left | exact Hin].
    + rewrite IH. unfold nameTruthy, optTruthy. cbn [List.filter].
      destruct (JsString.truthy n) eqn:Hn.
      * split.
        -- intros [Hnd Hall]. split.
           ++ constructor; [|exact Hnd]. intros Hmem.
              apply filter_In in Hmem as [Hmem _].
              apply (Hall n Hmem). apply elem_of_union_l, elem_of_singleton. reflexivity.
           ++ intros m [<-|Hm]; [exact Hin|].
              intros Hs. apply (Hall m Hm), elem_of_union_r, Hs.
        -- intros [Hnd Hall]. inversion Hnd as [|? ? Hnot Hnd']; subst. split; [exact Hnd'|].
           intros m Hm. assert (m <> n).
           { intros ->. apply Hnot. apply filter_In. auto. }
           specialize (Hall m (or_intror Hm)).
           intros [Hs|Hs]%elem_of_union; [|contradiction].
           apply elem_of_singleton in Hs. contradiction.
      * split.
        -- intros [Hnd Hall]. split; [exact Hnd|].
           intros m [<-|Hm]; [exact Hin | now apply Hall].
        -- intros [Hnd Hall]. split; [exact Hnd|]. intros m Hm. apply Hall. now right.
Qed.

Lemma conflictLoop_some (segs : list string) (segments : gset string) (n : string) :
  conflictLoop segs segments = Some n ->
  (n ∈ segments /\ In n (placeholderNames segs))
  \/ (n <> "" /\ exists pre mid post,
         placeholderNames segs = pre ++ n :: mid ++ n :: post).
Proof.
  revert segments. induction segs as [|s rest IH]; intros segments; [discriminate|].
  cbn [conflictLoop placeholderNames].
  destruct (getSegmentName s) as [m|]; [|apply IH].
  destruct (bool_decide_reflect (m ∈ segments)) as [Hin|Hin].
  - intros [= ->]. left. split; [exact Hin | now left].
  - intros H. apply IH in H as [[Hn Hrest] | (Hn & pre & mid & post & E)].
    + unfold nameTruthy, optTruthy in Hn. destruct (JsString.truthy m) eqn:Hm.
      * apply elem_of_union in Hn as [Hn|Hn].
        -- apply elem_of_singleton in Hn as ->. right. split.
           ++ intros ->. discriminate.
           ++ apply in_split in Hrest as (mid & post & ->). now exists [], mid, post.
        -- left. split; [exact Hn | now right].
      * left. split; [exact Hn | now right].
    + right. split; [exact Hn|]. exists (m :: pre), mid, post. now rewrite E.
Qed.

(** X7. A path has no conflicting segment exactly when its non-empty
    placeholder names are pairwise different; the name reported is a
    non-empty placeholder name that occurs twice. *)
Theorem conflicting_segment_spec (filePath : string) :
  (getConflictingSegment filePath = None
   <-> List.NoDup (List.filter JsString.truthy (placeholderNames (split slash filePath))))
  /\ (forall n : string,
         getConflictingSegment filePath = Some n ->
         n <> ""
         /\ exists pre mid post,
             placeholderNames (split slash filePath) = pre ++ n :: mid ++ n :: post).
Proof.
  unfold getConflictingSegment. split.
  - rewrite conflictLoop_none. split; [now intros [H _]|].
    intros H. split; [exact H | intros n _; apply not_elem_of_empty].
  - intros n H. apply conflictLoop_some in H as [[H _]|H]; [|exact H].
    exfalso. exact (not_elem_of_empty n H).
Qed.

(** ** Partial matches of two paths *)

Lemma optStringEqb_spec (a b : option string) : optStringEqb a b = true <-> a = b.
Proof.
  destruct a as [x|], b as [y|]; cbn; try (split; congruence).
  rewrite String.eqb_eq. split; congruence.
Qed.

Lemma optStringEqb_sym (a b : option string) : optStringEqb a b = optStringEqb b a.
Proof. destruct a, b; cbn; try reflexivity. apply String.eqb_sym. Qed.

Lemma partialLoop_sym (xs ys : list string) : partialLoop xs ys = partialLoop ys xs.
Proof.
  revert ys. induction xs as [|x xs IH]; intros [|y ys]; try reflexivity.
  cbn [partialLoop]. rewrite (String.eqb_sym x y), (optStringEqb_sym (getSegmentName y)).
  rewrite (orb_comm (negb (nameTruthy (getSegmentName y)))). now rewrite IH.
Qed.

Lemma partialLoop_refl (xs : list string) : partialLoop xs xs = false.
Proof.
  induction xs as [|x xs IH]; [reflexivity|]. cbn [partialLoop].
  rewrite String.eqb_refl. cbn [negb andb].
  now rewrite (proj2 (optStringEqb_spec _ _) eq_refl).
Qed.

Lemma sameSegment_sym (a b : string) : sameSegment a b -> sameSegment b a.
Proof. intros [->|(n & Hn & Ha & Hb)]; [now left | right; eauto]. Qed.

Lemma nameTruthy_spec (o : option string) :
  nameTruthy o = true <-> exists n, o = Some n /\ n <> "".
Proof.
  unfold nameTruthy, optTruthy. destruct o as [n|].
  - rewrite truthy_spec. split; [eauto | now intros (? & [= <-] & ?)].
  - split; [discriminate | now intros (? & ? & _)].
Qed.

(** The loop answers true exactly at the first position where both
    segments are placeholders with different non-empty names, all
    earlier positions holding the same segment or the same name. *)
Lemma partialLoop_spec (short long : list string) :
  partialLoop short long = true
  <-> exists preS preL s l postS postL nS nL,
      short = preS ++ s :: postS /\ long = preL ++ l :: postL
      /\ Forall2 sameSegment preS preL
      /\ getSegmentName s = Some nS /\ getSegmentName l = Some nL
      /\ nS <> "" /\ nL <> "" /\ nS <> nL.
Proof.
  revert long. induction short as [|s short IH]; intros long.
  { split; [discriminate|]. intros (preS & ? & ? & ? & ? & ? & ? & ? & E & _).
    destruct preS; discriminate. }
  destruct long as [|l long].
  { split; [discriminate|]. intros (? & preL & ? & ? & ? & ? & ? & ? & _ & E & _).
    destruct preL; discriminate. }
  cbn [partialLoop].
  destruct (String.eqb_spec s l) as [->|Hne]; cbn [negb andb].
  - rewrite (proj2 (optStringEqb_spec _ _) eq_refl). cbn [negb]. rewrite IH. split.
    + intros (preS & preL & s' & l' & postS & postL & nS & nL & -> & -> & HF & H).
      exists (l :: preS), (l :: preL), s', l', postS, postL, nS, nL.
      repeat split; try apply H. constructor; [now left | exact HF].
    + intros (preS & preL & s' & l' & postS & postL & nS & nL & ES & EL & HF & HS & HL & H).
      destruct HF as [|a b preS preL Hab HF].
      * cbn in ES, EL. injection ES as <- <-. injection EL as <- <-.
        rewrite HS in HL. injection HL as <-. now destruct H as (_ & _ & H).
      * cbn in ES, EL. injection ES as <- ->. injection EL as <- ->.
        exists preS, preL, s', l', postS, postL, nS, nL. now repeat split.
  - destruct (nameTruthy (getSegmentName l)) eqn:HtL;
      [destruct (nameTruthy (getSegmentName s)) eqn:HtS|]; cbn [negb orb].
    + apply nameTruthy_spec in HtL as (nL & HL & HnL).
      apply nameTruthy_spec in HtS as (nS & HS & HnS).
      rewrite HL, HS. cbn [optStringEqb].
      destruct (String.eqb_spec nL nS) as [->|Hnames]; cbn [negb].
      * rewrite IH. split.
        -- intros (preS & preL & s' & l' & postS & postL & nS' & nL' & -> & -> & HF & H).
           exists (s :: preS), (l :: preL), s', l', postS, postL, nS', nL'.
           repeat split; try apply H. constructor; [|exact HF]. right. eauto.
        -- intros (preS & preL & s' & l' & postS & postL & nS' & nL' & ES & EL & HF
                   & HS' & HL' & H).
           destruct HF as [|a b preS preL Hab HF].
           ++ cbn in ES, EL. injection ES as <- <-. injection EL as <- <-.
              rewrite HS in HS'. rewrite HL in HL'. injection HS' as <-. injection HL' as <-.
              now destruct H as (_ & _ & H).
           ++ cbn in ES, EL. injection ES as <- ->. injection EL as <- ->.
              exists preS, preL, s', l', postS, postL, nS', nL'. now repeat split.
      * split; [intros _|reflexivity].
        exists [], [], s, l, short, long, nS, nL. repeat split; auto.
    + split; [discriminate|].
      intros (preS & preL & s' & l' & postS & postL & nS' & nL' & ES & EL & HF
              & HS' & HL' & HnS & HnL & _).
      destruct HF as [|a b preS preL Hab HF].
      * cbn in ES, EL. injection ES as <- <-. injection EL as <- <-.
        assert (nameTruthy (getSegmentName s) = true) by (apply nameTruthy_spec; eauto).
        congruence.
      * cbn in ES, EL. injection ES as <- ->. injection EL as <- ->.
        destruct Hab as [->|(n & Hn & Ha & Hb)]; [congruence|].
        assert (nameTruthy (getSegmentName s) = true) by (apply nameTruthy_spec; eauto).
        congruence.
    + split; [discriminate|].
      intros (preS & preL & s' & l' & postS & postL & nS' & nL' & ES & EL & HF
              & HS' & HL' & HnS & HnL & _).
      destruct HF as [|a b preS preL Hab HF].
      * cbn in ES, EL. injection ES as <- <-. injection EL as <- <-.
        assert (nameTruthy (getSegmentName l) = true) by (apply nameTruthy_spec; eauto).
        congruence.
      * cbn in ES, EL. injection ES as <- ->. injection EL as <- ->.
        destruct Hab as [->|(n & Hn & Ha & Hb)]; [congruence|].
        assert (nameTruthy (getSegmentName l) = true) by (apply nameTruthy_spec; eauto).
        congruence.
Qed.

(** X8. The partial match does not depend on the order of the two paths,
    and no path partially matches itself. *)
Theorem partiallyMatches_symmetric (pathA pathB : string) :
  partiallyMatches pathA pathB = partiallyMatches pathB pathA
  /\ partiallyMatches pathA pathA = false.
Proof.
  unfold partiallyMatches. cbv zeta. split.
  - destruct (Nat.ltb_spec (List.length (split slash pathB)) (List.length (split slash pathA)));
      destruct (Nat.ltb_spec (List.length (split slash pathA)) (List.length (split slash pathB)));
      try reflexivity; try lia; apply partialLoop_sym.
  - rewrite Nat.ltb_irrefl. apply partialLoop_refl.
Qed.

(** X9. Two paths partially match exactly when, at some position, both
    have placeholders with different non-empty names and, at every
    earlier position, the same segment or placeholders with the same
    non-empty name. *)
Theorem partiallyMatches_spec (pathA pathB : string) :
  partiallyMatches pathA pathB = true
  <-> exists preA preB segmentA segmentB postA postB nameA nameB,
      split slash pathA = preA ++ segmentA :: postA
      /\ split slash pathB = preB ++ segmentB :: postB
      /\ Forall2 sameSegment preA preB
      /\ getSegmentName segmentA = Some nameA /\ getSegmentName segmentB = Some nameB
      /\ nameA <> "" /\ nameB <> "" /\ nameA <> nameB.
Proof.
  unfold partiallyMatches. cbv zeta.
  destruct (List.length (split slash pathB) <? List.length (split slash pathA))%nat.
  - rewrite partialLoop_spec. split.
    + intros (preS & preL & s & l & postS & postL & nS & nL & ES & EL & HF & HS & HL
              & HnS & HnL & Hne).
      exists preL, preS, l, s, postL, postS, nL, nS. repeat split; auto.
      clear -HF. induction HF; constructor; auto using sameSegment_sym.
    + intros (preA & preB & sA & sB & postA & postB & nA & nB & EA & EB & HF & HA & HB
              & HnA & HnB & Hne).
      exists preB, preA, sB, sA, postB, postA, nB, nA. repeat split; auto.
      clear -HF. induction HF; constructor; auto using sameSegment_sym.
  - apply partialLoop_spec.
Qed.

(** ** Conflicts between paths *)

Lemma coherentCache_empty : coherentCache ∅.
Proof. intros file p H. rewrite lookup_empty in H. discriminate. Qed.

Lemma coherentCache_insert (file : string) (cache : gmap string string) :
  coherentCache cache -> coherentCache (<[file := getAbsolutePath file]> cache).
Proof.
  intros H f p. destruct (decide (file = f)) as [->|Hne].
  - rewrite lookup_insert_eq. now intros [= <-].
  - rewrite lookup_insert_ne by exact Hne. apply H.
Qed.

Lemma cachedAbsolutePath_coherent (file : string) (cache : gmap string string) :
  coherentCache cache ->
  fst (cachedAbsolutePath file cache) = getAbsolutePath file
  /\ coherentCache (snd (cachedAbsolutePath file cache)).
Proof.
  intros H. unfold cachedAbsolutePath.
  destruct (cache !! file) as [p|] eqn:E.
  - destruct (JsString.truthy p); cbn [fst snd].
    + split; [now apply H | exact H].
    + split; [reflexivity | now apply coherentCache_insert].
  - cbn [fst snd]. split; [reflexivity | now apply coherentCache_insert].
Qed.

Lemma occurrencesLoop_spec (fileName : string) (files : list string)
    (cache : gmap string string) (prev : list string) :
  coherentCache cache ->
  fst (occurrencesLoop fileName (getAbsolutePath fileName) files cache prev)
  = prev ++ List.filter (conflictsWith fileName) files
  /\ coherentCache (snd (occurrencesLoop fileName (getAbsolutePath fileName) files cache prev)).
Proof.
  revert cache prev. induction files as [|file rest IH]; intros cache prev H.
  - cbn. now rewrite app_nil_r.
  - cbn [occurrencesLoop List.filter]. unfold conflictsWith at 1.
    destruct (String.eqb file fileName); cbn [negb andb]; [now apply IH|].
    destruct (cachedAbsolutePath_coherent file cache H) as [Hp Hc].
    destruct (cachedAbsolutePath file cache) as [absolutePath cache1].
    cbn [fst snd] in Hp, Hc. subst absolutePath.
    destruct (String.eqb (getAbsolutePath file) (getAbsolutePath fileName)); cbn [orb].
    + destruct (IH cache1 (prev ++ [file]) Hc) as [E Hc']. split; [|exact Hc'].
      rewrite E, <- app_assoc. reflexivity.
    + destruct (partiallyMatches fileName file).
      * destruct (IH cache1 (prev ++ [file]) Hc) as [E Hc']. split; [|exact Hc'].
        rewrite E, <- app_assoc. reflexivity.
      * now apply IH.
Qed.

Lemma pathOccurrences_coherent (fileName : string) (files : list string)
    (cache : gmap string string) :
  coherentCache cache ->
  fst (pathOccurrences fileName files cache) = List.filter (conflictsWith fileName) files
  /\ coherentCache (snd (pathOccurrences fileName files cache)).
Proof.
  intros H. unfold pathOccurrences.
  destruct (cachedAbsolutePath_coherent fileName cache H) as [Hp Hc].
  destruct (cachedAbsolutePath fileName cache) as [currentAbsolutePath cache1].
  cbn [fst snd] in Hp, Hc. subst currentAbsolutePath.
  exact (occurrencesLoop_spec fileName files cache1 [] Hc).
Qed.

(** X10. With a cache that holds only normalized paths, the occurrences
    of a file are the other files, in the order of the list, with the
    same normalized path or a partial match, and the cache still holds
    only normalized paths. *)
Theorem pathOccurrences_spec (fileName : string) (files : list string)
    (cache : gmap string string) :
  coherentCache cache ->
  fst (pathOccurrences fileName files cache) = List.filter (conflictsWith fileName) files
  /\ coherentCache (snd (pathOccurrences fileName files cache)).
Proof. exact (pathOccurrences_coherent fileName files cache). Qed.

(** ** The order of the files *)

Lemma countSegments_snoc (segments : list string) (segment : string) (k : nat) :
  fold_left countSegments (segments ++ [segment]) k
  = countSegments (fold_left countSegments segments k) segment.
Proof. now rewrite fold_left_app. Qed.

Lemma countSegments_run (segments : list string) :
  fold_left countSegments segments 0%nat = trailingPlaceholders segments.
Proof.
  unfold trailingPlaceholders.
  induction segments as [|segment segments IH] using rev_ind; [reflexivity|].
  rewrite countSegments_snoc, rev_app_distr. cbn [rev app leadingRun].
  unfold countSegments at 1. rewrite IH.
  destruct (nameTruthy (getSegmentName segment)); [lia | reflexivity].
Qed.

(** X15. The count that [countSegments] accumulates over the segments of
    a path is the number of placeholder segments in a row at its end:
    every other segment resets it. *)
Theorem countSegments_trailing (segments : list string) :
  fold_left countSegments segments 0%nat = trailingPlaceholders segments.
Proof. exact (countSegments_run segments). Qed.

Lemma sortFilesBySegmentCount_cases (fileA fileB : string) :
  let tA := trailingPlaceholders (split slash fileA) in
  let tB := trailingPlaceholders (split slash fileB) in
  ((sortFilesBySegmentCount fileA fileB = -1)%Z
   /\ ((segmentCount fileB < segmentCount fileA)%nat
       \/ (segmentCount fileA = segmentCount fileB /\ (tA < tB)%nat)))
  \/ ((sortFilesBySegmentCount fileA fileB = 0)%Z
      /\ segmentCount fileA = segmentCount fileB /\ tA = tB)
  \/ ((sortFilesBySegmentCount fileA fileB = 1)%Z
      /\ ((segmentCount fileA < segmentCount fileB)%nat
          \/ (segmentCount fileA = segmentCount fileB /\ (tB < tA)%nat))).
Proof.
  cbv zeta. unfold sortFilesBySegmentCount, segmentCount. cbv zeta.
  rewrite !countSegments_run.
  destruct (Nat.ltb_spec (List.length (split slash fileB)) (List.length (split slash fileA)));
    [left; split; [reflexivity | lia]|].
  destruct (Nat.ltb_spec (List.length (split slash fileA)) (List.length (split slash fileB)));
    [right; right; split; [reflexivity | lia]|].
  destruct (Nat.ltb_spec (trailingPlaceholders (split slash fileB))
                         (trailingPlaceholders (split slash fileA)));
    [right; right; split; [reflexivity | lia]|].
  destruct (Nat.ltb_spec (trailingPlaceholders (split slash fileA))
                         (trailingPlaceholders (split slash fileB)));
    [left; split; [reflexivity | lia]|].
  right; left. split; [reflexivity | lia].
Qed.

Lemma segmentOrder_spec (fileA fileB : string) :
  (sortFilesBySegmentCount fileA fileB <= 0)%Z <-> segmentOrder fileA fileB.
Proof.
  unfold segmentOrder.
  destruct (sortFilesBySegmentCount_cases fileA fileB) as [[E H]|[[E H]|[E H]]];
    cbv zeta in H; rewrite E; split; intros; lia.
Qed.

Lemma sortFilesBySegmentCount_antisym (fileA fileB : string) :
  sortFilesBySegmentCount fileB fileA = (- sortFilesBySegmentCount fileA fileB)%Z.
Proof.
  destruct (sortFilesBySegmentCount_cases fileA fileB) as [[E H]|[[E H]|[E H]]];
    destruct (sortFilesBySegmentCount_cases fileB fileA) as [[E' H']|[[E' H']|[E' H']]];
    cbv zeta in H, H'; rewrite E, E'; lia.
Qed.

Lemma segmentOrder_trans (a b c : string) :
  segmentOrder a b -> segmentOrder b c -> segmentOrder a c.
Proof. unfold segmentOrder. lia. Qed.

(** X16. The comparator by segment count: negative exactly for more
    segments, or as many and fewer placeholders at the end; zero exactly
    when both agree; negated when the arguments are swapped; and
    transitive. *)
Theorem sortFilesBySegmentCount_order (fileA fileB fileC : string) :
  ((sortFilesBySegmentCount fileA fileB < 0)%Z
   <-> (segmentCount fileB < segmentCount fileA)%nat
       \/ (segmentCount fileA = segmentCount fileB
           /\ (trailingPlaceholders (split slash fileA)
               < trailingPlaceholders (split slash fileB))%nat))
  /\ ((sortFilesBySegmentCount fileA fileB = 0)%Z
      <-> segmentCount fileA = segmentCount fileB
          /\ trailingPlaceholders (split slash fileA)
             = trailingPlaceholders (split slash fileB))
  /\ sortFilesBySegmentCount fileB fileA = (- sortFilesBySegmentCount fileA fileB)%Z
  /\ ((sortFilesBySegmentCount fileA fileB <= 0)%Z ->
      (sortFilesBySegmentCount fileB fileC <= 0)%Z ->
      (sortFilesBySegmentCount fileA fileC <= 0)%Z).
Proof.
  split; [|split; [|split]].
  - destruct (sortFilesBySegmentCount_cases fileA fileB) as [[E H]|[[E H]|[E H]]];
      cbv zeta in H; rewrite E; split; intros; lia.
  - destruct (sortFilesBySegmentCount_cases fileA fileB) as [[E H]|[[E H]|[E H]]];
      cbv zeta in H; rewrite E; split; intros; lia.
  - apply sortFilesBySegmentCount_antisym.
  - rewrite !segmentOrder_spec. apply segmentOrder_trans.
Qed.

(** *** The sort *)

Section SortProperties.
Context {A : Type} (cmp : A -> A -> Z).

Lemma sortInsert_perm (x : A) (l : list A) : Permutation (sortInsert cmp x l) (x :: l).
Proof.
  induction l as [|y l IH]; [reflexivity|]. cbn [sortInsert].
  destruct (cmp x y <? 0)%Z; [reflexivity|].
  rewrite IH. apply perm_swap.
Qed.

Lemma sort_fold_perm (l acc : list A) :
  Permutation (fold_left (fun acc x => sortInsert cmp x acc) l acc) (acc ++ l).
Proof.
  revert acc. induction l as [|x l IH]; intros acc; [now rewrite app_nil_r|].
  cbn [fold_left]. rewrite IH, sortInsert_perm.
  cbn [app]. apply Permutation_middle.
Qed.

Lemma sort_perm (l : list A) : Permutation (sort cmp l) l.
Proof. unfold sort. now rewrite sort_fold_perm. Qed.

Variable le : A -> A -> Prop.
Hypothesis le_spec : forall a b, (cmp a b <= 0)%Z <-> le a b.
Hypothesis le_trans : forall a b c, le a b -> le b c -> le a c.
Hypothesis cmp_antisym : forall a b, cmp b a = (- cmp a b)%Z.

Lemma sortInsert_sorted (x : A) (l : list A) :
  ForallOrdPairs le l -> ForallOrdPairs le (sortInsert cmp x l).
Proof.
  induction 1 as [|y l Hy Hl IH]; [repeat constructor|]. cbn [sortInsert].
  destruct (Z.ltb_spec (cmp x y) 0) as [Hlt|Hge].
  - assert (Hxy : le x y) by (apply le_spec; lia).
    constructor; [|now constructor]. constructor; [exact Hxy|].
    eapply Forall_impl; [exact Hy|]. intros z Hz. cbn in Hz. eauto.
  - constructor; [|exact IH].
    assert (Hyx : le y x) by (apply le_spec; rewrite cmp_antisym; lia).
    eapply Permutation_Forall; [symmetry; apply sortInsert_perm|].
    now constructor.
Qed.

Lemma sort_fold_sorted (l acc : list A) :
  ForallOrdPairs le acc ->
  ForallOrdPairs le (fold_left (fun acc x => sortInsert cmp x acc) l acc).
Proof.
  revert acc. induction l as [|x l IH]; intros acc H; [exact H|].
  cbn [fold_left]. apply IH. now apply sortInsert_sorted.
Qed.

Lemma sort_sorted (l : list A) : ForallOrdPairs le (sort cmp l).
Proof. apply sort_fold_sorted. constructor. Qed.

End SortProperties.

(** ** Detection from a list of builders *)

Lemma dedupe_In (x : string) (xs seen : list string) :
  In x (dedupe seen xs) <-> In x xs /\ ~ In x seen.
Proof.
  revert seen. induction xs as [|y xs IH]; intros seen; [cbn; tauto|].
  cbn [dedupe]. destruct (existsb (String.eqb y) seen) eqn:E.
  - rewrite IH. apply existsb_exists in E as (z & Hz & Hyz).
    apply String.eqb_eq in Hyz. subst z. cbn [In]. split; [tauto|].
    intros [[->|H] Hn]; [contradiction | tauto].
  - cbn [In]. rewrite IH. cbn [In].
    assert (Hy : ~ In y seen).
    { intros H. apply Bool.not_true_iff_false in E. apply E.
      apply existsb_exists. exists y. split; [exact H | apply String.eqb_refl]. }
    destruct (String.eqb_spec y x) as [->|Hne]; [tauto|]. tauto.
Qed.

Lemma dedupe_NoDup (xs seen : list string) : List.NoDup (dedupe seen xs).
Proof.
  revert seen. induction xs as [|y xs IH]; intros seen; [constructor|].
  cbn [dedupe]. destruct (existsb (String.eqb y) seen); [apply IH|].
  constructor; [|apply IH]. rewrite dedupe_In. cbn [In]. tauto.
Qed.

Lemma startsWith_truthy (s p : string) :
  p <> "" -> startsWith s p = true -> JsString.truthy s = true.
Proof. destruct p; [congruence|]. now destruct s. Qed.

Lemma detectApiExtensions_members (builders : list Builder) :
  (forall e : string,
      In e (detectApiExtensions builders)
      <-> e <> ""
          /\ exists b, In b builders
                       /\ configZero (config b) = true
                       /\ startsWith (src b) "api/" = true
                       /\ extname (src b) = e)
  /\ List.NoDup (detectApiExtensions builders).
Proof.
  unfold detectApiExtensions. split; [|apply dedupe_NoDup].
  intros e. rewrite dedupe_In, filter_In, in_map_iff, truthy_spec. split.
  - intros [[(b & <- & Hb) He] _]. apply filter_In in Hb as [Hin Hb].
    apply andb_true_iff in Hb as [Hb Hs]. apply andb_true_iff in Hb as [Hz _].
    split; [exact He|]. now exists b.
  - intros (He & b & Hin & Hz & Hs & <-). split; [|intros []]. split; [|exact He].
    exists b. split; [reflexivity|]. apply filter_In. split; [exact Hin|].
    rewrite Hz, Hs, (startsWith_truthy (src b) "api/"); [reflexivity | discriminate | exact Hs].
Qed.

(** X18. The API extensions are exactly the non-empty extensions of the
    sources of the zero-config builders under api/, each listed once. *)
Theorem detectApiExtensions_spec (builders : list Builder) :
  (forall e : string,
      In e (detectApiExtensions builders)
      <-> e <> ""
          /\ exists b, In b builders
                       /\ configZero (config b) = true
                       /\ startsWith (src b) "api/" = true
                       /\ extname (src b) = e)
  /\ List.NoDup (detectApiExtensions builders).
Proof. exact (detectApiExtensions_members builders). Qed.

Lemma detectApiDirectory_cases (builders : list Builder) :
  (detectApiDirectory builders = Some "api"
   <-> exists b, In b builders
                 /\ configZero (config b) = true /\ startsWith (src b) "api/" = true)
  /\ (detectApiDirectory builders = None
      <-> forall b, In b builders ->
            configZero (config b) = false \/ startsWith (src b) "api/" = false)
  /\ (detectApiExtensions builders <> [] -> detectApiDirectory builders = Some "api").
Proof.
  assert (Hsome : detectApiDirectory builders = Some "api"
            <-> exists b, In b builders
                 /\ configZero (config b) = true /\ startsWith (src b) "api/" = true).
  { unfold detectApiDirectory. cbv zeta.
    destruct (existsb _ builders) eqn:E.
    - apply existsb_exists in E as (b & Hin & Hb). apply andb_true_iff in Hb.
      split; [intros _; now exists b | reflexivity].
    - split; [discriminate|]. intros (b & Hin & Hz & Hs). exfalso.
      apply Bool.not_true_iff_false in E. apply E. apply existsb_exists.
      exists b. now rewrite Hz, Hs. }
  split; [exact Hsome|]. split.
  - split.
    + intros Hnone b Hin.
      destruct (configZero (config b)) eqn:Hz; [|now left].
      destruct (startsWith (src b) "api/") eqn:Hs; [|now right].
      assert (detectApiDirectory builders = Some "api") by (apply Hsome; now exists b).
      congruence.
    + intros Hall. unfold detectApiDirectory. cbv zeta.
      destruct (existsb _ builders) eqn:E; [|reflexivity].
      apply existsb_exists in E as (b & Hin & Hb). apply andb_true_iff in Hb as [Hz Hs].
      destruct (Hall b Hin); congruence.
  - intros Hne. apply Hsome.
    destruct (detectApiExtensions builders) as [|e rest] eqn:E; [congruence|].
    destruct (detectApiExtensions_members builders) as [Hspec _].
    destruct (proj1 (Hspec e)) as (_ & b & Hb); [rewrite E; now left|].
    exists b. tauto.
Qed.

(** X19. The API directory is api exactly when some zero-config builder
    has its source under api/, and there is none otherwise; it is api
    whenever there is an API extension. *)
Theorem detectApiDirectory_spec (builders : list Builder) :
  (detectApiDirectory builders = Some "api"
   <-> exists b, In b builders
                 /\ configZero (config b) = true /\ startsWith (src b) "api/" = true)
  /\ (detectApiDirectory builders = None
      <-> forall b, In b builders ->
            configZero (config b) = false \/ startsWith (src b) "api/" = false)
  /\ (detectApiExtensions builders <> [] -> detectApiDirectory builders = Some "api").
Proof. exact (detectApiDirectory_cases builders). Qed.

(** *** The output directory *)

Lemma replaceFirst_glob (out : string) :
  allChars (notChar "*") out = true ->
  replaceFirst "/**/*" "" (out +:+ "/**/*") = out.
Proof.
  induction out as [|c out IH]; [reflexivity|]. cbn [allChars]. intros H.
  apply andb_true_iff in H as [Hc Hout].
  cbn [String.append replaceFirst].
  assert (Hstart : startsWith (String c (out +:+ "/**/*")) "/**/*" = false).
  { cbn [startsWith]. destruct (Ascii.eqb "/" c); [|reflexivity]. cbn [andb].
    destruct out as [|d out']; [reflexivity|]. cbn [String.append allChars] in *.
    apply andb_true_iff in Hout as [Hd _]. unfold notChar in Hd.
    apply negb_true_iff in Hd. rewrite Ascii.eqb_sym in Hd. now rewrite Hd. }
  rewrite Hstart. now rewrite IH.
Qed.

Lemma publicGlobTest_glob (out : string) :
  allChars notTerminator out = true -> publicGlobTest (out +:+ "/**/*") = true.
Proof.
  induction out as [|c out IH]; [reflexivity|]. cbn [allChars]. intros H.
  apply andb_true_iff in H as [Hc Hout]. cbn [String.append publicGlobTest].
  unfold notTerminator in Hc. rewrite Hc, (IH Hout). apply orb_true_r.
Qed.

Lemma find_skip {A : Type} (p : A -> bool) (before : list A) (x : A) (after : list A) :
  Forall (fun y => p y = false) before -> p x = true ->
  find p (before ++ x :: after) = Some x.
Proof.
  induction 1 as [|y before Hy _ IH]; intros Hx; cbn [app find].
  - now rewrite Hx.
  - rewrite Hy. now apply IH.
Qed.

Lemma find_none_app {A : Type} (p : A -> bool) (l : list A) :
  Forall (fun y => p y = false) l -> find p l = None.
Proof. induction 1 as [|y l Hy _ IH]; [reflexivity|]. cbn. now rewrite Hy. Qed.

Lemma detectOutputDirectory_public
    (before after : list Builder) (usedOutputDirectory : string) :
  Forall (fun b => useIs b "@now/static" = false) before ->
  allChars notTerminator usedOutputDirectory = true ->
  allChars (notChar "*") usedOutputDirectory = true ->
  detectOutputDirectory (before ++ staticPublicBuilder usedOutputDirectory :: after)
  = Some usedOutputDirectory
  /\ detectOutputDirectory (before ++ [staticRootBuilder]) = None.
Proof.
  intros Hbefore Hterm Hstar. unfold detectOutputDirectory, getPublicBuilder. split.
  - rewrite (find_skip _ before (staticPublicBuilder usedOutputDirectory) after).
    + cbn [staticPublicBuilder src]. now rewrite replaceFirst_glob.
    + eapply Forall_impl; [exact Hbefore|]. intros b Hb. cbn in Hb. now rewrite Hb.
    + cbn [staticPublicBuilder src config configZero zeroConfig].
      rewrite publicGlobTest_glob by exact Hterm. reflexivity.
  - rewrite find_none_app; [reflexivity|]. apply Forall_app. split.
    + eapply Forall_impl; [exact Hbefore|]. intros b Hb. cbn in Hb. now rewrite Hb.
    + constructor; [reflexivity | constructor].
Qed.

(** X20. The static builder of an output directory, first among the
    static builders, gives the directory back, provided the directory
    holds no asterisk and no line terminator; the static builder of the
    project root gives none. *)
Theorem detectOutputDirectory_static
    (before after : list Builder) (usedOutputDirectory : string) :
  Forall (fun b => useIs b "@now/static" = false) before ->
  allChars notTerminator usedOutputDirectory = true ->
  allChars (notChar "*") usedOutputDirectory = true ->
  detectOutputDirectory (before ++ staticPublicBuilder usedOutputDirectory :: after)
  = Some usedOutputDirectory
  /\ detectOutputDirectory (before ++ [staticRootBuilder]) = None.
Proof.
  exact (detectOutputDirectory_public
           before after usedOutputDirectory).
Qed.

(** ** Builders of single files and of the frontend *)

Lemma find_split {A : Type} (p : A -> bool) (l : list A) (x : A) :
  find p l = Some x
  <-> exists pre post, l = pre ++ x :: post /\ p x = true
                       /\ Forall (fun y => p y = false) pre.
Proof.
  split.
  - induction l as [|y l IH]; [discriminate|]. cbn [find].
    destruct (p y) eqn:E.
    + intros [= ->]. exists [], l. repeat split; [exact E | constructor].
    + intros H. destruct (IH H) as (pre & post & -> & Hx & Hpre).
      exists (y :: pre), post. repeat split; [exact Hx | now constructor].
  - intros (pre & post & -> & Hx & Hpre). now apply find_skip.
Qed.

Section BuilderProperties.

Variable minimatch : string -> string -> bool.

Local Abbreviation getFunction' := (getFunction minimatch).
Local Abbreviation maybeGetApiBuilder' := (maybeGetApiBuilder minimatch).

(** X2. The function entry of a file is the first one, in the order in
    which the keys of the function map are listed, whose key is the file
    name or matches it as a glob, provided the key is not empty. *)
Theorem getFunction_first (fileName : string) (options : Options)
    (key : string) (func : JsValue) :
  getFunction' fileName options = Some (key, func)
  <-> key <> ""
      /\ exists pre post,
          optionFunctions options = pre ++ (key, func) :: post
          /\ (key = fileName \/ minimatch fileName key = true)
          /\ Forall (fun kv => fst kv <> fileName /\ minimatch fileName (fst kv) = false) pre.
Proof.
  unfold getFunction. cbv zeta.
  set (p := fun kv : string * JsValue => String.eqb (fst kv) fileName || minimatch fileName (fst kv)).
  assert (Hp : forall kv, p kv = false <-> fst kv <> fileName /\ minimatch fileName (fst kv) = false).
  { intros kv. unfold p. rewrite orb_false_iff, String.eqb_neq. tauto. }
  assert (Hfind : match optionFunctions options with
                  | [] => None
                  | _ :: _ =>
                      match find p (optionFunctions options) with
                      | Some (k, f) => if JsString.truthy k then Some (k, f) else None
                      | None => None
                      end
                  end
                  = match find p (optionFunctions options) with
                    | Some (k, f) => if JsString.truthy k then Some (k, f) else None
                    | None => None
                    end) by now destruct (optionFunctions options).
  rewrite Hfind. clear Hfind. split.
  - destruct (find p (optionFunctions options)) as [[k f]|] eqn:E; [|discriminate].
    destruct (JsString.truthy k) eqn:Hk; [|discriminate]. intros [= -> ->].
    apply truthy_spec in Hk. split; [exact Hk|].
    apply find_split in E as (pre & post & E & Hx & Hpre). exists pre, post.
    split; [exact E|]. split.
    + unfold p in Hx. cbn [fst] in Hx. apply orb_true_iff in Hx as [Hx|Hx]; [|now right].
      left. now apply String.eqb_eq.
    + eapply Forall_impl; [exact Hpre|]. intros kv. apply Hp.
  - intros (Hk & pre & post & E & Hmatch & Hpre).
    assert (Hf : find p (optionFunctions options) = Some (key, func)).
    { apply find_split. exists pre, post. split; [exact E|]. split.
      - unfold p. cbn [fst]. destruct Hmatch as [-> | ->];
          [now rewrite String.eqb_refl | apply orb_true_r].
      - eapply Forall_impl; [exact Hpre|]. intros kv. apply Hp. }
    rewrite Hf. apply truthy_spec in Hk. now rewrite Hk.
Qed.

Lemma maybeGetApiBuilder_some (fileName : string) (apiMatches : list Builder)
    (options : Options) (builder : Builder) :
  maybeGetApiBuilder' fileName apiMatches options = Some builder ->
  src builder = fileName
  /\ startsWith fileName "api/" = true
  /\ includes fileName "/." = false
  /\ includes fileName "/_" = false
  /\ includes fileName "/node_modules/" = false
  /\ endsWith fileName ".d.ts" = false
  /\ JsVal.truthy (use builder) = true
  /\ configZero (config builder) = true
  /\ ((exists key func,
          getFunction' fileName options = Some (key, func)
          /\ use builder = JsVal.getProp func "runtime")
      \/ (exists m pre post,
             apiMatches = pre ++ m :: post
             /\ use builder = use m
             /\ (src m = fileName \/ minimatch fileName (src m) = true)
             /\ Forall (fun b => src b <> fileName /\ minimatch fileName (src b) = false) pre))
  /\ (exists cfg,
         config builder = Some cfg
         /\ (cfgFunctions cfg = None
             \/ exists key func,
                 getFunction' fileName options = Some (key, func)
                 /\ cfgFunctions cfg = Some [(key, func)])).
Proof.
  unfold maybeGetApiBuilder. cbv zeta.
  destruct (startsWith fileName "api/"); [|discriminate]. cbn [negb].
  destruct (includes fileName "/."); [discriminate|].
  destruct (includes fileName "/_"); [discriminate|].
  destruct (includes fileName "/node_modules/"); [discriminate|].
  destruct (endsWith fileName ".d.ts"); [discriminate|].
  set (fn := getFunction minimatch fileName options).
  set (p := fun b : Builder => String.eqb (src b) fileName || minimatch fileName (src b)).
  set (funcRuntime := match fn with
                      | Some (_, func) =>
                          if JsVal.truthy func then JsVal.getProp func "runtime" else func
                      | None => JsNull
                      end).
  set (u := if JsVal.truthy funcRuntime then funcRuntime
            else match find p apiMatches with
                 | Some m => use m
                 | None => JsUndefined
                 end).
  destruct (JsVal.truthy u) eqn:Hu; [|discriminate]. cbn [negb].
  intros [= <-]. cbn [src use config].
  repeat (split; [reflexivity|]). split; [exact Hu|]. split.
  { destruct fn as [[k f]|]; [destruct (JsVal.truthy f)|]; reflexivity. }
  split.
  - subst u. destruct (JsVal.truthy funcRuntime) eqn:Hr.
    + left. subst funcRuntime. destruct fn as [[k f]|] eqn:Efn; [|discriminate].
      destruct (JsVal.truthy f) eqn:Hf; [|congruence]. now exists k, f.
    + right. destruct (find p apiMatches) as [m|] eqn:Em; [|discriminate].
      apply find_split in Em as (pre & post & E & Hm & Hpre).
      exists m, pre, post. split; [exact E|]. split; [reflexivity|]. split.
      * unfold p in Hm. apply orb_true_iff in Hm as [Hm|Hm]; [|now right].
        left. now apply String.eqb_eq.
      * eapply Forall_impl; [exact Hpre|]. intros b Hb. unfold p in Hb. cbn in Hb.
        apply orb_false_iff in Hb as [Hb1 Hb2]. apply String.eqb_neq in Hb1. tauto.
  - destruct fn as [[k f]|] eqn:Efn.
    + destruct (JsVal.truthy f).
      * eexists. split; [reflexivity|]. right. now exists k, f.
      * eexists. split; [reflexivity|]. now left.
    + eexists. split; [reflexivity|]. now left.
Qed.

(** X3. A file that gets an API builder lies under api/, in no hidden or
    private directory and in no node_modules directory, and is no type
    declaration file; the builder carries the file as its source, a
    truthy [use] taken from the runtime of the function entry or else
    from the first default match, and a zero-config configuration with
    at most the one function entry of the file. *)
Theorem maybeGetApiBuilder_builder (fileName : string) (apiMatches : list Builder)
    (options : Options) (builder : Builder) :
  maybeGetApiBuilder' fileName apiMatches options = Some builder ->
  src builder = fileName
  /\ startsWith fileName "api/" = true
  /\ includes fileName "/." = false
  /\ includes fileName "/_" = false
  /\ includes fileName "/node_modules/" = false
  /\ endsWith fileName ".d.ts" = false
  /\ JsVal.truthy (use builder) = true
  /\ configZero (config builder) = true
  /\ ((exists key func,
          getFunction' fileName options = Some (key, func)
          /\ use builder = JsVal.getProp func "runtime")
      \/ (exists m pre post,
             apiMatches = pre ++ m :: post
             /\ use builder = use m
             /\ (src m = fileName \/ minimatch fileName (src m) = true)
             /\ Forall (fun b => src b <> fileName /\ minimatch fileName (src b) = false) pre))
  /\ (exists cfg,
         config builder = Some cfg
         /\ (cfgFunctions cfg = None
             \/ exists key func,
                 getFunction' fileName options = Some (key, func)
                 /\ cfgFunctions cfg = Some [(key, func)])).
Proof. exact (maybeGetApiBuilder_some fileName apiMatches options builder). Qed.

End BuilderProperties.

(** *** Unused functions *)

Lemma find_none_iff {A : Type} (p : A -> bool) (l : list A) :
  find p l = None <-> Forall (fun y => p y = false) l.
Proof.
  split; [|apply find_none_app].
  induction l as [|y l IH]; [constructor|]. cbn [find].
  destruct (p y) eqn:E; [discriminate|]. intros H. constructor; auto.
Qed.

Lemma checkUnusedFunctions_cases (frontendBuilder : option Builder)
    (usedFunctions : gset string) (options : Options) :
  (checkUnusedFunctions frontendBuilder usedFunctions options = None
   <-> forall key, In key (map fst (optionFunctions options)) ->
         key ∈ usedFunctions
         \/ (isNextBuilder frontendBuilder = true /\ pagesKey key = true))
  /\ (forall e, checkUnusedFunctions frontendBuilder usedFunctions options = Some e ->
        code e = "unused_function"
        /\ exists key rest,
            In key (map fst (optionFunctions options)) /\ (key ∉ usedFunctions)
            /\ message e = "The function for " +:+ key +:+ rest).
Proof.
  unfold checkUnusedFunctions. cbv zeta. fold (isNextBuilder frontendBuilder).
  set (keys := map fst (optionFunctions options)).
  set (unused := List.filter (fun key => negb (bool_decide (key ∈ usedFunctions))) keys).
  assert (Hunused : forall key, In key unused <-> In key keys /\ key ∉ usedFunctions).
  { intros key. unfold unused. rewrite filter_In, negb_true_iff, (bool_decide_eq_false (key ∈ usedFunctions)).
    reflexivity. }
  split.
  - destruct unused as [|key0 rest] eqn:E.
    + split; [intros _|reflexivity]. intros key Hin.
      destruct (decide (key ∈ usedFunctions)) as [Hu|Hu]; [now left|].
      exfalso. apply (proj2 (Hunused key)). split; assumption.
    + destruct (isNextBuilder frontendBuilder).
      * destruct (find _ (key0 :: rest)) as [fnKey|] eqn:Ef.
        -- split; [discriminate|]. intros Hall. exfalso.
           apply find_some in Ef as [Hin Hk]. apply Hunused in Hin as [Hin Hu].
           destruct (Hall fnKey Hin) as [?|[_ Hp]]; [contradiction|].
           unfold pagesKey in Hp. rewrite Hp in Hk. discriminate.
        -- split; [intros _|reflexivity]. intros key Hin.
           destruct (decide (key ∈ usedFunctions)) as [Hu|Hu]; [now left|]. right.
           split; [reflexivity|].
           apply find_none_iff in Ef. rewrite List.Forall_forall in Ef.
           assert (Hk : In key (key0 :: rest)) by (apply Hunused; split; assumption).
           apply Ef in Hk. now apply negb_false_iff in Hk.
      * split; [discriminate|]. intros Hall. exfalso.
        assert (Hin : In key0 (key0 :: rest)) by now left.
        apply Hunused in Hin as [Hin Hu].
        destruct (Hall key0 Hin) as [?|[? _]]; [contradiction | discriminate].
  - intros e. destruct unused as [|key0 rest] eqn:E; [discriminate|].
    destruct (isNextBuilder frontendBuilder).
    + destruct (find _ (key0 :: rest)) as [fnKey|] eqn:Ef; [|discriminate].
      intros [= <-]. split; [reflexivity|]. apply find_some in Ef as [Hin _].
      apply Hunused in Hin as [Hin Hu]. cbn [message]. eauto.
    + intros [= <-]. split; [reflexivity|].
      assert (Hin : In key0 (key0 :: rest)) by now left.
      apply Hunused in Hin as [Hin Hu]. cbn [message]. eauto.
Qed.

(** X4. No unused function is reported exactly when every key of the
    function map is used or, under a Next.js frontend builder, is a
    pages key; the error reported has the code unused_function and names
    a key that is not used. *)
Theorem checkUnusedFunctions_spec (frontendBuilder : option Builder)
    (usedFunctions : gset string) (options : Options) :
  (checkUnusedFunctions frontendBuilder usedFunctions options = None
   <-> forall key, In key (map fst (optionFunctions options)) ->
         key ∈ usedFunctions
         \/ (isNextBuilder frontendBuilder = true /\ pagesKey key = true))
  /\ (forall e, checkUnusedFunctions frontendBuilder usedFunctions options = Some e ->
        code e = "unused_function"
        /\ exists key rest,
            In key (map fst (optionFunctions options)) /\ (key ∉ usedFunctions)
            /\ message e = "The function for " +:+ key +:+ rest).
Proof.
  exact (checkUnusedFunctions_cases
           frontendBuilder usedFunctions options).
Qed.

(** *** The frontend builder *)

Lemma spread_objects (entries : list (string * JsValue)) :
  Forall (fun kv : string * JsValue => exists props, snd kv = JsObject props) entries ->
  map (fun kv : string * JsValue => (fst kv, JsVal.spread (snd kv))) entries = entries.
Proof.
  induction 1 as [|[key func] rest [props Hp] Hrest IH]; [reflexivity|].
  cbn [map fst snd] in *. now rewrite IH, Hp.
Qed.

Lemma detectFrontBuilder_fields (pkg : option PackageJson) (files : list string)
    (usedFunctions : gset string) (fallbackEntrypoint : option string)
    (options : Options) :
  let b := detectFrontBuilder pkg files usedFunctions fallbackEntrypoint options in
  use b = JsStr ((if wantsNext pkg options then "@now/next" else "@now/static-build")
                 +:+ withTag options)
  /\ src b <> ""
  /\ (isSome pkg = true \/ wantsNext pkg options = true -> src b = "package.json")
  /\ (src b = "package.json" \/ In (src b) files \/ fallbackEntrypoint = Some (src b))
  /\ configZero (config b) = true
  /\ builderFunctions b
     = map (fun kv => (fst kv, JsVal.spread (snd kv)))
           (List.filter (fun kv => negb (bool_decide (fst kv ∈ usedFunctions)))
                        (optionFunctions options))
  /\ (Forall (fun kv => exists props, snd kv = JsObject props) (optionFunctions options) ->
      builderFunctions b
      = List.filter (fun kv => negb (bool_decide (fst kv ∈ usedFunctions)))
                    (optionFunctions options)).
Proof.
  cbv zeta. unfold detectFrontBuilder. cbv zeta.
  set (unused := map (fun kv : string * JsValue => (fst kv, JsVal.spread (snd kv)))
                     (List.filter (fun kv => negb (bool_decide (fst kv ∈ usedFunctions)))
                                  (optionFunctions options))).
  assert (E : match unused with [] => [] | _ => unused end = unused) by now destruct unused.
  assert (Hobjects :
            Forall (fun kv : string * JsValue => exists props, snd kv = JsObject props)
                   (optionFunctions options) ->
            unused = List.filter (fun kv => negb (bool_decide (fst kv ∈ usedFunctions)))
                                 (optionFunctions options)).
  { intros Hall. unfold unused. apply spread_objects.
    apply List.Forall_forall. intros kv Hin. apply filter_In in Hin as [Hin _].
    revert kv Hin. now apply List.Forall_forall. }
  assert (Hnext : optStringEqb
                    match pkg with
                    | Some p => if dependsOnNext p then Some "nextjs"
                                else framework (settings options)
                    | None => framework (settings options)
                    end (Some "nextjs")
                  = wantsNext pkg options).
  { unfold wantsNext. destruct pkg as [p|]; [|reflexivity].
    destruct (dependsOnNext p); reflexivity. }
  rewrite Hnext. destruct (wantsNext pkg options).
  - cbn [use src config configZero zeroConfig builderFunctions cfgFunctions].
    split; [reflexivity|]. split; [discriminate|]. split; [reflexivity|].
    split; [now left|]. split; [reflexivity|].
    split; [now destruct unused|].
    intros Hall. rewrite <- (Hobjects Hall). now destruct unused.
  - cbn [use src config configZero zeroConfig builderFunctions cfgFunctions].
    split; [reflexivity|].
    set (source := match pkg with
                   | Some _ => "package.json"
                   | None =>
                       match find (fun file => existsb (String.eqb file) entrypoints) files with
                       | Some f => f
                       | None => orElse fallbackEntrypoint "package.json"
                       end
                   end).
    split; [|split; [|split; [|split]]].
    + destruct (JsString.truthy source) eqn:Hs; [now apply truthy_spec | discriminate].
    + intros [Hpkg|Hn]; [|discriminate]. subst source.
      destruct pkg; [reflexivity | discriminate].
    + destruct (JsString.truthy source) eqn:Hs; [|now left]. subst source.
      destruct pkg; [now left|].
      destruct (find _ files) as [f|] eqn:Ef.
      * right; left. now apply find_some in Ef.
      * unfold orElse in *. destruct fallbackEntrypoint as [fb|]; [|now left].
        destruct (JsString.truthy fb); [right; right; reflexivity | now left].
    + reflexivity.
    + split; [now destruct unused|].
      intros Hall. rewrite <- (Hobjects Hall). now destruct unused.
Qed.

(** X5. The frontend builder: Next.js exactly when the package depends
    on next or the framework is nextjs, the static build otherwise; a
    source that is never empty, that is package.json with a package
    manifest or Next.js, and otherwise package.json, one of the files or
    the fallback entrypoint; a zero-config configuration whose functions
    are the entries of the function map that no API builder uses, in the
    order of the map and with a copy of each value, which is the value
    itself when it is an object. *)
Theorem detectFrontBuilder_spec (pkg : option PackageJson) (files : list string)
    (usedFunctions : gset string) (fallbackEntrypoint : option string)
    (options : Options) :
  let b := detectFrontBuilder pkg files usedFunctions fallbackEntrypoint options in
  use b = JsStr ((if wantsNext pkg options then "@now/next" else "@now/static-build")
                 +:+ withTag options)
  /\ src b <> ""
  /\ (isSome pkg = true \/ wantsNext pkg options = true -> src b = "package.json")
  /\ (src b = "package.json" \/ In (src b) files \/ fallbackEntrypoint = Some (src b))
  /\ configZero (config b) = true
  /\ builderFunctions b
     = map (fun kv => (fst kv, JsVal.spread (snd kv)))
           (List.filter (fun kv => negb (bool_decide (fst kv ∈ usedFunctions)))
                        (optionFunctions options))
  /\ (Forall (fun kv => exists props, snd kv = JsObject props) (optionFunctions options) ->
      builderFunctions b
      = List.filter (fun kv => negb (bool_decide (fst kv ∈ usedFunctions)))
                    (optionFunctions options)).
Proof.
  exact (detectFrontBuilder_fields
           pkg files usedFunctions fallbackEntrypoint options).
Qed.

Lemma detectFrontBuilder_keys (pkg : option PackageJson) (files : list string)
    (usedFunctions : gset string) (fallbackEntrypoint : option string)
    (options : Options) (key : string) :
  In key (map fst (builderFunctions
                     (detectFrontBuilder pkg files usedFunctions fallbackEntrypoint options)))
  <-> In key (map fst (optionFunctions options)) /\ (key ∉ usedFunctions).
Proof.
  destruct (detectFrontBuilder_fields pkg files usedFunctions fallbackEntrypoint options)
    as (_ & _ & _ & _ & _ & Hf & _).
  rewrite Hf, map_map. cbn [fst]. rewrite !in_map_iff. split.
  - intros (kv & <- & Hin). apply filter_In in Hin as [Hin Hu].
    apply negb_true_iff, bool_decide_eq_false in Hu. split; [now exists kv | exact Hu].
  - intros [(kv & <- & Hin) Hu]. exists kv. split; [reflexivity|].
    apply filter_In. split; [exact Hin|].
    now apply negb_true_iff, bool_decide_eq_false.
Qed.

(** ** Accepted function maps *)

Lemma isIntegerIn_spec (lo hi : Z) (n : JsNumber) :
  isIntegerIn lo hi n = true
  <-> exists q z, n = Finite q /\ Qeq q (inject_Z z) /\ (lo <= z <= hi)%Z.
Proof.
  destruct n as [|b|q]; cbn -[Qred Z.eqb Z.leb].
  - split; [discriminate | now intros (? & ? & ? & _)].
  - split; [discriminate | now intros (? & ? & ? & _)].
  - rewrite !andb_true_iff, Z.eqb_eq, !Z.leb_le. split.
    + intros [[Hd Hlo] Hhi]. exists q, (Qnum (Qred q)).
      split; [reflexivity|]. split; [now apply Qred_den_one | lia].
    + intros (q' & z & [= <-] & Hq & Hz). apply Qred_integer in Hq. rewrite Hq.
      cbn. lia.
Qed.

Lemma isMultipleIn_spec (n : JsNumber) :
  isMultipleIn 64 128 3008 n = true
  <-> exists q k, n = Finite q /\ Qeq q (inject_Z (64 * k)) /\ (2 <= k <= 47)%Z.
Proof.
  destruct n as [|b|q].
  - split; [discriminate | now intros (? & ? & ? & _)].
  - split; [discriminate | now intros (? & ? & ? & _)].
  - unfold isMultipleIn. rewrite andb_true_iff, isIntegerIn_spec, Z.eqb_eq. split.
    + intros [(q' & z & [= <-] & Hq & Hz) Hmod].
      rewrite (Qred_integer q z Hq) in Hmod. cbn [Qnum inject_Z] in Hmod.
      apply Z.mod_divide in Hmod; [|lia]. destruct Hmod as [k Hk].
      exists q, k. split; [reflexivity|]. split; [|lia].
      rewrite Hq. now replace (64 * k)%Z with z by lia.
    + intros (q' & k & [= <-] & Hq & Hk). split.
      * exists q, (64 * k)%Z. split; [reflexivity|]. split; [exact Hq | lia].
      * rewrite (Qred_integer q _ Hq). cbn [Qnum inject_Z].
        rewrite Z.mul_comm. apply Z.mod_mul. lia.
Qed.

Lemma isUndefined_spec (v : JsValue) : JsVal.isUndefined v = true <-> v = JsUndefined.
Proof. destruct v; cbn; split; congruence. Qed.

Lemma typeofString_spec (v : JsValue) :
  JsVal.typeofString v = true <-> exists s, v = JsStr s.
Proof.
  destruct v; cbn; split; try discriminate; try (now intros [? ?]). eauto.
Qed.

Section AcceptedFunctionMaps.

Variable validSemver : string -> bool.
Variable StringToNumber : string -> JsNumber.
Variable NumberToString : JsNumber -> string.

Local Abbreviation validateFunction' :=
  (validateFunction validSemver StringToNumber NumberToString).
Local Abbreviation validateFunctions' :=
  (validateFunctions validSemver StringToNumber NumberToString).
Local Abbreviation accepted := (acceptedFunction validSemver StringToNumber NumberToString).

Lemma present_false (func : JsValue) (key : string) (c : bool) :
  present func key && negb c = false
  <-> JsVal.getProp func key = JsUndefined \/ c = true.
Proof.
  unfold present. rewrite andb_false_iff, !negb_false_iff, isUndefined_spec. tauto.
Qed.

Lemma validateFunction_accepts (path : string) (func : JsValue) :
  validateFunction' path func = None <-> accepted path func.
Proof.
  assert (H : validateFunction' path func = None
              <-> firstFailedCheck validSemver StringToNumber NumberToString path func = None).
  { rewrite <- validateFunction_checks. now destruct (validateFunction' path func). }
  rewrite H. clear H. unfold firstFailedCheck, specChecks, acceptedFunction.
  cbn [find snd fst option_map].
  unfold globTooLong at 1.
  destruct (Nat.ltb_spec 256 (String.length path)) as [Hlen|Hlen].
  { split; [discriminate | intros [? _]; lia]. }
  unfold notNonEmptyObject at 1.
  assert (Hobj : match func with
                 | JsObject _ | JsArray _ => nonEmpty (JsVal.keys func)
                 | _ => false
                 end = true
                 <-> (exists props, func = JsObject props /\ props <> [])
                     \/ (exists items, func = JsArray items /\ items <> [])).
  { destruct func as [| |b|n|s|items|props];
      try (split; [discriminate | now intros [(? & ? & _)|(? & ? & _)]]).
    - cbn. destruct items as [|i items].
      + split; [discriminate|]. intros [(? & ? & _)|(? & [= <-] & ?)]; congruence.
      + split; [intros _|reflexivity]. right. eexists. split; [reflexivity | discriminate].
    - cbn. destruct props as [|p props].
      + split; [discriminate|]. intros [(? & [= <-] & ?)|(? & ? & _)]; congruence.
      + split; [intros _|reflexivity]. left. eexists. split; [reflexivity | discriminate]. }
  destruct (match func with
            | JsObject _ | JsArray _ => nonEmpty (JsVal.keys func)
            | _ => false
            end) eqn:Eobj; cbn [negb];
    [|split; [discriminate | intros (_ & _ & Ho & _); apply Hobj in Ho; discriminate]].
  assert (Hobj' : (exists props, func = JsObject props /\ props <> [])
                  \/ (exists items, func = JsArray items /\ items <> []))
    by now apply Hobj.
  clear Hobj Eobj.
  unfold badMaxDuration at 1.
  destruct (present func "maxDuration" && _) eqn:Edur.
  { split; [discriminate|]. intros (_ & _ & _ & Hd & _). exfalso.
    apply Bool.not_false_iff_true in Edur. apply Edur. apply present_false.
    destruct Hd as [Hd|(q & z & Hd & Hq & Hz)]; [now left|]. right.
    rewrite Hd. apply isIntegerIn_spec. eauto. }
  apply present_false in Edur.
  unfold badMemory at 1.
  destruct (present func "memory" && _) eqn:Emem.
  { split; [discriminate|]. intros (_ & _ & _ & _ & Hm & _). exfalso.
    apply Bool.not_false_iff_true in Emem. apply Emem. apply present_false.
    destruct Hm as [Hm|Hm]; [now left|]. right. now apply isMultipleIn_spec. }
  apply present_false in Emem.
  unfold globFromRoot at 1.
  destruct (startsWith path "/") eqn:Eroot.
  { split; [discriminate | intros (_ & ? & _); discriminate]. }
  unfold badRuntime at 1. cbv zeta.
  destruct (present func "runtime" && _) eqn:Erun.
  { split; [discriminate|]. intros (_ & _ & _ & _ & _ & Hr & _). exfalso.
    apply Bool.not_false_iff_true in Erun. apply Erun. apply present_false.
    destruct Hr as [Hr|[Hv Hs]]; [now left|]. right.
    apply truthy_spec in Hv. now rewrite Hv, Hs. }
  apply present_false in Erun.
  unfold badFilesProperty at 1.
  destruct (present func "includeFiles" && _) eqn:Einc.
  { split; [discriminate|]. intros (_ & _ & _ & _ & _ & _ & Hi & _). exfalso.
    apply Bool.not_false_iff_true in Einc. apply Einc. apply present_false.
    destruct Hi as [Hi|Hi]; [now left|]. right. now apply typeofString_spec. }
  apply present_false in Einc.
  unfold badFilesProperty at 1.
  destruct (present func "excludeFiles" && _) eqn:Eexc.
  { split; [discriminate|]. intros (_ & _ & _ & _ & _ & _ & _ & Hx). exfalso.
    apply Bool.not_false_iff_true in Eexc. apply Eexc. apply present_false.
    destruct Hx as [Hx|Hx]; [now left|]. right. now apply typeofString_spec. }
  apply present_false in Eexc.
  split; [intros _|reflexivity].
  split; [exact Hlen|]. split; [reflexivity|]. split; [exact Hobj'|].
  split.
  { destruct Edur as [?|Hd]; [now left|]. right.
    destruct (JsVal.getProp func "maxDuration"); try discriminate.
    apply isIntegerIn_spec in Hd as (q & z & -> & Hq & Hz). eauto. }
  split.
  { destruct Emem as [?|Hm]; [now left|]. right. now apply isMultipleIn_spec. }
  split.
  { destruct Erun as [?|Hr]; [now left|]. right.
    apply andb_true_iff in Hr as [Hv Hs]. apply truthy_spec in Hv. now split. }
  split.
  { destruct Einc as [?|Hi]; [now left|]. right. now apply typeofString_spec. }
  destruct Eexc as [?|Hx]; [now left|]. right. now apply typeofString_spec.
Qed.

(** X1. The validator accepts a function map exactly when every entry is
    an accepted one: a key of at most 256 characters that does not start
    with a slash; a non-empty object (or array) as value; maxDuration,
    if present, a number that is an integer from 1 to 900; memory, if
    present, read as a number that is a multiple of 64 from 128 to 3008;
    runtime, if present, with a non-empty valid version after its last
    at-sign; includeFiles and excludeFiles, if present, strings. *)
Theorem validateFunctions_accepts (options : Options) :
  validateFunctions' options = None
  <-> forall path func, In (path, func) (optionFunctions options) -> accepted path func.
Proof.
  unfold validateFunctions.
  induction (optionFunctions options) as [|[p f] rest IH].
  - split; [intros _ ? ? [] | reflexivity].
  - cbn [validateEntries]. pose proof (validateFunction_accepts p f) as Hpf.
    destruct (validateFunction' p f) as [e|].
    + split; [discriminate|]. intros H. exfalso.
      assert (Some e = None) by (apply Hpf, H; now left). discriminate.
    + rewrite IH. split.
      * intros H path func [[= <- <-]|Hin]; [now apply Hpf | now apply H].
      * intros H path func Hin. apply H. now right.
Qed.

End AcceptedFunctionMaps.

(** ** Routes in handle-miss mode *)

(** An API extension is a dot followed by what [extGroup] lists. *)
Lemma api_extension_dot (builders : list Builder) (e : string) :
  In e (detectApiExtensions builders) -> e = "." +:+ sliceFrom e 1.
Proof.
  intros He.
  destruct (proj1 (proj1 (detectApiExtensions_members builders) e) He)
    as (Hne & b & _ & _ & Hsrc & Hext).
  assert (Hrel : startsWith (src b) "/" = false).
  { destruct (src b) as [|c rest]; [discriminate|].
    cbn [startsWith] in Hsrc |- *. apply andb_true_iff in Hsrc as [Hc _].
    apply Ascii.eqb_eq in Hc. subst c. reflexivity. }
  rewrite (extname_relative _ Hrel) in Hext.
  destruct (ext_dot (src b)) as [H|H]; rewrite Hext in H; [congruence|].
  destruct e as [|c rest]; [discriminate|]. cbn in H. apply Ascii.eqb_eq in H. subst c.
  now rewrite sliceFrom_tail.
Qed.

Lemma getRouteResult_miss
    (apiRoutes dynamicRoutes : list Route) (outputDirectory : string)
    (apiBuilders : list Builder) (frontendBuilder : option Builder) (options : Options) :
  featHandleMiss options = true ->
  let result :=
    getRouteResult apiRoutes dynamicRoutes outputDirectory apiBuilders
                   frontendBuilder options in
  (apiRoutes = [] ->
   rrDefaultRoutes result = [] /\ rrRedirectRoutes result = []
   /\ rrRewriteRoutes result = [])
  /\ (apiRoutes <> [] ->
      rrRewriteRoutes result = dynamicRoutes ++ [routeApi404Continue])
  /\ (cleanUrls options = true \/ detectApiExtensions apiBuilders = [] ->
      rrDefaultRoutes result = [])
  /\ (cleanUrls options = false \/ detectApiExtensions apiBuilders = [] ->
      rrRedirectRoutes result = [])
  /\ (apiRoutes <> [] -> detectApiExtensions apiBuilders <> [] ->
      let extGroup := extensionGroup (detectApiExtensions apiBuilders) in
      if cleanUrls options then
        rrRedirectRoutes result
        = [ routeRedirect ("^/(api(?:.+)?)/index" +:+ extGroup +:+ "?/?$")
                          (if trailingSlash options then "/$1/" else "/$1");
            routeRedirect ("^/api/(.+)" +:+ extGroup +:+ "/?$")
                          (if trailingSlash options then "/api/$1/" else "/api/$1") ]
      else
        rrDefaultRoutes result
        = [ routeHandleMiss;
            sourceRoute ("^/api/(.+)" +:+ extGroup +:+ "$") "/api/$1" (Some true) ])
  /\ Forall (fun ext => ext = "." +:+ sliceFrom ext 1) (detectApiExtensions apiBuilders).
Proof.
  intros Hmiss. cbv zeta.
  assert (Hdot : Forall (fun ext => ext = "." +:+ sliceFrom ext 1)
                        (detectApiExtensions apiBuilders)).
  { apply List.Forall_forall. intros e. apply api_extension_dot. }
  assert (Hadd : forall A B C D E F : Prop,
             F -> A /\ B /\ C /\ D /\ E -> A /\ B /\ C /\ D /\ E /\ F) by tauto.
  apply Hadd; [exact Hdot|]. clear Hadd Hdot.
  unfold getRouteResult. rewrite Hmiss.
  assert (Hfront : forall fb : Builder,
             JsString.truthy outputDirectory && negb true && useIs fb "@now/static" = false)
    by (intros fb; now rewrite andb_false_r).
  destruct apiRoutes as [|r rs].
  - destruct frontendBuilder as [fb|]; cbn; rewrite ?Hfront;
      repeat split; try reflexivity; congruence.
  - cbn [List.length Nat.ltb Nat.leb].
    destruct (detectApiExtensions apiBuilders) as [|e es] eqn:Eext.
    + destruct frontendBuilder as [fb|]; cbn; rewrite ?Hfront;
        repeat split; try reflexivity; congruence.
    + cbn [List.length Nat.ltb Nat.leb].
      destruct (cleanUrls options) eqn:Eclean;
        destruct frontendBuilder as [fb|];
        rewrite ?Hfront;
        cbn [rrDefaultRoutes rrRedirectRoutes rrRewriteRoutes];
        (split; [congruence|]); (split; [reflexivity|]);
        (split; [intros [?|?]; congruence|]); (split; [intros [?|?]; congruence|]);
        intros _ _; reflexivity.
Qed.

(** X14. In handle-miss mode: nothing without API routes; with them, the
    rewrites are the dynamic routes and then the 404 route that
    continues; the default routes are the miss marker with the route
    that strips one of the API extensions, when there are API extensions
    and no clean URLs, and empty otherwise; the redirects are the two
    that strip the index file and the extension, under clean URLs with
    API extensions, and empty otherwise. *)
Theorem handle_miss_routes
    (apiRoutes dynamicRoutes : list Route) (outputDirectory : string)
    (apiBuilders : list Builder) (frontendBuilder : option Builder) (options : Options) :
  featHandleMiss options = true ->
  let result :=
    getRouteResult apiRoutes dynamicRoutes outputDirectory apiBuilders
                   frontendBuilder options in
  (apiRoutes = [] ->
   rrDefaultRoutes result = [] /\ rrRedirectRoutes result = []
   /\ rrRewriteRoutes result = [])
  /\ (apiRoutes <> [] ->
      rrRewriteRoutes result = dynamicRoutes ++ [routeApi404Continue])
  /\ (cleanUrls options = true \/ detectApiExtensions apiBuilders = [] ->
      rrDefaultRoutes result = [])
  /\ (cleanUrls options = false \/ detectApiExtensions apiBuilders = [] ->
      rrRedirectRoutes result = [])
  /\ (apiRoutes <> [] -> detectApiExtensions apiBuilders <> [] ->
      let extGroup := extensionGroup (detectApiExtensions apiBuilders) in
      if cleanUrls options then
        rrRedirectRoutes result
        = [ routeRedirect ("^/(api(?:.+)?)/index" +:+ extGroup +:+ "?/?$")
                          (if trailingSlash options then "/$1/" else "/$1");
            routeRedirect ("^/api/(.+)" +:+ extGroup +:+ "/?$")
                          (if trailingSlash options then "/api/$1/" else "/api/$1") ]
      else
        rrDefaultRoutes result
        = [ routeHandleMiss;
            sourceRoute ("^/api/(.+)" +:+ extGroup +:+ "$") "/api/$1" (Some true) ])
  /\ Forall (fun ext => ext = "." +:+ sliceFrom ext 1) (detectApiExtensions apiBuilders).
Proof.
  exact (getRouteResult_miss
           apiRoutes dynamicRoutes outputDirectory apiBuilders frontendBuilder options).
Qed.

Lemma getApiRoute_cases (fileName : string) (sortedFiles : list string)
    (options : Options) (cache : gmap string string) :
  coherentCache cache ->
  (forall route : Route * bool,
      fst (getApiRoute fileName sortedFiles options cache) = inr route
      <-> getConflictingSegment fileName = None
          /\ (forall file, In file sortedFiles -> conflictsWith fileName file = false)
          /\ route = createRouteFromPath fileName (featHandleMiss options)
                                         (cleanUrls options))
  /\ (forall e : ErrorResponse,
         fst (getApiRoute fileName sortedFiles options cache) = inl e ->
         (code e = "conflicting_path_segment" /\ getConflictingSegment fileName <> None)
         \/ (code e = "conflicting_file_path"
             /\ getConflictingSegment fileName = None
             /\ exists file, In file sortedFiles /\ conflictsWith fileName file = true))
  /\ coherentCache (snd (getApiRoute fileName sortedFiles options cache)).
Proof.
  intros Hc. unfold getApiRoute.
  destruct (getConflictingSegment fileName) as [seg|] eqn:Eseg.
  { cbn [fst snd]. split; [|split; [|exact Hc]].
    - intros route. split; [discriminate | now intros [? _]].
    - intros e [= <-]. left. split; [reflexivity | discriminate]. }
  destruct (pathOccurrences_coherent fileName sortedFiles cache Hc) as [Hocc Hc'].
  destruct (pathOccurrences fileName sortedFiles cache) as [occurrences cache1].
  cbn [fst snd] in Hocc, Hc'. subst occurrences.
  destruct (List.filter (conflictsWith fileName) sortedFiles) as [|file rest] eqn:Ef.
  - cbn [List.length Nat.ltb Nat.leb fst snd]. split; [|split; [|exact Hc']].
    + intros route. split.
      * intros [= <-]. split; [reflexivity|]. split; [|reflexivity].
        intros file Hin. destruct (conflictsWith fileName file) eqn:E; [|reflexivity].
        assert (In file (List.filter (conflictsWith fileName) sortedFiles))
          by (apply filter_In; auto).
        rewrite Ef in *. contradiction.
      * now intros (_ & _ & ->).
    + discriminate.
  - cbn [List.length Nat.ltb Nat.leb fst snd]. split; [|split; [|exact Hc']].
    + intros route. split; [discriminate|]. intros (_ & Hall & _). exfalso.
      assert (Hin : In file (List.filter (conflictsWith fileName) sortedFiles))
        by (rewrite Ef; now left).
      apply filter_In in Hin as [Hin Hcf]. rewrite (Hall file Hin) in Hcf. discriminate.
    + intros e [= <-]. right. split; [reflexivity|]. split; [reflexivity|].
      exists file. apply filter_In. rewrite Ef. now left.
Qed.

(** X12. With a cache that holds only normalized paths, a file gets its
    route, the one of [createRouteFromPath], exactly when it has no
    conflicting segment and no file of the list conflicts with it; the
    error is otherwise conflicting_path_segment, which comes first, or
    conflicting_file_path. *)
Theorem getApiRoute_spec (fileName : string) (sortedFiles : list string)
    (options : Options) (cache : gmap string string) :
  coherentCache cache ->
  (forall route : Route * bool,
      fst (getApiRoute fileName sortedFiles options cache) = inr route
      <-> getConflictingSegment fileName = None
          /\ (forall file, In file sortedFiles -> conflictsWith fileName file = false)
          /\ route = createRouteFromPath fileName (featHandleMiss options)
                                         (cleanUrls options))
  /\ (forall e : ErrorResponse,
         fst (getApiRoute fileName sortedFiles options cache) = inl e ->
         (code e = "conflicting_path_segment" /\ getConflictingSegment fileName <> None)
         \/ (code e = "conflicting_file_path"
             /\ getConflictingSegment fileName = None
             /\ exists file, In file sortedFiles /\ conflictsWith fileName file = true))
  /\ coherentCache (snd (getApiRoute fileName sortedFiles options cache)).
Proof. exact (getApiRoute_cases fileName sortedFiles options cache). Qed.

(** ** The loop over the files *)

Section LoopProperties.

Variable minimatch : string -> string -> bool.

Local Abbreviation apiBuilderOf' := (apiBuilderOf minimatch).
Local Abbreviation otherFile' := (otherFile minimatch).
Local Abbreviation classifyFile' := (classifyFile minimatch).
Local Abbreviation classifyFiles' := (classifyFiles minimatch).

Lemma classifyFile_api (allFiles : list string) (options : Options)
    (usedOutputDirectory fileName : string) (st : LoopState) (b : Builder) :
  coherentCache (absolutePathCache st) ->
  apiBuilderOf' options fileName = Some b ->
  match classifyFile' (getApiMatches options) allFiles options usedOutputDirectory
                      fileName st with
  | inr st1 =>
      getConflictingSegment fileName = None
      /\ (forall file, In file allFiles -> conflictsWith fileName file = false)
      /\ apiBuilders st1 = apiBuilders st ++ [b]
      /\ usedFunctions st1 = addToUsedFunctions b (usedFunctions st)
      /\ coherentCache (absolutePathCache st1)
      /\ hasUsedOutputDirectory st1 = hasUsedOutputDirectory st
      /\ hasNoneApiFiles st1 = hasNoneApiFiles st
      /\ hasNextApiFiles st1 = hasNextApiFiles st
      /\ fallbackEntrypoint st1 = fallbackEntrypoint st
      /\ apiRoutes st1 = apiRoutes st ++ [routeOf options b]
      /\ dynamicRoutes st1
         = dynamicRoutes st ++ (if isDynamicBuilder options b then [routeOf options b] else [])
  | inl e =>
      (code e = "conflicting_path_segment" /\ getConflictingSegment fileName <> None)
      \/ (code e = "conflicting_file_path"
          /\ getConflictingSegment fileName = None
          /\ exists file, In file allFiles /\ conflictsWith fileName file = true)
  end.
Proof.
  intros Hc Hb. unfold classifyFile. unfold apiBuilderOf in Hb. rewrite Hb.
  destruct (maybeGetApiBuilder_some minimatch _ _ _ _ Hb) as (Hsrc & _).
  destruct (getApiRoute_cases fileName allFiles options (absolutePathCache st) Hc)
    as (Hroute & Herr & Hc').
  destruct (getApiRoute fileName allFiles options (absolutePathCache st)) as [res cache1].
  cbn [fst snd] in Hroute, Herr, Hc'.
  destruct res as [e|[apiRoute isDynamic]].
  - now apply Herr.
  - destruct (proj1 (Hroute _) eq_refl) as (Hseg & Hall & Er).
    cbn [apiBuilders usedFunctions absolutePathCache hasUsedOutputDirectory hasNoneApiFiles
         hasNextApiFiles fallbackEntrypoint apiRoutes dynamicRoutes].
    unfold routeOf, isDynamicBuilder. rewrite Hsrc, <- Er. cbn [fst snd].
    repeat (split; [first [assumption | reflexivity]|]).
    destruct isDynamic; [reflexivity | now rewrite app_nil_r].
Qed.

Lemma classifyFile_other (allFiles : list string) (options : Options)
    (usedOutputDirectory fileName : string) (st : LoopState) :
  apiBuilderOf' options fileName = None ->
  exists st1,
    classifyFile' (getApiMatches options) allFiles options usedOutputDirectory fileName st
    = inr st1
    /\ apiBuilders st1 = apiBuilders st
    /\ usedFunctions st1 = usedFunctions st
    /\ absolutePathCache st1 = absolutePathCache st
    /\ hasUsedOutputDirectory st1
       = hasUsedOutputDirectory st || startsWith fileName (usedOutputDirectory +:+ "/")
    /\ hasNoneApiFiles st1
       = hasNoneApiFiles st
         || (negb (startsWith fileName "api/") && negb (String.eqb fileName "package.json"))
    /\ hasNextApiFiles st1 = hasNextApiFiles st || isNextApiFile fileName
    /\ apiRoutes st1 = apiRoutes st
    /\ dynamicRoutes st1 = dynamicRoutes st.
Proof.
  intros Hb. unfold classifyFile. unfold apiBuilderOf in Hb. rewrite Hb.
  eexists. split; [reflexivity|].
  cbn [apiBuilders usedFunctions absolutePathCache hasUsedOutputDirectory hasNoneApiFiles
       hasNextApiFiles fallbackEntrypoint apiRoutes dynamicRoutes].
  repeat (split; [reflexivity|]). unfold isNextApiFile.
  split; [now destruct (hasUsedOutputDirectory st), (startsWith fileName _)|].
  split; [now destruct (hasNoneApiFiles st), (startsWith fileName "api/"),
                       (String.eqb fileName "package.json")|].
  split; [|split; reflexivity].
  now destruct (hasNextApiFiles st), (startsWith fileName "pages/api"),
               (startsWith fileName "src/pages/api").
Qed.

(** What the loop has done when it ends without a route error. *)
Lemma classifyFiles_done (allFiles : list string) (options : Options)
    (usedOutputDirectory : string) (files : list string) (st st' : LoopState) :
  coherentCache (absolutePathCache st) ->
  classifyFiles' (getApiMatches options) allFiles options usedOutputDirectory files st
  = inr st' ->
  apiBuilders st' = apiBuilders st ++ omap (apiBuilderOf' options) files
  /\ usedFunctions st'
     = fold_left (fun used b => addToUsedFunctions b used)
                 (omap (apiBuilderOf' options) files) (usedFunctions st)
  /\ coherentCache (absolutePathCache st')
  /\ hasUsedOutputDirectory st'
     = hasUsedOutputDirectory st
       || existsb (fun f => otherFile' options f
                            && startsWith f (usedOutputDirectory +:+ "/")) files
  /\ hasNoneApiFiles st'
     = hasNoneApiFiles st
       || existsb (fun f => otherFile' options f
                            && (negb (startsWith f "api/")
                                && negb (String.eqb f "package.json"))) files
  /\ hasNextApiFiles st'
     = hasNextApiFiles st
       || existsb (fun f => otherFile' options f && isNextApiFile f) files
  /\ apiRoutes st' = apiRoutes st ++ map (routeOf options) (omap (apiBuilderOf' options) files)
  /\ dynamicRoutes st'
     = dynamicRoutes st
       ++ map (routeOf options)
              (List.filter (isDynamicBuilder options) (omap (apiBuilderOf' options) files))
  /\ (forall fileName, In fileName files -> otherFile' options fileName = false ->
        getConflictingSegment fileName = None
        /\ forall file, In file allFiles -> conflictsWith fileName file = false).
Proof.
  revert st. induction files as [|f files IH]; intros st Hc.
  - cbn [classifyFiles]. intros [= <-]. cbn [omap list_omap existsb map List.filter fold_left].
    rewrite !app_nil_r, !orb_false_r. repeat (split; [first [assumption | reflexivity]|]).
    intros ? [].
  - cbn [classifyFiles existsb]. unfold otherFile at 1 3 5 7.
    change (omap (apiBuilderOf' options) (f :: files))
      with (match apiBuilderOf' options f with
            | Some b => b :: omap (apiBuilderOf' options) files
            | None => omap (apiBuilderOf' options) files
            end).
    destruct (apiBuilderOf' options f) as [b|] eqn:Eb.
    + pose proof (classifyFile_api allFiles options usedOutputDirectory f st b Hc Eb) as H1.
      destruct (classifyFile' _ allFiles options usedOutputDirectory f st) as [e|st1];
        [discriminate|].
      destruct H1 as (Hseg & Hall & Hab & Hused & Hc1 & Hout & Hnone & Hnext & _ & Har & Hdr).
      intros Hrest. destruct (IH st1 Hc1 Hrest)
        as (Hab' & Hused' & Hc' & Hout' & Hnone' & Hnext' & Har' & Hdr' & Hfiles).
      cbn [isSome negb andb orb fold_left map List.filter].
      rewrite Hab', Hab, Hused', Hused, Hout', Hout, Hnone', Hnone, Hnext', Hnext,
        Har', Har, Hdr', Hdr, <- !app_assoc.
      repeat (split; [first [assumption | reflexivity]|]).
      split.
      { destruct (isDynamicBuilder options b); reflexivity. }
      intros fileName [<-|Hin] Hother; [now split | now apply Hfiles].
    + destruct (classifyFile_other allFiles options usedOutputDirectory f st Eb)
        as (st1 & E1 & Hab & Hused & Hcache & Hout & Hnone & Hnext & Har & Hdr).
      rewrite E1. intros Hrest.
      assert (Hc1 : coherentCache (absolutePathCache st1)) by now rewrite Hcache.
      destruct (IH st1 Hc1 Hrest)
        as (Hab' & Hused' & Hc' & Hout' & Hnone' & Hnext' & Har' & Hdr' & Hfiles).
      cbn [isSome negb andb].
      rewrite Hab', Hab, Hused', Hused, Hout', Hout, Hnone', Hnone, Hnext', Hnext,
        Har', Har, Hdr', Hdr, !orb_assoc.
      repeat (split; [first [assumption | reflexivity]|]).
      intros fileName [<-|Hin] Hother; [|now apply Hfiles].
      unfold otherFile in Hother. rewrite Eb in Hother. discriminate.
Qed.

(** A route error of the loop names a conflict of an API file. *)
Lemma classifyFiles_error (allFiles : list string) (options : Options)
    (usedOutputDirectory : string) (files : list string) (st : LoopState)
    (e : ErrorResponse) :
  coherentCache (absolutePathCache st) ->
  classifyFiles' (getApiMatches options) allFiles options usedOutputDirectory files st
  = inl e ->
  exists fileName,
    In fileName files /\ otherFile' options fileName = false
    /\ ((code e = "conflicting_path_segment" /\ getConflictingSegment fileName <> None)
        \/ (code e = "conflicting_file_path"
            /\ getConflictingSegment fileName = None
            /\ exists file, In file allFiles /\ conflictsWith fileName file = true)).
Proof.
  revert st. induction files as [|f files IH]; intros st Hc; [discriminate|].
  cbn [classifyFiles].
  destruct (apiBuilderOf' options f) as [b|] eqn:Eb.
  - pose proof (classifyFile_api allFiles options usedOutputDirectory f st b Hc Eb) as H1.
    destruct (classifyFile' _ allFiles options usedOutputDirectory f st) as [e1|st1].
    + intros [= <-]. exists f. split; [now left|]. split; [|exact H1].
      unfold otherFile. now rewrite Eb.
    + destruct H1 as (_ & _ & _ & _ & Hc1 & _). intros Hrest.
      destruct (IH st1 Hc1 Hrest) as (fileName & Hin & H). exists fileName.
      split; [now right | exact H].
  - destruct (classifyFile_other allFiles options usedOutputDirectory f st Eb)
      as (st1 & E1 & _ & _ & Hcache & _).
    rewrite E1. intros Hrest.
    assert (Hc1 : coherentCache (absolutePathCache st1)) by now rewrite Hcache.
    destruct (IH st1 Hc1 Hrest) as (fileName & Hin & H). exists fileName.
    split; [now right | exact H].
Qed.

End LoopProperties.

(** ** The detector, branch by branch *)

Section DetectorBranches.

Variable localeCompare : string -> string -> Z.
Variable minimatch : string -> string -> bool.
Variable validSemver : string -> bool.
Variable StringToNumber : string -> JsNumber.
Variable NumberToString : JsNumber -> string.

Local Abbreviation detect :=
  (detectBuilders localeCompare minimatch validSemver StringToNumber NumberToString).
Local Abbreviation validate :=
  (validateFunctions validSemver StringToNumber NumberToString).
Local Abbreviation sorted := (filesAfterSorts localeCompare).
Local Abbreviation apiOf options files := (omap (apiBuilderOf minimatch options) files).
Local Abbreviation loop options files :=
  (classifyFiles minimatch (getApiMatches options) files options
                 (usedOutputDirectoryOf options) files loopInit).

Lemma detectBuilders_branches (files : list string) (pkg : option PackageJson)
    (options : Options) :
  detect files pkg options
  = match validate options with
    | Some functionError => errorResult [functionError] []
    | None =>
        match loop options (sorted files) with
        | inl routeError => errorResult [routeError] []
        | inr st =>
            match frontendChoice pkg (sorted files) options st with
            | inl missingBuildScript => errorResult [missingBuildScript] []
            | inr frontendBuilder =>
                match checkUnusedFunctions frontendBuilder (usedFunctions st) options with
                | Some unusedFunctionError => errorResult [unusedFunctionError] []
                | None => successResult options st frontendBuilder
                end
            end
        end
    end.
Proof.
  unfold detectBuilders, frontendChoice, successResult, usedOutputDirectoryOf. cbv zeta.
  destruct (validate options); [reflexivity|].
  destruct (classifyFiles _ _ _ _ _ _ _) as [e|st]; [reflexivity|].
  destruct (negb _ && (hasBuildScript pkg || _ || _)).
  - destruct (checkUnusedFunctions _ _ _); [reflexivity|].
    cbn [app]. destruct (apiBuilders st); reflexivity.
  - destruct (isSome pkg && _ && _ && _); [reflexivity|].
    destruct (hasUsedOutputDirectory st && _).
    + destruct (checkUnusedFunctions _ _ _); [reflexivity|].
      destruct (apiBuilders st); reflexivity.
    + destruct (nonEmpty (apiBuilders st) && hasNoneApiFiles st).
      * destruct (checkUnusedFunctions _ _ _); [reflexivity|].
        destruct (apiBuilders st); reflexivity.
      * destruct (checkUnusedFunctions _ _ _); [reflexivity|].
        rewrite app_nil_r. destruct (apiBuilders st); reflexivity.
Qed.

Lemma In_sorted (files : list string) (f : string) :
  In f (sorted files) <-> In f files.
Proof.
  unfold filesAfterSorts. cbv zeta. split; intros H.
  - eapply Permutation_in; [|exact H].
    etransitivity; apply sort_perm.
  - eapply Permutation_in; [|exact H]. symmetry.
    etransitivity; apply sort_perm.
Qed.

Lemma loop_done (options : Options) (files : list string) (st : LoopState) :
  loop options files = inr st ->
  apiBuilders st = apiOf options files
  /\ usedFunctions st
     = fold_left (fun used b => addToUsedFunctions b used) (apiOf options files) ∅
  /\ hasUsedOutputDirectory st
     = existsb (fun f => otherFile minimatch options f
                         && startsWith f (usedOutputDirectoryOf options +:+ "/")) files
  /\ hasNoneApiFiles st
     = existsb (fun f => otherFile minimatch options f
                         && (negb (startsWith f "api/")
                             && negb (String.eqb f "package.json"))) files
  /\ hasNextApiFiles st
     = existsb (fun f => otherFile minimatch options f && isNextApiFile f) files
  /\ apiRoutes st = map (routeOf options) (apiOf options files)
  /\ dynamicRoutes st
     = map (routeOf options) (List.filter (isDynamicBuilder options) (apiOf options files))
  /\ (forall fileName, In fileName files -> otherFile minimatch options fileName = false ->
        getConflictingSegment fileName = None
        /\ forall file, In file files -> conflictsWith fileName file = false).
Proof.
  intros H.
  destruct (classifyFiles_done minimatch files options (usedOutputDirectoryOf options)
              files loopInit st coherentCache_empty H)
    as (Hab & Hused & _ & Hout & Hnone & Hnext & Har & Hdr & Hfiles).
  cbn [loopInit apiBuilders usedFunctions hasUsedOutputDirectory hasNoneApiFiles
       hasNextApiFiles apiRoutes dynamicRoutes app orb] in *.
  repeat (split; [assumption|]). exact Hfiles.
Qed.

Lemma apiOf_In (options : Options) (files : list string) (b : Builder) :
  In b (apiOf options files)
  <-> exists f, In f files /\ apiBuilderOf minimatch options f = Some b.
Proof.
  rewrite <- list_elem_of_In, list_elem_of_omap.
  split; intros (f & Hf & Hb); exists f; split; try exact Hb;
    now apply list_elem_of_In.
Qed.

Lemma apiOf_nil (options : Options) (files : list string) :
  apiOf options files = []
  <-> forall f, In f files -> otherFile minimatch options f = true.
Proof.
  split.
  - intros E f Hf. unfold otherFile.
    destruct (apiBuilderOf minimatch options f) as [b|] eqn:Eb; [|reflexivity].
    assert (In b (apiOf options files)) by (apply apiOf_In; eauto).
    rewrite E in *. contradiction.
  - intros H. destruct (apiOf options files) as [|b bs] eqn:E; [reflexivity|].
    assert (Hb : In b (apiOf options files)) by (rewrite E; now left).
    apply apiOf_In in Hb as (f & Hf & Hb). specialize (H f Hf).
    unfold otherFile in H. rewrite Hb in H. discriminate.
Qed.

Lemma validate_codes (options : Options) (e : ErrorResponse) :
  validate options = Some e ->
  In (code e)
     [ "invalid_function_glob"; "invalid_function"; "invalid_function_duration";
       "invalid_function_memory"; "invalid_function_source"; "invalid_function_runtime";
       "invalid_function_property" ].
Proof.
  intros H.
  assert (Hspec : specValidate validSemver StringToNumber NumberToString
                    (optionFunctions options) = Some (code e)).
  { rewrite <- validateEntries_spec. unfold validateFunctions in H. now rewrite H. }
  clear H. induction (optionFunctions options) as [|[p f] rest IH]; [discriminate|].
  cbn [specValidate] in Hspec.
  destruct (firstFailedCheck validSemver StringToNumber NumberToString p f) as [c|] eqn:Ec;
    [|now apply IH].
  injection Hspec as <-. unfold firstFailedCheck in Ec.
  destruct (find _ _) as [[c' check]|] eqn:Ef; [|discriminate].
  injection Ec as <-. apply find_some in Ef as [Hin _]. cbn [fst].
  unfold specChecks in Hin. cbn [In] in Hin. cbn [In].
  repeat (destruct Hin as [Hin|Hin]; [injection Hin as <- _; tauto|]). contradiction.
Qed.

Lemma frontendChoice_error (pkg : option PackageJson) (files : list string)
    (options : Options) (st : LoopState) (e : ErrorResponse) :
  frontendChoice pkg files options st = inl e
  <-> e = getMissingBuildScriptError
      /\ isSome pkg = true
      /\ hasBuildScript pkg = false
      /\ ignoreBuildScript options = false
      /\ apiBuilders st = []
      /\ buildCommand (settings options) = None
      /\ optTruthy (framework (settings options)) = false
      /\ outputDirectory (settings options) <> Some "".
Proof.
  unfold frontendChoice. cbv zeta.
  assert (Hstatic : forall o : option string, optStringEqb o (Some "") = false <-> o <> Some "").
  { intros o. rewrite <- Bool.not_true_iff_false, optStringEqb_spec. reflexivity. }
  assert (Hcommand : optStringEqb (buildCommand (settings options)) (Some "") = false
                     /\ optTruthy (buildCommand (settings options)) = false
                     <-> buildCommand (settings options) = None).
  { destruct (buildCommand (settings options)) as [c|]; cbn; [|tauto].
    unfold JsString.truthy. destruct (String.eqb c ""); cbn; split;
      try discriminate; now intros []. }
  assert (Hapi : negb (nonEmpty (apiBuilders st)) = true <-> apiBuilders st = []).
  { destruct (apiBuilders st); cbn; split; congruence. }
  split.
  - destruct (negb _ && (hasBuildScript pkg || _ || _)) eqn:E1; [discriminate|].
    destruct (isSome pkg && _ && _ && _) eqn:E2.
    + intros [= <-]. split; [reflexivity|].
      apply andb_true_iff in E2 as [E2 Hi]. apply andb_true_iff in E2 as [E2 Ha].
      apply andb_true_iff in E2 as [Hp Hs]. rewrite Hs in E1. cbn [andb] in E1.
      apply orb_false_iff in E1 as [E1 Hf]. apply orb_false_iff in E1 as [Hb Hc].
      apply negb_true_iff, orb_false_iff in Hs as [Hs1 Hs2].
      apply negb_true_iff in Hi. apply Hapi in Ha. apply Hstatic in Hs2.
      repeat (split; [assumption|]). split; [|split; assumption].
      now apply Hcommand.
    + destruct (hasUsedOutputDirectory st && _); [discriminate|].
      destruct (nonEmpty (apiBuilders st) && hasNoneApiFiles st); discriminate.
  - intros (-> & Hp & Hb & Hi & Ha & Hc & Hf & Ho).
    apply Hcommand in Hc as [Hc1 Hc2]. apply Hstatic in Ho. apply Hapi in Ha.
    now rewrite Hc1, Hc2, Ho, Hb, Hf, Hp, Ha, Hi.
Qed.

Lemma checkUnused_code (fb : option Builder) (used : gset string) (options : Options)
    (e : ErrorResponse) :
  checkUnusedFunctions fb used options = Some e -> code e = "unused_function".
Proof. intros H. now apply checkUnusedFunctions_cases in H. Qed.

Lemma detect_error_code (files : list string) (pkg : option PackageJson)
    (options : Options) (es : list ErrorResponse) :
  errors (detect files pkg options) = Some es ->
  exists e, es = [e] /\ In (code e) errorCodes /\ warnings (detect files pkg options) = [].
Proof.
  rewrite detectBuilders_branches.
  destruct (validate options) as [e|] eqn:Ev.
  { cbn. intros [= <-]. exists e. split; [reflexivity|]. split; [|reflexivity].
    apply validate_codes in Ev. unfold errorCodes. cbn [In] in *. tauto. }
  destruct (loop options (sorted files)) as [e|st] eqn:El.
  { cbn. intros [= <-]. exists e. split; [reflexivity|]. split; [|reflexivity].
    apply (classifyFiles_error minimatch) in El as (f & _ & _ & [[-> _]|[-> _]]);
      [| |apply coherentCache_empty]; unfold errorCodes; cbn [In]; tauto. }
  destruct (frontendChoice pkg (sorted files) options st) as [e|fb] eqn:Ef.
  { cbn. intros [= <-]. exists e. split; [reflexivity|]. split; [|reflexivity].
    apply frontendChoice_error in Ef as [-> _]. unfold errorCodes. cbn. tauto. }
  destruct (checkUnusedFunctions fb (usedFunctions st) options) as [e|] eqn:Eu.
  { cbn. intros [= <-]. exists e. split; [reflexivity|]. split; [|reflexivity].
    apply checkUnused_code in Eu as ->. unfold errorCodes. cbn [In]. tauto. }
  cbn. discriminate.
Qed.

(** X21. An error of the detector is a single one, with one of eleven
    codes, and comes without warnings. *)
Theorem detect_error_codes (files : list string) (pkg : option PackageJson)
    (options : Options) (es : list ErrorResponse) :
  errors (detect files pkg options) = Some es ->
  exists e, es = [e] /\ In (code e) errorCodes /\ warnings (detect files pkg options) = [].
Proof. exact (detect_error_code files pkg options es). Qed.

(** What a run without error returns. *)
Lemma detect_success (files : list string) (pkg : option PackageJson) (options : Options) :
  errors (detect files pkg options) = None ->
  exists st frontendBuilder,
    loop options (sorted files) = inr st
    /\ validate options = None
    /\ frontendChoice pkg (sorted files) options st = inr frontendBuilder
    /\ checkUnusedFunctions frontendBuilder (usedFunctions st) options = None
    /\ detect files pkg options = successResult options st frontendBuilder.
Proof.
  rewrite detectBuilders_branches.
  destruct (validate options) as [e|] eqn:Ev; [discriminate|].
  destruct (loop options (sorted files)) as [e|st] eqn:El; [discriminate|].
  destruct (frontendChoice pkg (sorted files) options st) as [e|fb] eqn:Ef; [discriminate|].
  destruct (checkUnusedFunctions fb (usedFunctions st) options) as [e|] eqn:Eu;
    [discriminate|].
  intros _. exists st, fb. now rewrite Ef, Eu.
Qed.

Lemma detect_builders_success (files : list string) (pkg : option PackageJson)
    (options : Options) (bs : list Builder) :
  builders (detect files pkg options) = Some bs ->
  errors (detect files pkg options) = None.
Proof.
  rewrite detectBuilders_branches.
  destruct (validate options) as [e|]; [discriminate|].
  destruct (loop options (sorted files)) as [e|st]; [discriminate|].
  destruct (frontendChoice pkg (sorted files) options st) as [e|fb]; [discriminate|].
  destruct (checkUnusedFunctions fb (usedFunctions st) options) as [e|]; [discriminate|].
  reflexivity.
Qed.

Lemma detect_builders_api (files : list string) (pkg : option PackageJson)
    (options : Options) (bs : list Builder) :
  builders (detect files pkg options) = Some bs ->
  exists front,
    bs = apiOf options (sorted files) ++ front
    /\ (front = [] \/ exists fb, front = [fb])
    /\ (forall b, In b (apiOf options (sorted files)) ->
          In (src b) files /\ apiBuilderOf minimatch options (src b) = Some b).
Proof.
  intros Hbs. pose proof (detect_builders_success _ _ _ _ Hbs) as Herr.
  destruct (detect_success _ _ _ Herr) as (st & fb & Hloop & _ & _ & _ & E).
  rewrite E in Hbs. unfold successResult in Hbs. cbn [builders] in Hbs.
  destruct (loop_done _ _ _ Hloop) as (Hab & _). rewrite Hab in Hbs.
  exists (match fb with Some b => [b] | None => [] end). split; [|split].
  - destruct (_ ++ _); [discriminate | now injection Hbs].
  - destruct fb; eauto.
  - intros b Hb. apply apiOf_In in Hb as (f & Hf & Hb).
    destruct (maybeGetApiBuilder_some minimatch _ _ _ _ Hb) as (Hsrc & _).
    rewrite Hsrc. split; [now apply In_sorted | exact Hb].
Qed.

(** X22. The builders returned are the API builders of the files, in the
    order of the loop, followed by the frontend builder if there is one;
    every API builder is the builder of its own source, an input file. *)
Theorem detect_builders_order (files : list string) (pkg : option PackageJson)
    (options : Options) (bs : list Builder) :
  builders (detect files pkg options) = Some bs ->
  exists front,
    bs = apiOf options (sorted files) ++ front
    /\ (front = [] \/ exists fb, front = [fb])
    /\ (forall b, In b (apiOf options (sorted files)) ->
          In (src b) files /\ apiBuilderOf minimatch options (src b) = Some b).
Proof. exact (detect_builders_api files pkg options bs). Qed.

(** X23. Every API builder has one route, the route of its source, in
    the order of the builders: in the default routes in legacy mode,
    where nothing is redirected or rewritten; in handle-miss mode the
    routes of the dynamic ones are the rewrites, before the 404 route. *)
Theorem detect_api_routes (files : list string) (pkg : option PackageJson)
    (options : Options) :
  errors (detect files pkg options) = None ->
  if featHandleMiss options then
    rewriteRoutes (detect files pkg options)
    = Some (match apiOf options (sorted files) with
            | [] => []
            | api =>
                map (routeOf options) (List.filter (isDynamicBuilder options) api)
                ++ [routeApi404Continue]
            end)
  else
    (exists tail,
        defaultRoutes (detect files pkg options)
        = Some (map (routeOf options) (apiOf options (sorted files)) ++ tail))
    /\ redirectRoutes (detect files pkg options) = Some []
    /\ rewriteRoutes (detect files pkg options) = Some [].
Proof.
  intros Herr.
  destruct (detect_success _ _ _ Herr) as (st & fb & Hloop & _ & _ & _ & E).
  rewrite E. unfold successResult. cbn [defaultRoutes redirectRoutes rewriteRoutes].
  destruct (loop_done _ _ _ Hloop) as (Hab & _ & _ & _ & _ & Har & Hdr & _).
  rewrite Har, Hdr.
  set (api := apiOf options (sorted files)).
  destruct (featHandleMiss options) eqn:Emiss.
  - pose proof (getRouteResult_miss (map (routeOf options) api)
                  (map (routeOf options) (List.filter (isDynamicBuilder options) api))
                  (usedOutputDirectoryOf options) (apiBuilders st) fb options Emiss) as H.
    cbv zeta in H. destruct H as (Hnil & Hcons & _).
    destruct api as [|b api'].
    + now destruct (Hnil eq_refl) as (_ & _ & ->).
    + rewrite Hcons by discriminate. reflexivity.
  - unfold getRouteResult. rewrite Emiss.
    destruct (map (routeOf options) api) as [|r rs] eqn:Er.
    + cbn. split; [|split; reflexivity]. eauto.
    + cbn [List.length Nat.ltb Nat.leb rrDefaultRoutes rrRedirectRoutes rrRewriteRoutes].
      split; [|split; reflexivity].
      destruct fb as [b|]; [destruct (_ && _ && _)|]; rewrite <- ?app_assoc; eauto.
Qed.

(** X24. A run without error has met no conflict: no API file repeats a
    placeholder name, and no input file, API file or not, conflicts with
    an API file. A conflict error stands for such a conflict. *)
Theorem detect_conflict_free (files : list string) (pkg : option PackageJson)
    (options : Options) :
  (errors (detect files pkg options) = None ->
   forall fileName, In fileName files ->
     apiBuilderOf minimatch options fileName <> None ->
     getConflictingSegment fileName = None
     /\ forall file, In file files -> conflictsWith fileName file = false)
  /\ (forall e, errors (detect files pkg options) = Some [e] ->
        code e = "conflicting_path_segment" \/ code e = "conflicting_file_path" ->
        exists fileName,
          In fileName files /\ apiBuilderOf minimatch options fileName <> None
          /\ (getConflictingSegment fileName <> None
              \/ exists file, In file files /\ conflictsWith fileName file = true)).
Proof.
  split.
  - intros Herr fileName Hin Hapi.
    destruct (detect_success _ _ _ Herr) as (st & fb & Hloop & _).
    destruct (loop_done _ _ _ Hloop) as (_ & _ & _ & _ & _ & _ & _ & Hfiles).
    destruct (Hfiles fileName) as [Hseg Hall].
    + now apply In_sorted.
    + unfold otherFile. now destruct (apiBuilderOf minimatch options fileName).
    + split; [exact Hseg|]. intros file Hf. apply Hall. now apply In_sorted.
  - intros e. rewrite detectBuilders_branches.
    destruct (validate options) as [e0|] eqn:Ev.
    { cbn. intros [= <-] Hcode. apply validate_codes in Ev. cbn [In] in Ev.
      exfalso. destruct Hcode as [Hc|Hc]; rewrite Hc in Ev;
        repeat (destruct Ev as [Ev|Ev]; [discriminate|]); contradiction. }
    destruct (loop options (sorted files)) as [e0|st] eqn:El.
    { cbn. intros [= <-] _.
      apply (classifyFiles_error minimatch) in El as (f & Hf & Ho & H);
        [|apply coherentCache_empty].
      exists f. split; [now apply In_sorted|]. split.
      - unfold otherFile in Ho. now destruct (apiBuilderOf minimatch options f).
      - destruct H as [[_ H]|(_ & _ & g & Hg & H)]; [now left|]. right.
        exists g. split; [now apply In_sorted | exact H]. }
    destruct (frontendChoice pkg (sorted files) options st) as [e0|fb] eqn:Ef.
    { cbn. intros [= <-] Hcode. apply frontendChoice_error in Ef as [-> _].
      destruct Hcode; discriminate. }
    destruct (checkUnusedFunctions fb (usedFunctions st) options) as [e0|] eqn:Eu.
    { cbn. intros [= <-] Hcode. apply checkUnused_code in Eu. rewrite Eu in Hcode.
      destruct Hcode; discriminate. }
    cbn. discriminate.
Qed.

Lemma usedFunctions_api (api : list Builder) (used : gset string) (key : string) :
  key ∈ fold_left (fun used b => addToUsedFunctions b used) api used ->
  key ∈ used \/ exists b, In b api /\ In key (map fst (builderFunctions b)).
Proof.
  revert used. induction api as [|b api IH]; intros used; [now left|].
  cbn [fold_left]. intros H. apply IH in H as [H|(b' & Hb' & H)].
  - unfold addToUsedFunctions in H. unfold builderFunctions.
    destruct (config b) as [cfg|] eqn:Ec; [|now left].
    destruct (cfgFunctions cfg) as [[|[k v] rest]|] eqn:Efs; [now left| |now left].
    destruct (JsString.truthy k); [|now left].
    apply elem_of_union in H as [H|H]; [|now left].
    apply elem_of_singleton in H as ->. right. exists b. split; [now left|].
    unfold builderFunctions. rewrite Ec, Efs. now left.
  - right. exists b'. split; [now right | exact H].
Qed.

(** X25. On success no function entry is dropped: every key of the
    function map is a key of the configuration of a builder that is
    returned. *)
Theorem detect_functions_attached (files : list string) (pkg : option PackageJson)
    (options : Options) (key : string) :
  errors (detect files pkg options) = None ->
  In key (map fst (optionFunctions options)) ->
  exists bs b,
    builders (detect files pkg options) = Some bs
    /\ In b bs /\ In key (map fst (builderFunctions b)).
Proof.
  intros Herr Hkey.
  destruct (detect_success _ _ _ Herr) as (st & fb & Hloop & _ & Hfront & Hunused & E).
  rewrite E. unfold successResult. cbn [builders].
  destruct (loop_done _ _ _ Hloop) as (Hab & Hused & _).
  assert (Hb : exists b,
             In b (apiBuilders st ++ match fb with Some b => [b] | None => [] end)
             /\ In key (map fst (builderFunctions b))).
  { destruct (proj1 (proj1 (checkUnusedFunctions_cases fb (usedFunctions st) options))
                Hunused key Hkey) as [Hin|[Hnext Hpages]].
    - rewrite Hused in Hin. apply usedFunctions_api in Hin as [Hin|(b & Hb & Hin)].
      + exfalso. exact (not_elem_of_empty key Hin).
      + exists b. split; [|exact Hin]. apply in_or_app. left. now rewrite Hab.
    - destruct (decide (key ∈ usedFunctions st)) as [Hin|Hnot].
      + rewrite Hused in Hin. apply usedFunctions_api in Hin as [Hin|(b & Hb & Hin)].
        * exfalso. exact (not_elem_of_empty key Hin).
        * exists b. split; [|exact Hin]. apply in_or_app. left. now rewrite Hab.
      + destruct fb as [b|]; [|discriminate]. exists b.
        split; [apply in_or_app; right; now left|].
        unfold frontendChoice in Hfront. cbv zeta in Hfront.
        destruct (negb _ && (hasBuildScript pkg || _ || _)).
        * injection Hfront as <-.
          apply (detectFrontBuilder_keys pkg (sorted files) (usedFunctions st)
                   (fallbackEntrypoint st) options). now split.
        * destruct (isSome pkg && _ && _ && _); [discriminate|].
          destruct (hasUsedOutputDirectory st && _); [injection Hfront as <-; discriminate|].
          destruct (nonEmpty (apiBuilders st) && hasNoneApiFiles st);
            [injection Hfront as <-|]; discriminate. }
  destruct Hb as (b & Hb & Hin).
  destruct (apiBuilders st ++ match fb with Some b => [b] | None => [] end) as [|b0 bs];
    [contradiction|].
  now exists (b0 :: bs), b.
Qed.

(** X26. The only warning reports API files of both kinds: it needs a
    run without error, an API builder, a frontend builder and a file
    under pages/api or src/pages/api. *)
Theorem detect_warnings (files : list string) (pkg : option PackageJson)
    (options : Options) :
  (warnings (detect files pkg options) = []
   \/ warnings (detect files pkg options) = [conflictingFilesWarning])
  /\ (warnings (detect files pkg options) <> [] ->
      errors (detect files pkg options) = None
      /\ apiOf options (sorted files) <> []
      /\ (exists fb,
             builders (detect files pkg options)
             = Some (apiOf options (sorted files) ++ [fb]))
      /\ exists fileName, In fileName files /\ isNextApiFile fileName = true).
Proof.
  destruct (errors (detect files pkg options)) as [es|] eqn:Herr.
  { destruct (detect_error_code _ _ _ _ Herr) as (e & _ & _ & ->). split; [now left|].
    congruence. }
  destruct (detect_success _ _ _ Herr) as (st & fb & Hloop & _ & _ & _ & E).
  rewrite E. unfold successResult. cbn [warnings builders].
  destruct (loop_done _ _ _ Hloop) as (Hab & _ & _ & _ & Hnext & _).
  split.
  - destruct fb; [destruct (_ && _)|]; auto.
  - destruct fb as [b|]; [|congruence].
    destruct (hasNextApiFiles st && nonEmpty (apiBuilders st)) eqn:Ew; [|congruence].
    intros _. apply andb_true_iff in Ew as [Hn Ha]. split; [reflexivity|].
    rewrite Hab in *. split; [now destruct (apiOf options (sorted files))|]. split.
    + exists b. now destruct (apiOf options (sorted files)).
    + rewrite Hnext in Hn. apply existsb_exists in Hn as (f & Hf & Hn).
      apply andb_true_iff in Hn as [_ Hn]. exists f. split; [now apply In_sorted | exact Hn].
Qed.

(** X27. The missing build script is reported exactly when the function
    map is valid, there is a package manifest without a build script,
    the script is not ignored, no file gets an API builder, and the
    settings name no build command, no framework and no empty output
    directory. *)
Theorem detect_missing_build_script (files : list string) (pkg : option PackageJson)
    (options : Options) :
  (exists e, errors (detect files pkg options) = Some [e]
             /\ code e = "missing_build_script")
  <-> validate options = None
      /\ isSome pkg = true
      /\ hasBuildScript pkg = false
      /\ ignoreBuildScript options = false
      /\ (forall f, In f files -> apiBuilderOf minimatch options f = None)
      /\ buildCommand (settings options) = None
      /\ optTruthy (framework (settings options)) = false
      /\ outputDirectory (settings options) <> Some "".
Proof.
  assert (Hnone : apiOf options (sorted files) = []
                  <-> forall f, In f files -> apiBuilderOf minimatch options f = None).
  { rewrite apiOf_nil. split; intros H f Hf.
    - apply (proj2 (In_sorted _ _)) in Hf. specialize (H f Hf). unfold otherFile in H.
      now destruct (apiBuilderOf minimatch options f).
    - apply (proj1 (In_sorted _ _)) in Hf. unfold otherFile. now rewrite (H f Hf). }
  rewrite detectBuilders_branches. split.
  - intros (e & Herr & Hcode).
    destruct (validate options) as [e0|] eqn:Ev.
    { cbn in Herr. injection Herr as <-. apply validate_codes in Ev. cbn [In] in Ev.
      rewrite Hcode in Ev. exfalso.
      repeat (destruct Ev as [Ev|Ev]; [discriminate|]). contradiction. }
    destruct (loop options (sorted files)) as [e0|st] eqn:El.
    { cbn in Herr. injection Herr as <-.
      apply (classifyFiles_error minimatch) in El as (f & _ & _ & [[Hc _]|[Hc _]]);
        [| |apply coherentCache_empty]; rewrite Hcode in Hc; discriminate. }
    destruct (frontendChoice pkg (sorted files) options st) as [e0|fb] eqn:Ef.
    { apply frontendChoice_error in Ef as (_ & Hp & Hb & Hi & Ha & Hc & Hf & Ho).
      destruct (loop_done _ _ _ El) as (Hab & _). rewrite Hab in Ha.
      pose proof (proj1 Hnone Ha) as Ha'. now repeat (split; [assumption|]). }
    destruct (checkUnusedFunctions fb (usedFunctions st) options) as [e0|] eqn:Eu.
    { cbn in Herr. injection Herr as <-. apply checkUnused_code in Eu.
      rewrite Hcode in Eu. discriminate. }
    discriminate.
  - intros (Hv & Hp & Hb & Hi & Ha' & Hc & Hf & Ho). rewrite Hv.
    pose proof (proj2 Hnone Ha') as Ha.
    destruct (loop options (sorted files)) as [e0|st] eqn:El.
    { exfalso.
      apply (classifyFiles_error minimatch) in El as (f & Hin & Hother & _);
        [|apply coherentCache_empty].
      pose proof (proj1 (apiOf_nil _ _) Ha f Hin) as Hall.
      rewrite Hall in Hother. discriminate. }
    destruct (loop_done _ _ _ El) as (Hab & _).
    assert (Ef : frontendChoice pkg (sorted files) options st = inl getMissingBuildScriptError).
    { apply frontendChoice_error. rewrite Hab. now repeat (split; [assumption|]). }
    rewrite Ef. exists getMissingBuildScriptError. split; reflexivity.
Qed.

End DetectorBranches.

(** ** Placeholder names *)

Lemma last_char (s : string) :
  s <> "" -> exists body c, s = body +:+ String c "".
Proof.
  induction s as [|a s IH]; [congruence|]. intros _.
  destruct s as [|b s'].
  - now exists "", a.
  - destruct IH as (body & c & E); [discriminate|]. exists (String a body), c.
    cbn [String.append]. now rewrite <- E.
Qed.

Lemma endsWith_char (s : string) (c : ascii) :
  endsWith s (String c "") = true <-> exists body, s = body +:+ String c "".
Proof.
  assert (Hsnoc : forall body d, endsWith (body +:+ String d "") (String c "")
                                 = Ascii.eqb d c).
  { intros body d. unfold endsWith. cbv zeta. rewrite length_append. cbn [String.length].
    replace (String.length body + 1 - 1)%nat with (String.length body) by lia.
    replace (1 <=? String.length body + 1)%nat with true
      by (symmetry; apply Nat.leb_le; lia).
    rewrite substring_skip. cbn. destruct (Ascii.eqb d c); reflexivity. }
  split.
  - intros H. destruct s as [|a s'] eqn:E; [discriminate|].
    destruct (last_char (String a s')) as (body & d & Hs); [discriminate|].
    rewrite Hs, Hsnoc in H. apply Ascii.eqb_eq in H. subst d. now exists body.
  - intros [body ->]. rewrite Hsnoc. apply Ascii.eqb_refl.
Qed.

Lemma slice_inner (a : ascii) (n : string) (c : ascii) :
  slice (String a (n +:+ String c "")) 1 (-1) = n.
Proof.
  unfold slice. cbv zeta. cbn [String.length]. rewrite length_append. cbn [String.length].
  replace (Z.of_nat (S (String.length n + 1)) + -1)%Z
    with (Z.of_nat (String.length n) + 1)%Z by lia.
  replace (1 <? 0)%Z with false by reflexivity.
  replace (-1 <? 0)%Z with true by reflexivity.
  rewrite Z.min_l by lia. rewrite Z.max_l by lia.
  replace (Z.to_nat 1) with 1%nat by reflexivity.
  replace (Z.to_nat (Z.of_nat (String.length n) + 1 - 1)) with (String.length n) by lia.
  change (String a (n +:+ String c "")) with (String a "" +:+ (n +:+ String c "")).
  change 1%nat with (String.length (String a "")).
  rewrite substring_skip. apply substring_prefix.
Qed.

(** X6. A segment has the placeholder name [n] exactly when its name
    without the extension is [n] between brackets. *)
Theorem getSegmentName_spec (segment n : string) :
  getSegmentName segment = Some n <-> name (parsePath segment) = "[" +:+ n +:+ "]".
Proof.
  unfold getSegmentName. cbv zeta.
  set (stem := name (parsePath segment)). split.
  - destruct (startsWith stem "[") eqn:Hs; [|discriminate].
    destruct (endsWith stem "]") eqn:He; [|discriminate]. cbn [andb].
    intros [= <-]. apply endsWith_char in He as [body E].
    destruct stem as [|a rest]; [destruct body; discriminate|].
    cbn [startsWith] in Hs. rewrite andb_true_r in Hs. apply Ascii.eqb_eq in Hs. subst a.
    destruct body as [|b body']; [cbn in E; injection E as ?; subst; discriminate|].
    cbn [String.append] in E. injection E as <- ->.
    now rewrite slice_inner.
  - intros ->. change ("[" +:+ n +:+ "]") with (String "[" (n +:+ "]")).
    cbn [startsWith]. rewrite Ascii.eqb_refl. cbn [andb].
    replace (endsWith (String "[" (n +:+ "]")) "]") with true.
    + now rewrite slice_inner.
    + symmetry. apply endsWith_char. now exists (String "[" n).
Qed.

(** X13. Escaping works character by character, a backslash before each
    special character and nothing else changed, and different names have
    different escaped forms. *)
Theorem escapeName_characters :
  escapeName "" = ""
  /\ (forall (c : ascii) (s : string),
         escapeName (String c s)
         = (if isSpecial c then String "\" (String c "") else String c "") +:+ escapeName s)
  /\ (forall a b : string, escapeName a = escapeName b -> a = b).
Proof.
  split; [reflexivity|]. split.
  - intros c s. rewrite escapeName_cons. reflexivity.
  - apply escapeName_inj.
Qed.

(** ** The detector and the functions that read its builders *)

Section DetectorCompositions.

Variable localeCompare : string -> string -> Z.
Variable minimatch : string -> string -> bool.
Variable validSemver : string -> bool.
Variable StringToNumber : string -> JsNumber.
Variable NumberToString : JsNumber -> string.

Local Abbreviation detect :=
  (detectBuilders localeCompare minimatch validSemver StringToNumber NumberToString).
Local Abbreviation sorted := (filesAfterSorts localeCompare).
Local Abbreviation apiOf options files := (omap (apiBuilderOf minimatch options) files).

(** X17. The loop visits every file once, files with more segments first
    and, among files with as many segments, those with fewer placeholder
    segments at the end first. *)
Theorem loop_order_sorted (files : list string) :
  Permutation (sorted files) files
  /\ ForallOrdPairs segmentOrder (sorted files).
Proof.
  unfold filesAfterSorts. cbv zeta. split.
  - etransitivity; apply sort_perm.
  - apply (sort_sorted sortFilesBySegmentCount segmentOrder).
    + apply segmentOrder_spec.
    + apply segmentOrder_trans.
    + intros a b. apply sortFilesBySegmentCount_antisym.
Qed.

Lemma default_use_not_static (options : Options) (m : Builder) :
  In m (getApiMatches options) -> useIs m "@now/static" = false.
Proof.
  unfold getApiMatches. cbv zeta. cbn [In].
  intros [<-|[<-|[<-|[<-|[<-|[]]]]]]; reflexivity.
Qed.

Lemma api_use_not_static (options : Options) (fileName : string) (b : Builder) :
  functions options = None ->
  apiBuilderOf minimatch options fileName = Some b ->
  useIs b "@now/static" = false.
Proof.
  intros Hfn Hb. unfold apiBuilderOf in Hb.
  destruct (maybeGetApiBuilder_some minimatch _ _ _ _ Hb)
    as (_ & _ & _ & _ & _ & _ & _ & _ & Huse & _).
  destruct Huse as [(key & func & Hg & _)|(m & pre & post & E & Huse & _)].
  - unfold getFunction, optionFunctions in Hg. rewrite Hfn in Hg. discriminate.
  - unfold useIs. rewrite Huse. apply (default_use_not_static options).
    rewrite E. apply in_or_app. right. now left.
Qed.

(** X28. When builders are returned for a project without function map,
    build script, build command and framework, with a file that is no
    API file under the output directory: the last builder is the static
    builder of that directory, and [detectOutputDirectory] finds the
    directory again in the builders returned. *)
Theorem detect_static_output (files : list string) (pkg : option PackageJson)
    (options : Options) (bs : list Builder) :
  builders (detect files pkg options) = Some bs ->
  functions options = None ->
  hasBuildScript pkg = false ->
  buildCommand (settings options) = None ->
  framework (settings options) = None ->
  outputDirectory (settings options) <> Some "" ->
  (exists f, In f files
             /\ apiBuilderOf minimatch options f = None
             /\ startsWith f (usedOutputDirectoryOf options +:+ "/") = true) ->
  bs = apiOf options (sorted files) ++ [staticPublicBuilder (usedOutputDirectoryOf options)]
  /\ (allChars notTerminator (usedOutputDirectoryOf options) = true ->
      allChars (notChar "*") (usedOutputDirectoryOf options) = true ->
      detectOutputDirectory bs = Some (usedOutputDirectoryOf options)).
Proof.
  intros Hbs Hfn Hscript Hcommand Hframework Hout (f & Hf & Hapi & Hunder).
  pose proof (detect_builders_success localeCompare minimatch validSemver StringToNumber
                NumberToString _ _ _ _ Hbs) as Herr.
  destruct (detect_success localeCompare minimatch validSemver StringToNumber
              NumberToString _ _ _ Herr) as (st & fb & Hloop & _ & Hfront & _ & E).
  rewrite E in Hbs. unfold successResult in Hbs. cbn [builders] in Hbs.
  destruct (loop_done minimatch _ _ _ Hloop) as (Hab & _ & Hused & _).
  assert (Hdir : hasUsedOutputDirectory st = true).
  { rewrite Hused. apply existsb_exists. exists f.
    split; [now apply (In_sorted localeCompare)|].
    unfold otherFile. now rewrite Hapi, Hunder. }
  assert (Hstatic : optStringEqb (outputDirectory (settings options)) (Some "") = false).
  { apply Bool.not_true_iff_false. intros H. now apply optStringEqb_spec in H. }
  assert (Hfb : fb = Some (staticPublicBuilder (usedOutputDirectoryOf options))).
  { unfold frontendChoice in Hfront. cbv zeta in Hfront.
    rewrite Hscript, Hcommand, Hframework, Hdir, Hstatic in Hfront.
    cbn [optStringEqb optTruthy orb andb negb] in Hfront.
    destruct (isSome pkg && true && negb (nonEmpty (apiBuilders st))
              && negb (ignoreBuildScript options)); [discriminate|].
    now injection Hfront as <-. }
  subst fb. rewrite Hab in Hbs.
  assert (Ebs : bs = apiOf options (sorted files)
                     ++ [staticPublicBuilder (usedOutputDirectoryOf options)]).
  { destruct (_ ++ _) eqn:Eapp; [discriminate | now injection Hbs]. }
  split; [exact Ebs|]. intros Hterm Hstar. rewrite Ebs.
  apply detectOutputDirectory_public; [|exact Hterm | exact Hstar].
  apply List.Forall_forall. intros b Hb.
  apply (apiOf_In minimatch) in Hb as (g & _ & Hb).
  now apply (api_use_not_static options g).
Qed.

(** X29. When some file gets an API builder, the builder is returned,
    [detectApiDirectory] finds the api directory in the builders
    returned, and [detectApiExtensions] lists the extension of the file. *)
Theorem detect_api_directory (files : list string) (pkg : option PackageJson)
    (options : Options) (bs : list Builder) (fileName : string) (b : Builder) :
  builders (detect files pkg options) = Some bs ->
  In fileName files ->
  apiBuilderOf minimatch options fileName = Some b ->
  In b bs
  /\ detectApiDirectory bs = Some "api"
  /\ (extname fileName <> "" -> In (extname fileName) (detectApiExtensions bs)).
Proof.
  intros Hbs Hf Hb.
  destruct (detect_builders_api localeCompare minimatch validSemver StringToNumber
              NumberToString _ _ _ _ Hbs) as (front & -> & _ & _).
  assert (Hin : In b (apiOf options (sorted files) ++ front)).
  { apply in_or_app. left. apply (apiOf_In minimatch). exists fileName.
    split; [now apply (In_sorted localeCompare) | exact Hb]. }
  unfold apiBuilderOf in Hb.
  destruct (maybeGetApiBuilder_some minimatch _ _ _ _ Hb)
    as (Hsrc & Hstart & _ & _ & _ & _ & _ & Hzero & _).
  split; [exact Hin|]. split.
  - apply (proj1 (detectApiDirectory_cases _)). exists b. now rewrite Hsrc.
  - intros Hext. apply (proj1 (detectApiExtensions_members _)). split; [exact Hext|].
    exists b. now rewrite Hsrc.
Qed.

End DetectorCompositions.

(** ** Files that differ in their extension *)

Lemma parse_decompose (path : string) :
  endsWith path "/" = false ->
  (allChars notSlash path = true
   /\ dir (parsePath path) = ""
   /\ path = name (parsePath path) +:+ ext (parsePath path))
  \/ (exists a b,
         path = a +:+ "/" +:+ b /\ allChars notSlash b = true
         /\ dir (parsePath path) = (if String.eqb a "" then "/" else a)
         /\ b = name (parsePath path) +:+ ext (parsePath path)).
Proof.
  intros Hend.
  destruct (last_separator slash path) as [Hfree | (a & b & -> & Hb)].
  - left. split; [exact Hfree|].
    destruct (String.eqb_spec path "") as [->|Hne]; [now split|].
    pose proof (parsePath_component path "" Hne Hfree eq_refl) as Hp.
    rewrite append_nil_r in Hp. rewrite Hp. cbn [dir name ext].
    split; [reflexivity|]. symmetry. apply splitExt_append.
  - right. exists a, b. split; [reflexivity|]. split; [exact Hb|].
    destruct (String.eqb_spec b "") as [->|Hne].
    { change (String slash "") with "/" in Hend. now rewrite endsWith_snoc in Hend. }
    destruct (String.eqb_spec a "") as [->|Ha].
    + pose proof (parsePath_under_root b "" Hne Hb eq_refl) as Hp.
      rewrite append_nil_r in Hp.
      change ("" +:+ String slash b) with ("/" +:+ b). rewrite Hp. cbn [dir name ext].
      split; [reflexivity|]. symmetry. apply splitExt_append.
    + pose proof (parsePath_nested a b "" Ha Hne Hb eq_refl) as Hp.
      rewrite append_nil_r in Hp.
      change (a +:+ String slash b) with (a +:+ "/" +:+ b). rewrite Hp. cbn [dir name ext].
      split; [reflexivity|]. symmetry. apply splitExt_append.
Qed.

Lemma free_prefix (n e : string) :
  allChars notSlash (n +:+ e) = true -> allChars notSlash n = true.
Proof. rewrite allChars_append. now intros [H _]%andb_true_iff. Qed.

Lemma free_no_slash (a b : string) : allChars notSlash (a +:+ "/" +:+ b) = false.
Proof.
  rewrite allChars_append. change ("/" +:+ b) with (String slash b). cbn [allChars].
  unfold notSlash at 2, notChar. rewrite Ascii.eqb_refl. cbn. apply andb_false_r.
Qed.

(** X11. Two file paths with the same stem, that is, that differ at most
    in the extension [path.parse] finds, have the same normalized path;
    so they conflict when they differ. *)
Theorem same_stem_conflict (stem pathA pathB : string) :
  pathA = stem +:+ ext (parsePath pathA) ->
  pathB = stem +:+ ext (parsePath pathB) ->
  endsWith pathA "/" = false -> endsWith pathB "/" = false ->
  getAbsolutePath pathA = getAbsolutePath pathB
  /\ (pathA <> pathB -> conflictsWith pathA pathB = true).
Proof.
  intros EA EB HA HB.
  assert (Hparts : dir (parsePath pathA) = dir (parsePath pathB)
                   /\ name (parsePath pathA) = name (parsePath pathB)).
  { destruct (parse_decompose pathA HA) as [(FA & DA & PA)|(a & x & PA & Fx & DA & Ex)];
      destruct (parse_decompose pathB HB) as [(FB & DB & PB)|(b & y & PB & Fy & DB & Ey)].
    - rewrite DA, DB. split; [reflexivity|].
      rewrite PA in EA at 1. rewrite PB in EB at 1.
      apply append_inv_tail in EA, EB. congruence.
    - exfalso. rewrite PA in EA at 1. apply append_inv_tail in EA.
      rewrite PB, Ey, <- !append_assoc, <- EA in EB at 1. apply append_inv_tail in EB.
      rewrite PA in FA. apply free_prefix in FA. rewrite <- EB, append_assoc in FA.
      now rewrite free_no_slash in FA.
    - exfalso. rewrite PB in EB at 1. apply append_inv_tail in EB.
      rewrite PA, Ex, <- !append_assoc, <- EB in EA at 1. apply append_inv_tail in EA.
      rewrite PB in FB. apply free_prefix in FB. rewrite <- EA, append_assoc in FB.
      now rewrite free_no_slash in FB.
    - rewrite PA, Ex, <- !append_assoc in EA at 1. apply append_inv_tail in EA.
      rewrite PB, Ey, <- !append_assoc in EB at 1. apply append_inv_tail in EB.
      rewrite <- EB, !append_assoc in EA.
      rewrite Ex in Fx. rewrite Ey in Fy. apply free_prefix in Fx, Fy.
      change ("/" +:+ name (parsePath pathA)) with (String slash (name (parsePath pathA))) in EA.
      change ("/" +:+ name (parsePath pathB)) with (String slash (name (parsePath pathB))) in EA.
      apply last_separator_unique in EA as [-> ->]; [|assumption..].
      rewrite DA, DB. now split. }
  destruct Hparts as [Hdir Hname].
  assert (Habs : getAbsolutePath pathA = getAbsolutePath pathB)
    by now rewrite !getAbsolutePath_parts, Hdir, Hname.
  split; [exact Habs|]. intros Hne. unfold conflictsWith.
  rewrite Habs, String.eqb_refl. cbn [orb]. rewrite andb_true_r.
  apply negb_true_iff, String.eqb_neq. congruence.
Qed.

(** X30. A joined path has no two adjacent separators; joining changes
    nothing where there are none, also when applied again; and it never
    lengthens the path. *)
Theorem joinPath_normal (segments : list string) :
  noDoubleSlash (joinPath segments) = true
  /\ (noDoubleSlash (join "/" segments) = true -> joinPath segments = join "/" segments)
  /\ joinPath [joinPath segments] = joinPath segments
  /\ (String.length (joinPath segments) <= String.length (join "/" segments))%nat.
Proof.
  unfold joinPath. split; [apply collapse_noDouble|]. split; [apply collapse_fix|]. split.
  - cbn [join]. apply collapse_fix, collapse_noDouble.
  - apply collapseSlashes_length.
Qed.
(** ** The detector as a whole *)

Section DetectorProperties.

Variable localeCompare : string -> string -> Z.
Variable minimatch : string -> string -> bool.
Variable validSemver : string -> bool.
Variable StringToNumber : string -> JsNumber.
Variable NumberToString : JsNumber -> string.

Local Abbreviation detect :=
  (detectBuilders localeCompare minimatch validSemver StringToNumber NumberToString).
Local Abbreviation validate :=
  (validateFunctions validSemver StringToNumber NumberToString).

(** C1. Whenever the detector produces an error, the errors list holds
    exactly that one error, and the builders and the three route lists
    are all null. *)
Theorem error_result_exclusive
    (files : list string) (pkg : option PackageJson) (options : Options)
    (es : list ErrorResponse) :
  errors (detect files pkg options) = Some es ->
  exists e : ErrorResponse,
    es = [e]
    /\ builders (detect files pkg options) = None
    /\ defaultRoutes (detect files pkg options) = None
    /\ redirectRoutes (detect files pkg options) = None
    /\ rewriteRoutes (detect files pkg options) = None.
Proof.
  unfold detectBuilders.
  destruct (validateFunctions _ _ _ options) as [functionError|].
  { cbn. intros [= <-]. eauto 6. }
  destruct (classifyFiles _ _ _ _ _ _ _) as [routeError|st].
  { cbn. intros [= <-]. eauto 6. }
  destruct (negb _ && (hasBuildScript pkg || _ || _)).
  - destruct (checkUnusedFunctions _ _ _) as [unused|].
    + cbn. intros [= <-]. eauto 6.
    + cbn. discriminate.
  - destruct (isSome pkg && _ && _ && _).
    { cbn. intros [= <-]. eauto 6. }
    destruct (hasUsedOutputDirectory st && _).
    { destruct (checkUnusedFunctions _ _ _) as [unused|].
      - cbn. intros [= <-]. eauto 6.
      - cbn. discriminate. }
    destruct (nonEmpty (apiBuilders st) && hasNoneApiFiles st).
    + destruct (checkUnusedFunctions _ _ _) as [unused|].
      * cbn. intros [= <-]. eauto 6.
      * cbn. discriminate.
    + destruct (checkUnusedFunctions _ _ _) as [unused|].
      * cbn. intros [= <-]. eauto 6.
      * cbn. destruct (nonEmpty _); discriminate.
Qed.




Lemma maybeGetApiBuilder_outside_api (fileName : string) (apiMatches : list Builder)
    (options : Options) :
  startsWith fileName "api/" = false ->
  maybeGetApiBuilder minimatch fileName apiMatches options = None.
Proof. intros H. unfold maybeGetApiBuilder. now rewrite H. Qed.

(** C9, as amended. With the single file package.json, a manifest
    whose scripts hold no build entry, and options with no
    ignoreBuildScript, no buildCommand, no framework, no empty-string
    outputDirectory and a function map that passes validation, the
    detector returns the fatal missing_build_script error, with null
    builders and route lists. *)
Theorem missing_build_script
    (pkg : PackageJson) (buildScripts : list (string * string)) (options : Options) :
  scripts pkg = Some buildScripts ->
  assoc "build" buildScripts = None ->
  ignoreBuildScript options = false ->
  buildCommand (settings options) = None ->
  framework (settings options) = None ->
  outputDirectory (settings options) <> Some "" ->
  validate options = None ->
  detect ["package.json"] (Some pkg) options
  = mkDetectResult None (Some [getMissingBuildScriptError]) [] None None None
    /\ code getMissingBuildScriptError = "missing_build_script".
Proof.
  intros Hscripts Hbuild Hignore Hcommand Hframework Hout Hvalid.
  split; [|reflexivity].
  unfold detectBuilders. rewrite Hvalid.
  change (filesAfterSorts localeCompare ["package.json"]) with ["package.json"].
  cbn [classifyFiles]. unfold classifyFile.
  rewrite maybeGetApiBuilder_outside_api by reflexivity.
  cbn [apiBuilders loopInit nonEmpty negb andb hasUsedOutputDirectory].
  rewrite Hcommand, Hframework, Hignore.
  unfold hasBuildScript. rewrite Hscripts, Hbuild.
  assert (Hstatic : optStringEqb (outputDirectory (settings options)) (Some "") = false).
  { destruct (outputDirectory (settings options)) as [o|]; [|reflexivity].
    cbn. destruct (String.eqb_spec o ""); [subst; congruence | reflexivity]. }
  rewrite Hstatic. reflexivity.
Qed.

(** C2. The file list [api/a.js, api/b/c.js] is in lexicographic
    order, and stays so under [files.sort(sortFiles)]; the loop of the
    detector nevertheless visits api/b/c.js first, because the second
    in-place sort, by segment count, reorders the one array that the
    loop iterates. *)
Theorem loop_order_by_segment_count :
  (0 < localeCompare "api/b/c.js" "api/a.js")%Z ->
  sort (sortFiles localeCompare) ["api/a.js"; "api/b/c.js"]
  = ["api/a.js"; "api/b/c.js"]
  /\ filesAfterSorts localeCompare ["api/a.js"; "api/b/c.js"]
     = ["api/b/c.js"; "api/a.js"].
Proof.
  intros H.
  assert (Hfirst : sort (sortFiles localeCompare) ["api/a.js"; "api/b/c.js"]
                   = ["api/a.js"; "api/b/c.js"]).
  { unfold sort, sortFiles. cbn [fold_left sortInsert].
    destruct (Z.ltb_spec (localeCompare "api/b/c.js" "api/a.js") 0); [lia | reflexivity]. }
  split; [exact Hfirst|].
  unfold filesAfterSorts. rewrite Hfirst. reflexivity.
Qed.

End DetectorProperties.

(** * Examples

    The theorems above at concrete inputs, and the inputs at which a
    stated property fails. *)

(** The error of the missing build script satisfies the exclusivity of
    C1. *)
Lemma error_result_exclusive_witness :
  exists e : ErrorResponse,
    [getMissingBuildScriptError] = [e]
    /\ builders (Sample.detect ["package.json"]
                   (Some (mkPackageJson (Some []) None None)) Sample.defaultOptions) = None
    /\ defaultRoutes (Sample.detect ["package.json"]
                        (Some (mkPackageJson (Some []) None None)) Sample.defaultOptions) = None
    /\ redirectRoutes (Sample.detect ["package.json"]
                         (Some (mkPackageJson (Some []) None None)) Sample.defaultOptions) = None
    /\ rewriteRoutes (Sample.detect ["package.json"]
                        (Some (mkPackageJson (Some []) None None)) Sample.defaultOptions) = None.
Proof.
  apply (error_result_exclusive
           Sample.localeCompare Sample.minimatch Sample.validSemver
           Sample.StringToNumber Sample.NumberToString
           ["package.json"] (Some (mkPackageJson (Some []) None None))
           Sample.defaultOptions [getMissingBuildScriptError]).
  reflexivity.
Defined.

(** The loop order of C2 under the comparison by code units. *)
Lemma loop_order_witness :
  sort (sortFiles Sample.localeCompare) ["api/a.js"; "api/b/c.js"]
  = ["api/a.js"; "api/b/c.js"]
  /\ filesAfterSorts Sample.localeCompare ["api/a.js"; "api/b/c.js"]
     = ["api/b/c.js"; "api/a.js"].
Proof.
  apply (loop_order_by_segment_count Sample.localeCompare). reflexivity.
Defined.

(** The routes of the two files come out in the order of the loop. *)
Example loop_order_routes :
  option_map (map routeDest)
    (defaultRoutes (Sample.detect ["api/a.js"; "api/b/c.js"] None Sample.defaultOptions))
  = Some [Some "/api/b/c.js"; Some "/api/a.js"; None].
Proof. vm_compute. reflexivity. Qed.

(** C3 fails: a second normalization strips a second extension. *)
Lemma normalization_not_idempotent :
  getAbsolutePath "api/a.b.ts" = "api/a.b"
  /\ getAbsolutePath (getAbsolutePath "api/a.b.ts") = "api/a"
  /\ getAbsolutePath (getAbsolutePath "api/a.b.ts") <> getAbsolutePath "api/a.b.ts".
Proof.
  split; [vm_compute; reflexivity|]. split; [vm_compute; reflexivity|].
  intros H. vm_compute in H. discriminate.
Qed.

(** C3 at api/[id].ts, whose normal form api/1 has no extension. *)
Lemma normalization_idempotent_witness :
  allChars notTerminator "api/[id].ts" = true
  /\ ext (parsePath (getAbsolutePath "api/[id].ts")) = ""
  /\ getAbsolutePath (getAbsolutePath "api/[id].ts") = getAbsolutePath "api/[id].ts".
Proof.
  split; [reflexivity|]. split; [reflexivity|].
  apply (proj1 normalization_idempotent "api/[id].ts"); reflexivity.
Defined.

(** Across a line terminator the pattern of the replacement matches
    once per application, so a path with two bracket pairs on two lines
    takes two applications. *)
Example line_terminator_two_steps :
  let p := "[]" +:+ String "010" "[]" in
  getAbsolutePath p = "/1" +:+ String "010" "[]"
  /\ ext (parsePath (getAbsolutePath p)) = ""
  /\ getAbsolutePath (getAbsolutePath p) = "/1" +:+ String "010" "1".
Proof. repeat split; vm_compute; reflexivity. Qed.

(** C4 fails in two ways. When both flags are set, two static paths
    that differ in their extension get the same pattern; and under any
    flags an index file directly under the root gets the pattern of
    the relative index file, the empty list of leading segments and
    the list of one empty segment being joined to the same string. *)
Lemma static_route_collisions :
  ("api/a.js" <> "api/a.ts"
   /\ isStaticPath "api/a.js" = true /\ isStaticPath "api/a.ts" = true
   /\ routeSrc (fst (createRouteFromPath "api/a.js" true true)) = Some "^/api/(a/|a)$"
   /\ routeSrc (fst (createRouteFromPath "api/a.ts" true true)) = Some "^/api/(a/|a)$")
  /\ ("/index.js" <> "index.js"
      /\ isStaticPath "/index.js" = true /\ isStaticPath "index.js" = true
      /\ routeSrc (fst (createRouteFromPath "/index.js" false false))
         = Some "^/(/|/index|/index\.js)?$"
      /\ routeSrc (fst (createRouteFromPath "index.js" false false))
         = Some "^/(/|/index|/index\.js)?$").
Proof. repeat split; try reflexivity; discriminate. Qed.

(** C4 at two files that differ in their stem, under clean URLs, and
    at two that differ in their extension, without. *)
Lemma static_routes_injective_witness :
  ((routeSrc (fst (createRouteFromPath "api/a.js" true true))
    = routeSrc (fst (createRouteFromPath "api/b.js" true true))
    <-> routeKey true true "api/a.js" = routeKey true true "api/b.js")
   /\ routeKey true true "api/a.js" = "api/a"
   /\ routeKey true true "api/b.js" = "api/b")
  /\ ((routeSrc (fst (createRouteFromPath "api/a.js" true false))
       = routeSrc (fst (createRouteFromPath "api/a.ts" true false))
       <-> routeKey true false "api/a.js" = routeKey true false "api/a.ts")
      /\ routeKey true false "api/a.js" = "api/a.js"
      /\ routeKey true false "api/a.ts" = "api/a.ts").
Proof.
  split; (split; [|split; reflexivity]).
  - apply (static_routes_injective "api/a.js" "api/b.js" true true); reflexivity.
  - apply (static_routes_injective "api/a.js" "api/a.ts" true false); reflexivity.
Defined.

(** C5 at the routes of one API file and a static frontend. *)
Lemma legacy_defaultRoutes_witness :
  exists notFound rewrite : list Route,
    rrDefaultRoutes
      (getRouteResult [fst (createRouteFromPath "api/hello.js" false false)] []
                      "public" [] (Some (staticPublicBuilder "public"))
                      Sample.defaultOptions)
    = [fst (createRouteFromPath "api/hello.js" false false)] ++ notFound ++ rewrite
    /\ ([fst (createRouteFromPath "api/hello.js" false false)] <> [] ->
        notFound = [mkRoute (Some "^/api(/.*)?$") None None None (Some 404%Z) None None])
    /\ ([fst (createRouteFromPath "api/hello.js" false false)] = [] -> notFound = [])
    /\ ((exists fb, Some (staticPublicBuilder "public") = Some fb
                    /\ use fb = JsStr "@now/static")
        /\ "public" <> "" ->
        rewrite = [mkRoute (Some "/(.*)") (Some ("/" +:+ "public" +:+ "/$1"))
                           None None None None None])
    /\ (~ ((exists fb, Some (staticPublicBuilder "public") = Some fb
                       /\ use fb = JsStr "@now/static")
           /\ "public" <> "") ->
        rewrite = []).
Proof.
  apply (legacy_defaultRoutes
           [fst (createRouteFromPath "api/hello.js" false false)] []
           "public" [] (Some (staticPublicBuilder "public")) Sample.defaultOptions).
  reflexivity.
Defined.




(** C9 fails for a function map that does not pass validation: the
    validation error comes first. *)
Lemma missing_build_script_preempted :
  let pkg := mkPackageJson (Some []) None None in
  let options :=
    mkOptions None
      (Some [("api/a.js", JsObject [("memory", JsNum (JsNum.ofZ 100))])])
      false None false false false in
  scripts pkg = Some []
  /\ assoc "build" [] = None
  /\ ignoreBuildScript options = false
  /\ buildCommand (settings options) = None
  /\ framework (settings options) = None
  /\ outputDirectory (settings options) = None
  /\ option_map (map code) (errors (Sample.detect ["package.json"] (Some pkg) options))
     = Some ["invalid_function_memory"].
Proof. repeat split. Qed.

Lemma missing_build_script_witness :
  Sample.detect ["package.json"] (Some (mkPackageJson (Some []) None None))
                Sample.defaultOptions
  = mkDetectResult None (Some [getMissingBuildScriptError]) [] None None None
  /\ code getMissingBuildScriptError = "missing_build_script".
Proof.
  apply (missing_build_script
           Sample.localeCompare Sample.minimatch Sample.validSemver
           Sample.StringToNumber Sample.NumberToString
           (mkPackageJson (Some []) None None) [] Sample.defaultOptions);
    try reflexivity. discriminate.
Defined.


(** ** Further examples *)

Lemma pathOccurrences_spec_witness :
  fst (pathOccurrences "api/a.js" ["api/a.js"; "api/a.ts"; "api/b.js"] ∅)
  = List.filter (conflictsWith "api/a.js") ["api/a.js"; "api/a.ts"; "api/b.js"]
  /\ coherentCache (snd (pathOccurrences "api/a.js" ["api/a.js"; "api/a.ts"; "api/b.js"] ∅)).
Proof.
  apply (pathOccurrences_spec "api/a.js" ["api/a.js"; "api/a.ts"; "api/b.js"] ∅).
  apply coherentCache_empty.
Defined.

(** The files that conflict with api/a.js in that list. *)
Example conflicts_of_a :
  List.filter (conflictsWith "api/a.js") ["api/a.js"; "api/a.ts"; "api/b.js"]
  = ["api/a.ts"].
Proof. vm_compute. reflexivity. Qed.

Lemma same_stem_conflict_witness :
  getAbsolutePath "api/a.js" = getAbsolutePath "api/a.ts"
  /\ ("api/a.js" <> "api/a.ts" -> conflictsWith "api/a.js" "api/a.ts" = true).
Proof.
  apply (same_stem_conflict "api/a" "api/a.js" "api/a.ts"); reflexivity.
Defined.

Lemma getApiRoute_spec_witness :
  fst (getApiRoute "api/[id].js" ["api/[id].js"; "public/a.txt"] Sample.defaultOptions ∅)
  = inr (createRouteFromPath "api/[id].js" false false).
Proof.
  apply (proj1 (getApiRoute_spec "api/[id].js" ["api/[id].js"; "public/a.txt"]
                  Sample.defaultOptions ∅ coherentCache_empty)).
  split; [reflexivity|]. split; [|reflexivity].
  intros file [<-|[<-|[]]]; vm_compute; reflexivity.
Defined.

Lemma conflicting_segment_spec_witness :
  "id" <> ""
  /\ exists pre mid post,
      placeholderNames (split slash "api/[id]/[id].js") = pre ++ "id" :: mid ++ "id" :: post.
Proof.
  apply (proj2 (conflicting_segment_spec "api/[id]/[id].js") "id").
  vm_compute. reflexivity.
Defined.

Lemma detectOutputDirectory_static_witness :
  detectOutputDirectory ([] ++ staticPublicBuilder "public" :: [staticRootBuilder])
  = Some "public"
  /\ detectOutputDirectory ([] ++ [staticRootBuilder]) = None.
Proof.
  apply (detectOutputDirectory_static [] [staticRootBuilder] "public");
    [constructor | reflexivity | reflexivity].
Defined.

Lemma maybeGetApiBuilder_builder_witness :
  src (mkBuilder (JsStr "@now/node") "api/hello.js" (Some zeroConfigOnly)) = "api/hello.js"
  /\ startsWith "api/hello.js" "api/" = true
  /\ includes "api/hello.js" "/." = false
  /\ includes "api/hello.js" "/_" = false
  /\ includes "api/hello.js" "/node_modules/" = false
  /\ endsWith "api/hello.js" ".d.ts" = false.
Proof.
  pose proof (maybeGetApiBuilder_builder Sample.minimatch "api/hello.js"
                (getApiMatches Sample.defaultOptions) Sample.defaultOptions
                (mkBuilder (JsStr "@now/node") "api/hello.js" (Some zeroConfigOnly))
                eq_refl) as H.
  tauto.
Defined.

Lemma handle_miss_routes_witness :
  let apiBuilders :=
    [ mkBuilder (JsStr "@now/node") "api/[id].js" (Some zeroConfigOnly);
      mkBuilder (JsStr "@now/node") "api/hello.ts" (Some zeroConfigOnly) ] in
  let apiRoutes :=
    [ fst (createRouteFromPath "api/[id].js" true true);
      fst (createRouteFromPath "api/hello.ts" true true) ] in
  let dynamicRoutes := [ fst (createRouteFromPath "api/[id].js" true true) ] in
  let result :=
    getRouteResult apiRoutes dynamicRoutes "public" apiBuilders None
                   (mkOptions None None false None true false true) in
  rrRewriteRoutes result = dynamicRoutes ++ [routeApi404Continue]
  /\ rrDefaultRoutes result = []
  /\ rrRedirectRoutes result
     = [ routeRedirect "^/(api(?:.+)?)/index(?:\.(?:js|ts))?/?$" "/$1";
         routeRedirect "^/api/(.+)(?:\.(?:js|ts))/?$" "/api/$1" ].
Proof.
  cbv zeta.
  destruct (handle_miss_routes
              [ fst (createRouteFromPath "api/[id].js" true true);
                fst (createRouteFromPath "api/hello.ts" true true) ]
              [ fst (createRouteFromPath "api/[id].js" true true) ]
              "public"
              [ mkBuilder (JsStr "@now/node") "api/[id].js" (Some zeroConfigOnly);
                mkBuilder (JsStr "@now/node") "api/hello.ts" (Some zeroConfigOnly) ]
              None (mkOptions None None false None true false true) eq_refl)
    as (_ & Hrewrite & Hdefault & _ & Hmiss & _).
  split; [apply Hrewrite; discriminate|]. split; [apply Hdefault; now left|].
  assert (Hext : detectApiExtensions
                   [ mkBuilder (JsStr "@now/node") "api/[id].js" (Some zeroConfigOnly);
                     mkBuilder (JsStr "@now/node") "api/hello.ts" (Some zeroConfigOnly) ]
                 <> []) by (vm_compute; discriminate).
  specialize (Hmiss ltac:(discriminate) Hext). cbv zeta in Hmiss.
  cbn [cleanUrls trailingSlash] in Hmiss. rewrite Hmiss. vm_compute. reflexivity.
Defined.

Lemma detect_error_codes_witness :
  exists e,
    [getMissingBuildScriptError] = [e] /\ In (code e) errorCodes
    /\ warnings (Sample.detect ["package.json"]
                   (Some (mkPackageJson (Some []) None None)) Sample.defaultOptions) = [].
Proof.
  apply (detect_error_codes
           Sample.localeCompare Sample.minimatch Sample.validSemver
           Sample.StringToNumber Sample.NumberToString
           ["package.json"] (Some (mkPackageJson (Some []) None None))
           Sample.defaultOptions [getMissingBuildScriptError]).
  reflexivity.
Defined.

Lemma detect_builders_order_witness :
  exists front,
    [mkBuilder (JsStr "@now/node") "api/hello.js" (Some zeroConfigOnly);
     staticPublicBuilder "public"]
    = omap (apiBuilderOf Sample.minimatch Sample.defaultOptions)
           (filesAfterSorts Sample.localeCompare ["api/hello.js"; "public/index.html"])
      ++ front
    /\ (front = [] \/ exists fb, front = [fb])
    /\ (forall b,
          In b (omap (apiBuilderOf Sample.minimatch Sample.defaultOptions)
                     (filesAfterSorts Sample.localeCompare
                        ["api/hello.js"; "public/index.html"])) ->
          In (src b) ["api/hello.js"; "public/index.html"]
          /\ apiBuilderOf Sample.minimatch Sample.defaultOptions (src b) = Some b).
Proof.
  apply (detect_builders_order
           Sample.localeCompare Sample.minimatch Sample.validSemver
           Sample.StringToNumber Sample.NumberToString
           ["api/hello.js"; "public/index.html"] None Sample.defaultOptions).
  vm_compute. reflexivity.
Defined.

Lemma detect_api_routes_witness :
  (exists tail,
      defaultRoutes (Sample.detect ["api/hello.js"; "public/index.html"] None
                       Sample.defaultOptions)
      = Some (map (routeOf Sample.defaultOptions)
                  (omap (apiBuilderOf Sample.minimatch Sample.defaultOptions)
                        (filesAfterSorts Sample.localeCompare
                           ["api/hello.js"; "public/index.html"]))
              ++ tail))
  /\ redirectRoutes (Sample.detect ["api/hello.js"; "public/index.html"] None
                       Sample.defaultOptions) = Some []
  /\ rewriteRoutes (Sample.detect ["api/hello.js"; "public/index.html"] None
                      Sample.defaultOptions) = Some [].
Proof.
  apply (detect_api_routes
           Sample.localeCompare Sample.minimatch Sample.validSemver
           Sample.StringToNumber Sample.NumberToString
           ["api/hello.js"; "public/index.html"] None Sample.defaultOptions).
  vm_compute. reflexivity.
Defined.

Lemma detect_functions_attached_witness :
  exists bs b,
    builders (Sample.detect ["api/hello.js"] None
                (mkOptions None
                   (Some [("api/hello.js", JsObject [("memory", JsNum (JsNum.ofZ 128))])])
                   false None false false false))
    = Some bs
    /\ In b bs /\ In "api/hello.js" (map fst (builderFunctions b)).
Proof.
  apply (detect_functions_attached
           Sample.localeCompare Sample.minimatch Sample.validSemver
           Sample.StringToNumber Sample.NumberToString
           ["api/hello.js"] None
           (mkOptions None
              (Some [("api/hello.js", JsObject [("memory", JsNum (JsNum.ofZ 128))])])
              false None false false false)
           "api/hello.js").
  - vm_compute. reflexivity.
  - now left.
Defined.

Lemma detect_static_output_witness :
  [mkBuilder (JsStr "@now/node") "api/hello.js" (Some zeroConfigOnly);
   staticPublicBuilder "public"]
  = omap (apiBuilderOf Sample.minimatch Sample.defaultOptions)
         (filesAfterSorts Sample.localeCompare ["api/hello.js"; "public/index.html"])
    ++ [staticPublicBuilder (usedOutputDirectoryOf Sample.defaultOptions)]
  /\ (allChars notTerminator (usedOutputDirectoryOf Sample.defaultOptions) = true ->
      allChars (notChar "*") (usedOutputDirectoryOf Sample.defaultOptions) = true ->
      detectOutputDirectory
        [mkBuilder (JsStr "@now/node") "api/hello.js" (Some zeroConfigOnly);
         staticPublicBuilder "public"]
      = Some (usedOutputDirectoryOf Sample.defaultOptions)).
Proof.
  apply (detect_static_output
           Sample.localeCompare Sample.minimatch Sample.validSemver
           Sample.StringToNumber Sample.NumberToString
           ["api/hello.js"; "public/index.html"] None Sample.defaultOptions).
  - vm_compute. reflexivity.
  - reflexivity.
  - reflexivity.
  - reflexivity.
  - reflexivity.
  - discriminate.
  - exists "public/index.html". split; [right; now left|]. split; reflexivity.
Defined.

Lemma detect_api_directory_witness :
  In (mkBuilder (JsStr "@now/node") "api/hello.js" (Some zeroConfigOnly))
     [mkBuilder (JsStr "@now/node") "api/hello.js" (Some zeroConfigOnly);
      staticPublicBuilder "public"]
  /\ detectApiDirectory
       [mkBuilder (JsStr "@now/node") "api/hello.js" (Some zeroConfigOnly);
        staticPublicBuilder "public"] = Some "api"
  /\ (extname "api/hello.js" <> "" ->
      In (extname "api/hello.js")
         (detectApiExtensions
            [mkBuilder (JsStr "@now/node") "api/hello.js" (Some zeroConfigOnly);
             staticPublicBuilder "public"])).
Proof.
  apply (detect_api_directory
           Sample.localeCompare Sample.minimatch Sample.validSemver
           Sample.StringToNumber Sample.NumberToString
           ["api/hello.js"; "public/index.html"] None Sample.defaultOptions).
  - vm_compute. reflexivity.
  - now left.
  - reflexivity.
Defined.

(** The run behind the last witnesses. *)
Example detect_api_and_public :
  Sample.detect ["api/hello.js"; "public/index.html"] None Sample.defaultOptions
  = mkDetectResult
      (Some [mkBuilder (JsStr "@now/node") "api/hello.js" (Some zeroConfigOnly);
             staticPublicBuilder "public"])
      None []
      (Some [mkRoute (Some "^/api/(hello/|hello|hello\.js)$") (Some "/api/hello.js")
                     None None None None None;
             mkRoute (Some "^/api(/.*)?$") None None None (Some 404%Z) None None;
             mkRoute (Some "/(.*)") (Some "/public/$1") None None None None None])
      (Some []) (Some []).
Proof. vm_compute. reflexivity. Qed.

(** The order of the loop at three files: the deeper file first, and
    the file with a placeholder at its end after the one without. *)
Example loop_order_of_three :
  filesAfterSorts Sample.localeCompare ["api/[id].js"; "api/a.js"; "api/b/c.js"]
  = ["api/b/c.js"; "api/a.js"; "api/[id].js"].
Proof. vm_compute. reflexivity. Qed.

(** The function entries of the frontend builder at a map with one
    entry that an API builder uses and one that none uses. *)
Example front_builder_functions :
  builderFunctions
    (detectFrontBuilder None [] {["api/a.js"]} None
       (mkOptions None
          (Some [("api/a.js", JsObject [("memory", JsNum (JsNum.ofZ 128))]);
                 ("pages/b.js", JsObject [("maxDuration", JsNum (JsNum.ofZ 10))])])
          false None false false false))
  = [("pages/b.js", JsObject [("maxDuration", JsNum (JsNum.ofZ 10))])].
Proof. vm_compute. reflexivity. Qed.
